(** * Edulocka backend: bulk issuance pipeline and nonce-sequenced submission

    A shallow embedding of the record validator (utils/validator.js), the
    row normaliser (utils/csvParser.js), the chain client
    (services/blockchainService.js), the document, QR and mail services
    (services/pdfService.js, services/qrService.js,
    services/ipfsService.js, services/emailService.js) and the batch
    orchestrator with its upload and processing endpoints
    (controllers/bulkController.js), followed by the properties of the
    pipeline that the specification states and by further properties of
    the same code.

    Conventions of the embedding:
    - a JS string is a [string] of Latin-1 code units; [None] in an
      [option] field is JS [undefined];
    - every external collaborator (RPC node, browser, file system, SMTP)
      is an operation of the [Services] interface acting on an abstract
      world; an operation either returns or throws;
    - [async] code runs in a state-and-exception monad [M] over the heap
      (the world together with the job object the pipeline mutates). *)

From Stdlib Require Import ZArith String Ascii List Bool Lia.
From stdpp Require Import base option list strings gmap pretty.

Local Open Scope string_scope.
Local Open Scope list_scope.
Local Open Scope nat_scope.

(* ===================================================================== *)
(** ** JavaScript string primitives used by the sources                   *)
(* ===================================================================== *)

Module Js.

(** The double-quote character, which the validator puts in messages. *)
Definition dq : string := String (ascii_of_nat 34) EmptyString.

(** [WhiteSpace] and [LineTerminator] code units below 256. *)
Definition isWhiteSpace (c : ascii) : bool :=
  let n := nat_of_ascii c in
  (n =? 9) || (n =? 10) || (n =? 11) || (n =? 12) || (n =? 13)
  || (n =? 32) || (n =? 160).

Definition isDigit (c : ascii) : bool :=
  let n := nat_of_ascii c in (48 <=? n) && (n <=? 57).

Fixpoint trimStart (s : string) : string :=
  match s with
  | String c s' => if isWhiteSpace c then trimStart s' else s
  | EmptyString => EmptyString
  end.

(** [String.prototype.trim] *)
Definition trim (s : string) : string :=
  String.rev (trimStart (String.rev (trimStart s))).

(** [!v] for a value that is a string or [undefined]. *)
Definition falsy (v : option string) : bool :=
  match v with
  | None => true
  | Some s => String.eqb s ""
  end.

Definition truthy (v : option string) : bool := negb (falsy v).

(** [v || ""] *)
Definition orEmpty (v : option string) : string :=
  match v with
  | Some s => s
  | None => ""
  end.

(** [String.prototype.substring(from, to)] for [from <= to]. *)
Definition substring (from to : nat) (s : string) : string :=
  String.substring from (to - from) s.

Definition upperChar (c : ascii) : ascii :=
  let n := nat_of_ascii c in
  if (97 <=? n) && (n <=? 122) then ascii_of_nat (n - 32) else c.

(** [String.prototype.toUpperCase] on ASCII letters and digits, which is
    all that a base-36 rendering contains. *)
Fixpoint toUpperCase (s : string) : string :=
  match s with
  | String c s' => String (upperChar c) (toUpperCase s')
  | EmptyString => EmptyString
  end.

Fixpoint repeatChar (c : ascii) (n : nat) : string :=
  match n with
  | O => EmptyString
  | S n' => String c (repeatChar c n')
  end.

(** [String.prototype.padStart(width, c)] with a one-character filler. *)
Definition padStart (width : nat) (c : ascii) (s : string) : string :=
  repeatChar c (width - String.length s) +:+ s.

(** [/\d{4,}/.test(s)]: four decimal digits in a row somewhere in [s]. *)
Fixpoint hasDigitRun (need run : nat) (s : string) : bool :=
  match s with
  | EmptyString => false
  | String c s' =>
      if isDigit c
      then (need <=? S run) || hasDigitRun need (S run) s'
      else hasDigitRun need 0 s'
  end.

(** A non-empty run of [[^\s@]] that spans the whole of [s]. *)
Fixpoint plainRun (s : string) : bool :=
  match s with
  | EmptyString => true
  | String c s' =>
      negb (isWhiteSpace c) && negb (Ascii.eqb c "@") && plainRun s'
  end.

Definition plainNonEmpty (s : string) : bool :=
  negb (String.eqb s "") && plainRun s.

(** [[^\s@]+\.[^\s@]+$]: some dot of [s] has a non-empty plain run on
    both sides; [seen] tells whether a plain character came before. *)
Fixpoint dottedTail (seen : bool) (s : string) : bool :=
  match s with
  | EmptyString => false
  | String c s' =>
      if isWhiteSpace c || Ascii.eqb c "@" then false
      else (Ascii.eqb c "." && seen && plainNonEmpty s') || dottedTail true s'
  end.

(** [/^[^\s@]+@[^\s@]+\.[^\s@]+$/.test(s)] *)
Fixpoint emailLocal (seen : bool) (s : string) : bool :=
  match s with
  | EmptyString => false
  | String c s' =>
      if Ascii.eqb c "@" then seen && dottedTail false s'
      else if isWhiteSpace c then false
      else emailLocal true s'
  end.

Definition emailRegexTest (s : string) : bool := emailLocal false s.

Definition lowerChar (c : ascii) : ascii :=
  let n := nat_of_ascii c in
  if ((65 <=? n) && (n <=? 90))
     || ((192 <=? n) && (n <=? 222) && negb (n =? 215))
  then ascii_of_nat (n + 32) else c.

(** [String.prototype.toLowerCase] on Latin-1 code units. *)
Fixpoint toLowerCase (s : string) : string :=
  match s with
  | String c s' => String (lowerChar c) (toLowerCase s')
  | EmptyString => EmptyString
  end.

(** The distance from a Number of value [n] to the next Number above it:
    1 below 2^53, where every integer is a Number, and a power of two from
    there on, a double having 53 significant bits. *)
Definition ulp (n : Z) : Z := (2 ^ Z.max 0 (Z.log2 n - 52))%Z.

(** The decimal [v] reads back as the Number [n] (round to nearest, ties
    to the even significand): it lies within half a gap of [n] on either
    side, the bounds included when the significand of [n] is even. Below
    a power of two the gap is half as wide. All quantities are scaled by
    4 to stay among the integers. *)
Definition readsBackAs (n v : Z) : bool :=
  let u := ulp n in
  let below :=
    if (n =? 2 ^ Z.log2 n)%Z && (52 <? Z.log2 n)%Z then u else (2 * u)%Z in
  let lo := (4 * n - below)%Z in
  let hi := (4 * n + 2 * u)%Z in
  if Z.even (n / u)
  then (lo <=? 4 * v)%Z && (4 * v <=? hi)%Z
  else (lo <? 4 * v)%Z && (4 * v <? hi)%Z.

(** The decimal with the fewest significant digits that reads back as
    [n], the closest to [n] among those, tried with [k], [k + 1], ...
    significant digits; seventeen always suffice. *)
Fixpoint shortestDecimal (fuel k : nat) (n : Z) : Z :=
  match fuel with
  | O => n
  | S fuel' =>
      let p := (10 ^ (Z.of_nat (String.length (pretty n)) - Z.of_nat k))%Z in
      let lo := (n / p * p)%Z in
      let hi := (lo + p)%Z in
      match readsBackAs n lo, readsBackAs n hi with
      | true, true =>
          if (n - lo <? hi - n)%Z then lo
          else if (hi - n <? n - lo)%Z then hi
          else if Z.even (lo / p) then lo else hi
      | true, false => lo
      | false, true => hi
      | false, false => shortestDecimal fuel' (S k) n
      end
  end.

Fixpoint dropZeros (rev_digits : list ascii) : list ascii :=
  match rev_digits with
  | c :: rest => if Ascii.eqb c "0" then dropZeros rest else rev_digits
  | [] => []
  end.

(** [d.ddde+x] for the decimal [v] of at least 22 digits. *)
Definition exponentForm (v : Z) : string :=
  let digits := pretty v in
  let exponent := pretty (String.length digits - 1) in
  match digits with
  | String d rest =>
      match rev (dropZeros (rev (list_ascii_of_string rest))) with
      | [] => String d ("e+" +:+ exponent)
      | fraction =>
          String d ("." +:+ string_of_list_ascii fraction +:+ "e+" +:+ exponent)
      end
  | EmptyString => EmptyString
  end.

(** [String(n)], which is also [`${n}`], for a Number whose value is the
    integer [n]: all the digits of a safe integer; beyond 2^53 the
    shortest decimal that reads back as [n], filled up with zeros, and in
    exponent notation from 1e21 on. *)
Definition numberText (n : Z) : string :=
  let magnitude (m : Z) : string :=
    if (m <? 2 ^ 53)%Z then pretty m
    else
      let v := shortestDecimal 17 1 m in
      if (v <? 10 ^ 21)%Z then pretty v else exponentForm v in
  if (n <? 0)%Z then "-" +:+ magnitude (- n)%Z else magnitude n.

End Js.

(* ===================================================================== *)
(** ** Data model                                                         *)
(* ===================================================================== *)

(** [cert.issueDate]: a string from the parser, or a number (the chain
    client tests [typeof cert.issueDate === "number"]); [DateNumber n] is
    the Number whose value is the integer [n]. *)
Inductive IssueDate :=
| DateNumber (n : Z)
| DateString (s : string).

(** A validation error or warning object [{ field, message, row }]. *)
Record Issue := mkIssue {
  field : string;
  message : string;
  row : nat;
}.

(** A certificate record: the normalised row plus the fields that the
    validator and the pipeline attach to it. [otherKeys] holds the own
    properties under any other name, which only the parser can create. *)
Record Cert := mkCert {
  studentName : option string;
  studentId : option string;
  degree : option string;
  institution : option string;
  issueDate : option IssueDate;
  email : option string;
  _row : option nat;
  _errors : option (list Issue);
  certId : option string;
  documentHash : option string;
  ipfsHash : option string;
  ipfsPinned : option bool;
  ipfsGateway : option (option string);
  ipfsError : option string;
  otherKeys : gmap string string;
}.

Global Instance Issue_eq_dec : EqDecision Issue.
Proof. solve_decision. Defined.

Global Instance IssueDate_eq_dec : EqDecision IssueDate.
Proof. solve_decision. Defined.

Global Instance Cert_eq_dec : EqDecision Cert.
Proof. solve_decision. Defined.

(** Field assignments [cert.f = v]. *)
Definition set_row (v : nat) (c : Cert) : Cert :=
  mkCert (studentName c) (studentId c) (degree c) (institution c)
    (issueDate c) (email c) (Some v) (_errors c) (certId c)
    (documentHash c) (ipfsHash c) (ipfsPinned c) (ipfsGateway c)
    (ipfsError c) (otherKeys c).

Definition set_errors (v : list Issue) (c : Cert) : Cert :=
  mkCert (studentName c) (studentId c) (degree c) (institution c)
    (issueDate c) (email c) (_row c) (Some v) (certId c)
    (documentHash c) (ipfsHash c) (ipfsPinned c) (ipfsGateway c)
    (ipfsError c) (otherKeys c).

Definition set_certId (v : string) (c : Cert) : Cert :=
  mkCert (studentName c) (studentId c) (degree c) (institution c)
    (issueDate c) (email c) (_row c) (_errors c) (Some v)
    (documentHash c) (ipfsHash c) (ipfsPinned c) (ipfsGateway c)
    (ipfsError c) (otherKeys c).

Definition set_documentHash (v : string) (c : Cert) : Cert :=
  mkCert (studentName c) (studentId c) (degree c) (institution c)
    (issueDate c) (email c) (_row c) (_errors c) (certId c)
    (Some v) (ipfsHash c) (ipfsPinned c) (ipfsGateway c)
    (ipfsError c) (otherKeys c).

Definition set_ipfsHash (v : string) (c : Cert) : Cert :=
  mkCert (studentName c) (studentId c) (degree c) (institution c)
    (issueDate c) (email c) (_row c) (_errors c) (certId c)
    (documentHash c) (Some v) (ipfsPinned c) (ipfsGateway c)
    (ipfsError c) (otherKeys c).

Definition set_ipfsPinned (v : bool) (c : Cert) : Cert :=
  mkCert (studentName c) (studentId c) (degree c) (institution c)
    (issueDate c) (email c) (_row c) (_errors c) (certId c)
    (documentHash c) (ipfsHash c) (Some v) (ipfsGateway c)
    (ipfsError c) (otherKeys c).

Definition set_ipfsGateway (v : option string) (c : Cert) : Cert :=
  mkCert (studentName c) (studentId c) (degree c) (institution c)
    (issueDate c) (email c) (_row c) (_errors c) (certId c)
    (documentHash c) (ipfsHash c) (ipfsPinned c) (Some v)
    (ipfsError c) (otherKeys c).

Definition set_ipfsError (v : string) (c : Cert) : Cert :=
  mkCert (studentName c) (studentId c) (degree c) (institution c)
    (issueDate c) (email c) (_row c) (_errors c) (certId c)
    (documentHash c) (ipfsHash c) (ipfsPinned c) (ipfsGateway c)
    (Some v) (otherKeys c).

Definition set_studentName (v : string) (c : Cert) : Cert :=
  mkCert (Some v) (studentId c) (degree c) (institution c)
    (issueDate c) (email c) (_row c) (_errors c) (certId c)
    (documentHash c) (ipfsHash c) (ipfsPinned c) (ipfsGateway c)
    (ipfsError c) (otherKeys c).

Definition set_studentId (v : string) (c : Cert) : Cert :=
  mkCert (studentName c) (Some v) (degree c) (institution c)
    (issueDate c) (email c) (_row c) (_errors c) (certId c)
    (documentHash c) (ipfsHash c) (ipfsPinned c) (ipfsGateway c)
    (ipfsError c) (otherKeys c).

Definition set_degree (v : string) (c : Cert) : Cert :=
  mkCert (studentName c) (studentId c) (Some v) (institution c)
    (issueDate c) (email c) (_row c) (_errors c) (certId c)
    (documentHash c) (ipfsHash c) (ipfsPinned c) (ipfsGateway c)
    (ipfsError c) (otherKeys c).

Definition set_institution (v : string) (c : Cert) : Cert :=
  mkCert (studentName c) (studentId c) (degree c) (Some v)
    (issueDate c) (email c) (_row c) (_errors c) (certId c)
    (documentHash c) (ipfsHash c) (ipfsPinned c) (ipfsGateway c)
    (ipfsError c) (otherKeys c).

Definition set_issueDate (v : IssueDate) (c : Cert) : Cert :=
  mkCert (studentName c) (studentId c) (degree c) (institution c)
    (Some v) (email c) (_row c) (_errors c) (certId c)
    (documentHash c) (ipfsHash c) (ipfsPinned c) (ipfsGateway c)
    (ipfsError c) (otherKeys c).

Definition set_email (v : string) (c : Cert) : Cert :=
  mkCert (studentName c) (studentId c) (degree c) (institution c)
    (issueDate c) (Some v) (_row c) (_errors c) (certId c)
    (documentHash c) (ipfsHash c) (ipfsPinned c) (ipfsGateway c)
    (ipfsError c) (otherKeys c).

(** [cert[k] = v] for a name [k] that is none of the fields above. *)
Definition set_otherKey (k v : string) (c : Cert) : Cert :=
  mkCert (studentName c) (studentId c) (degree c) (institution c)
    (issueDate c) (email c) (_row c) (_errors c) (certId c)
    (documentHash c) (ipfsHash c) (ipfsPinned c) (ipfsGateway c)
    (ipfsError c) (<[k := v]> (otherKeys c)).

(** A row of six optional string columns and nothing else. *)
Definition rawRow (name sid deg inst date mail : option string) : Cert :=
  mkCert name sid deg inst (DateString <$> date) mail
    None None None None None None None None ∅.

(* ===================================================================== *)
(** ** utils/validator.js                                                 *)
(* ===================================================================== *)

Module Validator.

Section WithDates.

(** [new Date(s).getTime()] in milliseconds, [None] for [NaN]: date
    parsing is left to the host and is a parameter here. *)
Variable parseDate : string -> option Z.

(** [isNaN(new Date(v).getTime())] is false. *)
Definition dateIsValid (v : IssueDate) : bool :=
  match v with
  | DateNumber n => (Z.abs n <=? 8640000000000000)%Z
  | DateString s => bool_decide (is_Some (parseDate s))
  end.

(** [!cert.issueDate] *)
Definition dateFalsy (v : option IssueDate) : bool :=
  match v with
  | None => true
  | Some (DateNumber n) => (n =? 0)%Z
  | Some (DateString s) => String.eqb s ""
  end.

(** [`${cert.issueDate}`] *)
Definition dateText (v : IssueDate) : string :=
  match v with
  | DateNumber n => Js.numberText n
  | DateString s => s
  end.

(** [!v || v.trim().length === 0] *)
Definition blank (v : option string) : bool :=
  Js.falsy v || (String.length (Js.trim (Js.orEmpty v)) =? 0).

Record Validation := mkValidation {
  valid : bool;
  errors : list Issue;
  warnings : list Issue;
}.

Definition requiredError (v : option string) (f msg : string) (r : nat)
  : list Issue :=
  if blank v then [mkIssue f msg r] else [].

Definition validateCertificate (cert : Cert) (index : nat) : Validation :=
  let r := index + 1 in
  let e1 :=
    if blank (studentName cert)
    then [mkIssue "studentName" "Student name is required" r]
    else if 200 <? String.length (Js.orEmpty (studentName cert))
    then [mkIssue "studentName" "Student name too long (max 200 chars)" r]
    else [] in
  let e2 := requiredError (studentId cert) "studentId"
              "Student ID is required" r in
  let e3 := requiredError (degree cert) "degree"
              "Degree/program is required" r in
  let e4 := requiredError (institution cert) "institution"
              "Institution name is required" r in
  let e5 :=
    if dateFalsy (issueDate cert)
    then [mkIssue "issueDate" "Issue date is required" r]
    else match issueDate cert with
         | Some d =>
             if dateIsValid d then []
             else [mkIssue "issueDate"
                     ("Invalid date format: " +:+ Js.dq +:+ dateText d
                      +:+ Js.dq +:+ ". Use YYYY-MM-DD.") r]
         | None => []
         end in
  let w1 :=
    match email cert with
    | Some m =>
        if negb (String.eqb m "")
           && (0 <? String.length (Js.trim m))
           && negb (Js.emailRegexTest m)
        then [mkIssue "email"
                ("Invalid email: " +:+ Js.dq +:+ m +:+ Js.dq) r]
        else []
    | None => []
    end in
  let w2 :=
    if Js.truthy (studentName cert)
       && Js.hasDigitRun 4 0 (Js.orEmpty (studentName cert))
    then [mkIssue "studentName"
            "Student name contains numbers — is this correct?" r]
    else [] in
  let errs := e1 ++ e2 ++ e3 ++ e4 ++ e5 in
  mkValidation (length errs =? 0) errs (w1 ++ w2).

(** The local variables of [validateBatch]. *)
Record BatchAcc := mkBatchAcc {
  allErrors : list Issue;
  allWarnings : list Issue;
  validRecords : list Cert;
  invalidRecords : list Cert;
  seenStudentIds : gmap string nat;
  seenEmails : gmap string nat;
}.

Definition emptyAcc : BatchAcc := mkBatchAcc [] [] [] [] ∅ ∅.

Definition duplicateWarning (f label : string) (key : string)
    (seen : gmap string nat) (r : nat) : list Issue :=
  match seen !! key with
  | Some r0 =>
      [mkIssue f
         ("Duplicate " +:+ label +:+ " " +:+ Js.dq +:+ key +:+ Js.dq
          +:+ " (also in row " +:+ pretty r0 +:+ ")") r]
  | None => []
  end.

(** One iteration of the loop of [validateBatch]. *)
Definition validateRow (acc : BatchAcc) (i : nat) (cert : Cert)
  : BatchAcc :=
  let v := validateCertificate cert i in
  let dupId :=
    if Js.truthy (studentId cert)
    then duplicateWarning "studentId" "student ID"
           (Js.orEmpty (studentId cert)) (seenStudentIds acc) (i + 1)
    else [] in
  let seenIds :=
    if Js.truthy (studentId cert)
    then <[Js.orEmpty (studentId cert) := i + 1]> (seenStudentIds acc)
    else seenStudentIds acc in
  let dupMail :=
    if Js.truthy (email cert)
    then duplicateWarning "email" "email"
           (Js.orEmpty (email cert)) (seenEmails acc) (i + 1)
    else [] in
  let seenMails :=
    if Js.truthy (email cert)
    then <[Js.orEmpty (email cert) := i + 1]> (seenEmails acc)
    else seenEmails acc in
  mkBatchAcc
    (allErrors acc ++ errors v)
    (allWarnings acc ++ dupId ++ dupMail ++ warnings v)
    (if valid v then validRecords acc ++ [set_row (i + 1) cert]
     else validRecords acc)
    (if valid v then invalidRecords acc
     else invalidRecords acc
            ++ [set_errors (errors v) (set_row (i + 1) cert)])
    seenIds seenMails.

Fixpoint validateLoop (acc : BatchAcc) (i : nat) (certs : list Cert)
  : BatchAcc :=
  match certs with
  | [] => acc
  | cert :: rest => validateLoop (validateRow acc i cert) (S i) rest
  end.

Record BatchValidation := mkBatchValidation {
  totalRows : nat;
  validCount : nat;
  invalidCount : nat;
  hasErrors : bool;
  batchErrors : list Issue;
  batchWarnings : list Issue;
  batchValid : list Cert;
  batchInvalid : list Cert;
}.

Definition validateBatch (certificates : list Cert) : BatchValidation :=
  let acc := validateLoop emptyAcc 0 certificates in
  mkBatchValidation
    (length certificates)
    (length (validRecords acc))
    (length (invalidRecords acc))
    (0 <? length (allErrors acc))
    (allErrors acc)
    (allWarnings acc)
    (validRecords acc)
    (invalidRecords acc).

End WithDates.

(** What [validateColumns] returns. *)
Record ColumnCheck := mkColumnCheck {
  columnsValid : bool;
  missing : list string;
  hint : option string;
}.

Definition requiredFields : list string :=
  ["studentName"; "studentId"; "degree"; "institution"; "issueDate"].

(** The names of the members that every object inherits from
    [Object.prototype]. *)
Definition inheritedNames : list string :=
  ["constructor"; "__defineGetter__"; "__defineSetter__"; "hasOwnProperty";
   "__lookupGetter__"; "__lookupSetter__"; "isPrototypeOf";
   "propertyIsEnumerable"; "toString"; "valueOf"; "__proto__";
   "toLocaleString"].

(** [field in record]: an own property of the record or an inherited
    member. *)
Definition hasField (c : Cert) (f : string) : bool :=
  if String.eqb f "studentName" then bool_decide (is_Some (studentName c))
  else if String.eqb f "studentId" then bool_decide (is_Some (studentId c))
  else if String.eqb f "degree" then bool_decide (is_Some (degree c))
  else if String.eqb f "institution"
  then bool_decide (is_Some (institution c))
  else if String.eqb f "issueDate" then bool_decide (is_Some (issueDate c))
  else if String.eqb f "email" then bool_decide (is_Some (email c))
  else if String.eqb f "_row" then bool_decide (is_Some (_row c))
  else if String.eqb f "_errors" then bool_decide (is_Some (_errors c))
  else if String.eqb f "certId" then bool_decide (is_Some (certId c))
  else if String.eqb f "documentHash"
  then bool_decide (is_Some (documentHash c))
  else if String.eqb f "ipfsHash" then bool_decide (is_Some (ipfsHash c))
  else if String.eqb f "ipfsPinned" then bool_decide (is_Some (ipfsPinned c))
  else if String.eqb f "ipfsGateway"
  then bool_decide (is_Some (ipfsGateway c))
  else if String.eqb f "ipfsError" then bool_decide (is_Some (ipfsError c))
  else bool_decide (is_Some (otherKeys c !! f))
       || bool_decide (f ∈ inheritedNames).

(** [requiredFields.join(", ")] *)
Fixpoint join (sep : string) (l : list string) : string :=
  match l with
  | [] => ""
  | [x] => x
  | x :: rest => x +:+ sep +:+ join sep rest
  end.

Definition columnsHint : string :=
  "Your CSV must have columns for: " +:+ join ", " requiredFields
  +:+ ". Accepted column names include variations like " +:+ Js.dq
  +:+ "Student Name" +:+ Js.dq +:+ ", " +:+ Js.dq +:+ "student_name"
  +:+ Js.dq +:+ ", " +:+ Js.dq +:+ "name" +:+ Js.dq +:+ ", etc.".

Definition validateColumns (records : list Cert) : ColumnCheck :=
  match records with
  | [] => mkColumnCheck false ["No data rows found in file"] None
  | firstRecord :: _ =>
      let absent :=
        List.filter (fun f => negb (hasField firstRecord f)) requiredFields in
      if 0 <? length absent
      then mkColumnCheck false absent (Some columnsHint)
      else mkColumnCheck true [] None
  end.

End Validator.

(* ===================================================================== *)
(** ** utils/csvParser.js                                                 *)
(* ===================================================================== *)

Module CsvParser.

(** The own properties of [COLUMN_MAP]. *)
Definition COLUMN_MAP : list (string * string) :=
  [("studentname", "studentName"); ("student_name", "studentName");
   ("student name", "studentName"); ("name", "studentName");
   ("fullname", "studentName"); ("full_name", "studentName");
   ("full name", "studentName");
   ("studentid", "studentId"); ("student_id", "studentId");
   ("student id", "studentId"); ("student number", "studentId");
   ("reg number", "studentId"); ("registration number", "studentId");
   ("matricnumber", "studentId"); ("matric_number", "studentId");
   ("matric number", "studentId"); ("regno", "studentId");
   ("reg_no", "studentId");
   ("degree", "degree"); ("program", "degree"); ("programme", "degree");
   ("course", "degree"); ("qualification", "degree");
   ("certificate", "degree"); ("degree name", "degree");
   ("institution", "institution"); ("school", "institution");
   ("university", "institution"); ("college", "institution");
   ("institution name", "institution");
   ("issuedate", "issueDate"); ("issue_date", "issueDate");
   ("issue date", "issueDate"); ("date", "issueDate");
   ("date issued", "issueDate"); ("graduation date", "issueDate");
   ("graddate", "issueDate");
   ("email", "email"); ("email address", "email");
   ("emailaddress", "email"); ("student email", "email");
   ("studentemail", "email")].

(** The two members that [COLUMN_MAP] inherits from [Object.prototype]
    and that a trimmed, lower-cased header can name: the function
    [Object] under [constructor] and the prototype object itself under
    [__proto__]. Both are truthy, and as a property key each is turned
    into the text given here. *)
Definition inheritedColumns : list (string * string) :=
  [("constructor", "function Object() { [native code] }");
   ("__proto__", "[object Object]")].

Fixpoint ownColumn (key : string) (m : list (string * string))
  : option string :=
  match m with
  | [] => None
  | (k, mapped) :: rest =>
      if String.eqb key k then Some mapped else ownColumn key rest
  end.

(** [COLUMN_MAP[key]] when it is truthy, as the property key that
    [normalized[mappedKey]] makes of it: the mapped name of an own key,
    else the text of an inherited member. *)
Definition lookupColumn (key : string) (m : list (string * string))
  : option string :=
  match ownColumn key m with
  | Some mapped => Some mapped
  | None => ownColumn key inheritedColumns
  end.

(** A row as [csv-parser] or [XLSX.utils.sheet_to_json] hands it over:
    [Object.entries(row)], each cell already through [String(value)]. *)
Definition RawRow : Type := list (string * string).

(** [normalized[mappedKey] = value] for a key that [lookupColumn] returns:
    one of the six input fields, or the text of an inherited member. *)
Definition assignField (mappedKey value : string) (c : Cert) : Cert :=
  if String.eqb mappedKey "studentName" then set_studentName value c
  else if String.eqb mappedKey "studentId" then set_studentId value c
  else if String.eqb mappedKey "degree" then set_degree value c
  else if String.eqb mappedKey "institution" then set_institution value c
  else if String.eqb mappedKey "issueDate"
  then set_issueDate (DateString value) c
  else if String.eqb mappedKey "email" then set_email value c
  else set_otherKey mappedKey value c.

(** The body of the loop of [normalizeRow]. *)
Definition normalizeEntry (normalized : Cert) (entry : string * string)
  : Cert :=
  let key := Js.toLowerCase (Js.trim (fst entry)) in
  match lookupColumn key COLUMN_MAP with
  | Some mappedKey => assignField mappedKey (Js.trim (snd entry)) normalized
  | None => normalized
  end.

Definition normalizeRow (row : RawRow) : Cert :=
  fold_left normalizeEntry row (rawRow None None None None None None).

End CsvParser.

(* ===================================================================== *)
(** ** Effects: exceptions over a mutable heap                            *)
(* ===================================================================== *)

(** A thrown JS [Error]: ethers errors carry a [reason] next to the
    [message]. *)
Record JsError := mkError {
  errReason : option string;
  errMessage : string;
}.

Definition plainError (msg : string) : JsError := mkError None msg.

(** A [TypeError], as thrown when [undefined] is called or dereferenced. *)
Definition typeError (msg : string) : JsError := mkError None msg.

Inductive Outcome (A : Type) : Type :=
| Ok (a : A)
| Throw (e : JsError).

Arguments Ok {A} a.
Arguments Throw {A} e.

Module Eff.

Section Monad.

Context {St : Type}.

(** An [async] computation: from a state to a value or an exception,
    and the state it leaves behind. *)
Definition M (A : Type) : Type := St -> Outcome A * St.

Definition ret {A} (a : A) : M A := fun s => (Ok a, s).

Definition throw {A} (e : JsError) : M A := fun s => (Throw e, s).

Definition bind {A B} (m : M A) (k : A -> M B) : M B :=
  fun s =>
    match m s with
    | (Ok a, s') => k a s'
    | (Throw e, s') => (Throw e, s')
    end.

(** [try { m } catch (err) { handler err }]: the state changes made
    before the exception stay. *)
Definition tryCatch {A} (m : M A) (handler : JsError -> M A) : M A :=
  fun s =>
    match m s with
    | (Ok a, s') => (Ok a, s')
    | (Throw e, s') => handler e s'
    end.

(** [try { m } finally { cleanup }] *)
Definition tryFinally {A} (m : M A) (cleanup : M unit) : M A :=
  fun s =>
    match m s with
    | (Ok a, s') =>
        match cleanup s' with
        | (Ok _, s'') => (Ok a, s'')
        | (Throw e, s'') => (Throw e, s'')
        end
    | (Throw e, s') =>
        match cleanup s' with
        | (Ok _, s'') => (Throw e, s'')
        | (Throw e', s'') => (Throw e', s'')
        end
    end.

Definition gets {A} (f : St -> A) : M A := fun s => (Ok (f s), s).

Definition modify (f : St -> St) : M unit := fun s => (Ok tt, f s).

(** A computation that returns whatever state it is run in. *)
Definition neverThrows {A} (m : M A) : Prop :=
  forall s, exists a s', m s = (Ok a, s').

End Monad.

Arguments M : clear implicits.

End Eff.

Import Eff.

Notation "'do' x <- m ; k" := (bind m (fun x => k))
  (at level 10, x name, m at level 100, k at level 200).
Notation "m ;; k" := (bind m (fun _ => k))
  (at level 100, k at level 200, right associativity).

(* ===================================================================== *)
(** ** Values exchanged with the external collaborators                   *)
(* ===================================================================== *)

Definition Buffer : Type := list Byte.byte.

(** The arguments of [contract.issueCertificate]. *)
Record IssueCall := mkIssueCall {
  callCertId : option string;
  callStudentName : option string;
  callStudentId : option string;
  callDegree : option string;
  callInstitution : option string;
  callTimestamp : option Z;
  callIpfsHash : string;
}.

(** A transaction handle ([tx.hash]) and a receipt. *)
Record Tx := mkTx { hash : string }.

Record Receipt := mkReceipt {
  receiptBlockNumber : Z;
  receiptGasUsed : Z;
}.

(** An element of [issueBatch]'s [results]. *)
Record ChainResult := mkChainResult {
  index : nat;
  resultCertId : option string;
  status : string;
  txHash : option string;
  blockNumber : option Z;
  gasUsed : option Z;
  error : option string;
}.

(** The progress descriptor [{ phase, current, total, percent, ... }]. *)
Record Progress := mkProgress {
  phase : string;
  current : nat;
  total : nat;
  percent : Z;
  progressSucceeded : option nat;
  progressFailed : option nat;
  progressSent : option nat;
}.

(** What [issueBatch] returns. *)
Record BatchResult := mkBatchResult {
  results : list ChainResult;
  succeeded : nat;
  failed : nat;
  batchTotal : nat;
}.

(** What the body of the [try] in [bulkGeneratePDFs] produces. *)
Record PdfFile := mkPdfFile {
  pdfPath : string;
  pdfName : string;
  pdfBytes : Buffer;
}.

(** An element of [bulkGeneratePDFs]'s [results]. *)
Record PdfResult := mkPdfResult {
  pdfCertId : option string;
  pdfFilePath : option string;
  pdfFileName : option string;
  pdfSize : option nat;
  pdfBuffer : option Buffer;
  pdfStatus : string;
  pdfError : option string;
}.

(** The [metadata] argument of [uploadBuffer]. *)
Record PinMetadata := mkPinMetadata {
  metaCertId : option string;
  metaType : string;
  metaDocumentHash : string;
}.

(** What [uploadBuffer] returns. *)
Record IpfsResult := mkIpfsResult {
  resIpfsHash : string;
  resPinned : bool;
  resGateway : option string;
}.

(** What [saveQRToFile] returns. *)
Record QrFile := mkQrFile {
  qrPath : string;
  qrName : string;
  qrBytes : nat;
}.

(** An element of [bulkGenerateQR]'s [results]. *)
Record QrResult := mkQrResult {
  qrCertId : option string;
  qrFilePath : option string;
  qrFileName : option string;
  qrSize : option nat;
  qrStatus : string;
  qrError : option string;
}.

(** An element of [emailJobs]. *)
Record EmailJob := mkEmailJob {
  mailTo : option string;
  mailStudentName : option string;
  mailCertId : option string;
  mailDegree : option string;
  mailInstitution : option string;
  mailIssueDate : option IssueDate;
  mailPdfBuffer : option Buffer;
  mailPdfFileName : option string;
}.

(** What [sendCertificateEmail] resolves to. *)
Record EmailResult := mkEmailResult {
  sent : bool;
  mailError : option string;
}.

(** What [bulkSendEmails] returns. *)
Record EmailSummary := mkEmailSummary {
  mailResults : list (nat * option string * EmailResult);
  mailsSent : nat;
  mailsFailed : nat;
  mailsTotal : nat;
}.

(** One entry of [job.results]. *)
Record ChainOutcome := mkChainOutcome {
  outStatus : string;
  outTxHash : option string;
  outBlockNumber : option Z;
  outGasUsed : option Z;
  outError : option string;
}.

Record PdfOutcome := mkPdfOutcome {
  outPdfStatus : string;
  outPdfFileName : option string;
  outPdfFilePath : option string;
}.

Record IpfsOutcome := mkIpfsOutcome {
  outHash : option string;
  outDocumentHash : option string;
  outPinned : bool;
  outGateway : option string;
}.

Record QrOutcome := mkQrOutcome {
  outQrStatus : string;
  outQrFileName : option string;
}.

Record ResultEntry := mkResultEntry {
  entryRow : option nat;
  entryCertId : option string;
  entryStudentName : option string;
  entryStudentId : option string;
  entryDegree : option string;
  entryInstitution : option string;
  entryIssueDate : option IssueDate;
  entryEmail : option string;
  blockchain : ChainOutcome;
  pdf : PdfOutcome;
  ipfs : IpfsOutcome;
  qr : QrOutcome;
}.

Record Summary := mkSummary {
  summaryTotal : nat;
  blockchainSuccess : nat;
  blockchainFailed : nat;
  pdfsGenerated : nat;
  qrCodesGenerated : nat;
  emailsSent : nat;
  emailsFailed : nat;
}.

(** A job of the in-memory job store. *)
Record Job := mkJob {
  jobId : string;
  jobStatus : string;
  filePath : option string;
  fileName : option string;
  records : list Cert;
  jobInvalid : list Cert;
  createdAt : string;
  progress : option Progress;
  jobResults : option (list ResultEntry);
  completedAt : option string;
  summary : option Summary;
  jobError : option string;
}.

Definition set_jobStatus (v : string) (j : Job) : Job :=
  mkJob (jobId j) v (filePath j) (fileName j) (records j) (jobInvalid j)
    (createdAt j) (progress j) (jobResults j) (completedAt j) (summary j)
    (jobError j).

Definition set_records (v : list Cert) (j : Job) : Job :=
  mkJob (jobId j) (jobStatus j) (filePath j) (fileName j) v (jobInvalid j)
    (createdAt j) (progress j) (jobResults j) (completedAt j) (summary j)
    (jobError j).

Definition set_progress (v : Progress) (j : Job) : Job :=
  mkJob (jobId j) (jobStatus j) (filePath j) (fileName j) (records j)
    (jobInvalid j) (createdAt j) (Some v) (jobResults j) (completedAt j)
    (summary j) (jobError j).

Definition set_jobResults (v : list ResultEntry) (j : Job) : Job :=
  mkJob (jobId j) (jobStatus j) (filePath j) (fileName j) (records j)
    (jobInvalid j) (createdAt j) (progress j) (Some v) (completedAt j)
    (summary j) (jobError j).

Definition set_completedAt (v : string) (j : Job) : Job :=
  mkJob (jobId j) (jobStatus j) (filePath j) (fileName j) (records j)
    (jobInvalid j) (createdAt j) (progress j) (jobResults j) (Some v)
    (summary j) (jobError j).

Definition set_summary (v : Summary) (j : Job) : Job :=
  mkJob (jobId j) (jobStatus j) (filePath j) (fileName j) (records j)
    (jobInvalid j) (createdAt j) (progress j) (jobResults j) (completedAt j)
    (Some v) (jobError j).

Definition set_jobError (v : string) (j : Job) : Job :=
  mkJob (jobId j) (jobStatus j) (filePath j) (fileName j) (records j)
    (jobInvalid j) (createdAt j) (progress j) (jobResults j) (completedAt j)
    (summary j) (Some v).

(* ===================================================================== *)
(** ** The external collaborators                                         *)
(* ===================================================================== *)

(** Every call that leaves the process. The world [World] stands for the
    RPC node, the clock, the random generator, the browser, the file
    system and the mail server; an operation returns its answer and the
    world after the call. *)
Class Services (World : Type) := {
  (** [new Date(s).getTime()], [None] for [NaN] *)
  parseDate : string -> option Z;
  (** [Math.round((a / b) * 100)] in double arithmetic *)
  roundPercent : nat -> nat -> Z;
  (** [contract.getTotalCertificates()] *)
  getTotalCertificates : World -> Outcome Z * World;
  (** [new Date().getFullYear()] *)
  getFullYear : World -> Z * World;
  (** [Math.random().toString(36)] *)
  randomBase36 : World -> string * World;
  (** [new Date().toISOString()] and [uuidv4()] *)
  nowISO : World -> string * World;
  uuidv4 : World -> string * World;
  (** [signer.getNonce("pending")] *)
  getNonce : World -> Outcome Z * World;
  (** [contract.issueCertificate(..., { nonce })]: returns once the node
      has accepted the transaction, throws if it never was *)
  sendIssue : IssueCall -> Z -> World -> Outcome Tx * World;
  (** [tx.wait()] *)
  waitTx : Tx -> World -> Outcome Receipt * World;
  (** [puppeteer.launch(...)] and [browser.close()] *)
  launchBrowser : World -> Outcome unit * World;
  closeBrowser : World -> Outcome unit * World;
  (** render, print and write one certificate: the body of the [try] in
      the loop of [bulkGeneratePDFs] *)
  renderPdf : string -> Cert -> World -> Outcome PdfFile * World;
  (** [isPinataConfigured()], the SHA-256 hex digest, the gateway and the
      Pinata pinning request of [uploadBuffer] *)
  isPinataConfigured : bool;
  sha256Hex : Buffer -> string;
  pinataGateway : string;
  pinFileToIPFS :
    Buffer -> option string -> PinMetadata -> World -> Outcome string * World;
  (** [saveQRToFile(certId, { width, fileName })] *)
  saveQRToFile : option string -> string -> World -> Outcome QrFile * World;
  (** [emailService.isEmailConfigured()] and [sendCertificateEmail(job)] *)
  isEmailConfigured : bool;
  sendCertificateEmail : EmailJob -> World -> Outcome EmailResult * World;
  (** [fs.existsSync(p)] followed by [fs.unlinkSync(p)] *)
  removeUpload : string -> World -> Outcome unit * World;
}.

(** The collaborators of the upload endpoint: the file parser and the
    file system. *)
Class FileServices (World : Type) := {
  (** [await parseFile(filePath)]: the normalised rows of the file, or the
      rejection of the parser *)
  parseFile : string -> World -> Outcome (list Cert) * World;
  (** [fs.unlinkSync(p)] *)
  unlinkSync : string -> World -> Outcome unit * World;
}.

(** The heap a pipeline run works on: the outside world and the job
    object, which the job store and the pipeline share. *)
Record Heap (World : Type) := mkHeap {
  world : World;
  job : Job;
}.

Arguments mkHeap {World} world job.
Arguments world {World} h.
Arguments job {World} h.

Section Lifting.

Context {World : Type}.

(** A call to a collaborator that may throw. *)
Definition call {A} (op : World -> Outcome A * World) : M (Heap World) A :=
  fun h => let (r, w) := op (world h) in (r, mkHeap w (job h)).

(** A call to a collaborator that cannot throw. *)
Definition ask {A} (op : World -> A * World) : M (Heap World) A :=
  fun h => let (a, w) := op (world h) in (Ok a, mkHeap w (job h)).

(** [job.f = v] *)
Definition updateJob (f : Job -> Job) : M (Heap World) unit :=
  modify (fun h => mkHeap (world h) (f (job h))).

(** [certs[i].f = v] on the shared array [job.records]. *)
Definition updateCert (i : nat) (f : Cert -> Cert) : M (Heap World) unit :=
  updateJob (fun j => set_records (alter f i (records j)) j).

End Lifting.

(** Local variables of an [async] function: the computation runs over the
    heap paired with the record [L] of its [let] bindings, so that an
    assignment made inside a [try] is still there in the [catch]. *)
Section Locals.

Context {World L : Type}.

Definition onHeap {A} (m : M (Heap World) A) : M (Heap World * L) A :=
  fun s => let (r, h) := m (fst s) in (r, (h, snd s)).

Definition readLocal {A} (f : L -> A) : M (Heap World * L) A :=
  gets (fun s => f (snd s)).

Definition assign (f : L -> L) : M (Heap World * L) unit :=
  modify (fun s => (fst s, f (snd s))).

Definition withLocals {A} (init : L) (m : M (Heap World * L) A)
  : M (Heap World) A :=
  fun h => let (r, s) := m (h, init) in (r, fst s).

End Locals.

(* ===================================================================== *)
(** ** services/blockchainService.js                                      *)
(* ===================================================================== *)

Module BlockchainService.

(** [Math.random().toString(36).substring(2, 5).toUpperCase()] *)
Definition randomSuffix (rand : string) : string :=
  Js.toUpperCase (Js.substring 2 5 rand).

(** [String(Number(count) + 1).padStart(3, "0")]; [Number(count)] is
    exact for counts below 2^53. *)
Definition sequenceText (count : Z) : string :=
  Js.padStart 3 "0" (pretty (count + 1)%Z).

(** The template literal of [generateCertificateId]. *)
Definition formatCertificateId (count year : Z) (rand : string) : string :=
  "CERT-" +:+ pretty year +:+ "-" +:+ sequenceText count +:+ "-"
  +:+ randomSuffix rand.

(** The local variables of [issueBatch]. *)
Record Locals := mkLocals {
  locResults : list ChainResult;
  locSucceeded : nat;
  locFailed : nat;
  nonce : Z;
}.

Definition pushResult (r : ChainResult) (l : Locals) : Locals :=
  mkLocals (locResults l ++ [r]) (locSucceeded l) (locFailed l) (nonce l).

Definition incSucceeded (l : Locals) : Locals :=
  mkLocals (locResults l) (S (locSucceeded l)) (locFailed l) (nonce l).

Definition incFailed (l : Locals) : Locals :=
  mkLocals (locResults l) (locSucceeded l) (S (locFailed l)) (nonce l).

Definition incNonce (l : Locals) : Locals :=
  mkLocals (locResults l) (locSucceeded l) (locFailed l) (nonce l + 1)%Z.

Definition setNonce (n : Z) (l : Locals) : Locals :=
  mkLocals (locResults l) (locSucceeded l) (locFailed l) n.

(** [err.reason || err.message] *)
Definition errorText (e : JsError) : string :=
  if Js.truthy (errReason e) then Js.orEmpty (errReason e)
  else errMessage e.

Definition successResult (i : nat) (cert : Cert) (tx : Tx) (r : Receipt)
  : ChainResult :=
  mkChainResult i (certId cert) "success" (Some (hash tx))
    (Some (receiptBlockNumber r)) (Some (receiptGasUsed r)) None.

Definition failedResult (i : nat) (cert : Cert) (e : JsError)
  : ChainResult :=
  mkChainResult i (certId cert) "failed" None None None
    (Some (errorText e)).

Section WithServices.

Context {World : Type} `{Services World}.

Local Abbreviation Async := (M (Heap World)).
Local Abbreviation Body := (M (Heap World * Locals)).

Definition generateCertificateId : Async string :=
  do count <- call getTotalCertificates;
  do year <- ask getFullYear;
  do rand <- ask randomBase36;
  ret (formatCertificateId count year rand).

(** [typeof d === "number" ? d : Math.floor(new Date(d).getTime() / 1000)],
    [None] for [NaN]. *)
Definition timestampOf (d : option IssueDate) : option Z :=
  match d with
  | Some (DateNumber n) => Some n
  | Some (DateString s) => (fun ms => ms / 1000)%Z <$> parseDate s
  | None => None
  end.

Definition issueCallOf (cert : Cert) : IssueCall :=
  mkIssueCall (certId cert) (studentName cert) (studentId cert)
    (degree cert) (institution cert) (timestampOf (issueDate cert))
    (Js.orEmpty (ipfsHash cert)).

(** The [try] block of the loop body. *)
Definition tryIssue (i : nat) (cert : Cert) : Body unit :=
  do n <- readLocal nonce;
  do tx <- onHeap (call (sendIssue (issueCallOf cert) n));
  assign incNonce;;
  do receipt <- onHeap (call (waitTx tx));
  assign incSucceeded;;
  assign (pushResult (successResult i cert tx receipt)).

(** The [catch] block of the loop body. *)
Definition catchIssue (i : nat) (cert : Cert) (err : JsError)
  : Body unit :=
  assign incFailed;;
  assign (pushResult (failedResult i cert err));;
  tryCatch
    (do n <- onHeap (call getNonce); assign (setNonce n))
    (fun _ => ret tt).

(** The argument of [onProgress] after record [i] of [total]. *)
Definition batchProgress (i total : nat) (l : Locals) : Progress :=
  mkProgress "" (i + 1) total (roundPercent (i + 1) total)
    (Some (locSucceeded l)) (Some (locFailed l)) None.

Definition reportProgress (onProgress : option (Progress -> Async unit))
    (i total : nat) : Body unit :=
  match onProgress with
  | Some cb => do l <- readLocal id; onHeap (cb (batchProgress i total l))
  | None => ret tt
  end.

(** One iteration of the [for] loop of [issueBatch]. *)
Definition issueStep (onProgress : option (Progress -> Async unit))
    (total i : nat) (cert : Cert) : Body unit :=
  tryCatch (tryIssue i cert) (catchIssue i cert);;
  reportProgress onProgress i total.

Fixpoint issueLoop (onProgress : option (Progress -> Async unit))
    (total i : nat) (certs : list Cert) : Body unit :=
  match certs with
  | [] => ret tt
  | cert :: rest =>
      issueStep onProgress total i cert;;
      issueLoop onProgress total (S i) rest
  end.

(** [issueBatch] up to the end of its loop, returning the local
    variables (the nonce cursor among them) as the loop leaves them. The
    signer and the contract object are built before the first call;
    [getNonce] stands for that preamble together with
    [signer.getNonce("pending")], and a failure there rejects the whole
    batch. [certificates] is only read, so the array is passed by value. *)
Definition issueBatchLocals (certificates : list Cert)
    (onProgress : option (Progress -> Async unit)) : Async Locals :=
  do nonce0 <- call getNonce;
  withLocals (mkLocals [] 0 0 nonce0)
    (issueLoop onProgress (length certificates) 0 certificates;;
     readLocal id).

Definition issueBatch (certificates : list Cert)
    (onProgress : option (Progress -> Async unit)) : Async BatchResult :=
  do l <- issueBatchLocals certificates onProgress;
  ret (mkBatchResult (locResults l) (locSucceeded l) (locFailed l)
         (length certificates)).

(** *** Observing a run

    What the network did with one record: it never accepted the
    submission, or accepted it and the wait failed, or accepted and
    confirmed it. [pendingView] is the answer that the node gives to
    [getNonce("pending")] right after a failure ([None] when that
    call itself fails, or after a confirmation, when it is not
    asked). These functions observe the services; they are not part
    of [issueBatch]. *)
Inductive Fate := Rejected | Reverted | Confirmed.

Record Event := mkEvent {
  cursorBefore : Z;
  fate : Fate;
  pendingView : option Z;
}.

Definition viewAfter (w : World) : option Z :=
  match getNonce w with
  | (Ok n, _) => Some n
  | (Throw _, _) => None
  end.

Definition observe (cert : Cert) (n : Z) (w : World) : Event :=
  match sendIssue (issueCallOf cert) n w with
  | (Throw _, w1) => mkEvent n Rejected (viewAfter w1)
  | (Ok tx, w1) =>
      match waitTx tx w1 with
      | (Throw _, w2) => mkEvent n Reverted (viewAfter w2)
      | (Ok _, _) => mkEvent n Confirmed None
      end
  end.

Definition accepted (e : Event) : bool :=
  match fate e with
  | Rejected => false
  | _ => true
  end.

(** The events of the loop started in state [s], one per record. *)
Fixpoint trace (onProgress : option (Progress -> Async unit))
    (total i : nat) (certs : list Cert) (s : Heap World * Locals)
  : list Event :=
  match certs with
  | [] => []
  | cert :: rest =>
      observe cert (nonce (snd s)) (world (fst s))
      :: trace onProgress total (S i) rest
           (snd (issueStep onProgress total i cert s))
  end.

(** The events of a whole [issueBatch] run from heap [h]. *)
Definition batchTrace (certificates : list Cert)
    (onProgress : option (Progress -> Async unit)) (h : Heap World)
  : list Event :=
  match call getNonce h with
  | (Ok nonce0, h0) =>
      trace onProgress (length certificates) 0 certificates
        (h0, mkLocals [] 0 0 nonce0)
  | (Throw _, _) => []
  end.

Definition acceptedCount (events : list Event) : nat :=
  length (filter (fun e => accepted e = true) events).

End WithServices.

End BlockchainService.

(* ===================================================================== *)
(** ** services/pdfService.js, ipfsService.js, qrService.js, emailService.js *)
(* ===================================================================== *)

(** [`${v}`] for a string or [undefined]. *)
Definition interpolate (v : option string) : string :=
  match v with
  | Some s => s
  | None => "undefined"
  end.

Module PdfService.

Definition pdfSuccess (cert : Cert) (f : PdfFile) : PdfResult :=
  mkPdfResult (certId cert) (Some (pdfPath f)) (Some (pdfName f))
    (Some (length (pdfBytes f))) (Some (pdfBytes f)) "success" None.

Definition pdfFailure (cert : Cert) (err : JsError) : PdfResult :=
  mkPdfResult (certId cert) None None None None "failed"
    (Some (errMessage err)).

Section WithServices.

Context {World : Type} `{Services World}.

Local Abbreviation Async := (M (Heap World)).

Definition pdfProgress (i total : nat) : Progress :=
  mkProgress "" (i + 1) total (roundPercent (i + 1) total) None None None.

(** The [for] loop of [bulkGeneratePDFs]; [acc] is [results]. *)
Fixpoint pdfLoop (templateName : string)
    (onProgress : option (Progress -> Async unit)) (total i : nat)
    (certs : list Cert) (acc : list PdfResult) : Async (list PdfResult) :=
  match certs with
  | [] => ret acc
  | cert :: rest =>
      do r <- tryCatch
                (do f <- call (renderPdf templateName cert);
                 ret (pdfSuccess cert f))
                (fun err => ret (pdfFailure cert err));
      (match onProgress with
       | Some cb => cb (pdfProgress i total)
       | None => ret tt
       end);;
      pdfLoop templateName onProgress total (S i) rest (acc ++ [r])
  end.

(** A failing [puppeteer.launch] leaves [browser] undefined, so that the
    [finally] block closes nothing. *)
Definition bulkGeneratePDFs (templateName : string) (certificates : list Cert)
    (onProgress : option (Progress -> Async unit)) : Async (list PdfResult) :=
  call launchBrowser;;
  tryFinally
    (pdfLoop templateName onProgress (length certificates) 0 certificates [])
    (call closeBrowser).

End WithServices.

End PdfService.

Module IpfsService.

Section WithServices.

Context {World : Type} `{Services World}.

Local Abbreviation Async := (M (Heap World)).

(** [ipfsService.computeContentHash(buffer)]. The module exports
    [uploadBuffer], [uploadFile], [uploadJSON], [getGatewayUrl] and
    [isPinataConfigured] and nothing else, so the callee is [undefined]
    and the call throws a [TypeError] before anything is computed. *)
Definition computeContentHash (buffer : Buffer) : Async string :=
  throw (typeError "ipfsService.computeContentHash is not a function").

(** [hash.slice(0, 44)] *)
Definition slice44 (s : string) : string := String.substring 0 44 s.

Definition uploadBuffer (buffer : Buffer) (fileName : option string)
    (metadata : PinMetadata) : Async IpfsResult :=
  if negb isPinataConfigured
  then ret (mkIpfsResult ("Qm" +:+ slice44 (sha256Hex buffer)) false None)
  else
    do cid <- call (pinFileToIPFS buffer fileName metadata);
    ret (mkIpfsResult cid true (Some (pinataGateway +:+ "/ipfs/" +:+ cid))).

End WithServices.

End IpfsService.

Module QrService.

Definition qrSuccess (cert : Cert) (f : QrFile) : QrResult :=
  mkQrResult (certId cert) (Some (qrPath f)) (Some (qrName f))
    (Some (qrBytes f)) "success" None.

Definition qrFailure (cert : Cert) (err : JsError) : QrResult :=
  mkQrResult (certId cert) None None None "failed" (Some (errMessage err)).

Section WithServices.

Context {World : Type} `{Services World}.

Local Abbreviation Async := (M (Heap World)).

(** [bulkGenerateQR(certificates)] with the default [options]. *)
Fixpoint qrLoop (certs : list Cert) (acc : list QrResult)
  : Async (list QrResult) :=
  match certs with
  | [] => ret acc
  | cert :: rest =>
      do r <- tryCatch
                (do saved <- call (saveQRToFile (certId cert)
                                     (interpolate (certId cert) +:+ ".png"));
                 ret (qrSuccess cert saved))
                (fun err => ret (qrFailure cert err));
      qrLoop rest (acc ++ [r])
  end.

Definition bulkGenerateQR (certificates : list Cert) : Async (list QrResult) :=
  qrLoop certificates [].

End WithServices.

End QrService.

Module EmailService.

Section WithServices.

Context {World : Type} `{Services World}.

Local Abbreviation Async := (M (Heap World)).

Definition mailProgress (i total nsent nfailed : nat) : Progress :=
  mkProgress "" (i + 1) total (roundPercent (i + 1) total) None
    (Some nfailed) (Some nsent).

(** The loop of [bulkSendEmails]; the pause between two mails is not
    modelled. *)
Fixpoint mailLoop (onProgress : option (Progress -> Async unit))
    (total i : nat) (jobs : list EmailJob) (acc : EmailSummary)
  : Async EmailSummary :=
  match jobs with
  | [] => ret acc
  | j :: rest =>
      do result <- call (sendCertificateEmail j);
      let acc' :=
        mkEmailSummary
          (mailResults acc ++ [(i, mailCertId j, result)])
          (if sent result then S (mailsSent acc) else mailsSent acc)
          (if sent result then mailsFailed acc else S (mailsFailed acc))
          total in
      (match onProgress with
       | Some cb =>
           cb (mailProgress i total (mailsSent acc') (mailsFailed acc'))
       | None => ret tt
       end);;
      mailLoop onProgress total (S i) rest acc'
  end.

Definition bulkSendEmails (emailJobs : list EmailJob)
    (onProgress : option (Progress -> Async unit)) : Async EmailSummary :=
  mailLoop onProgress (length emailJobs) 0 emailJobs
    (mkEmailSummary [] 0 0 (length emailJobs)).

End WithServices.

End EmailService.

(* ===================================================================== *)
(** ** controllers/bulkController.js                                      *)
(* ===================================================================== *)

Module BulkController.

(** [v || null] on the values that the result entries hold. *)
Definition strOrNull (v : option string) : option string :=
  if Js.truthy v then v else None.

Definition numOrNull (v : option Z) : option Z :=
  match v with
  | Some 0%Z => None
  | _ => v
  end.

(** [v || fallback] *)
Definition strOr (v : option string) (fallback : string) : string :=
  if Js.truthy v then Js.orEmpty v else fallback.

(** [{ phase: name, ...p }] *)
Definition withPhase (name : string) (p : Progress) : Progress :=
  mkProgress name (current p) (total p) (percent p) (progressSucceeded p)
    (progressFailed p) (progressSent p).

(** [array.filter((c, i) => keep c i)] *)
Fixpoint filterIndexed {A} (keep : A -> nat -> bool) (i : nat) (l : list A)
  : list A :=
  match l with
  | [] => []
  | x :: rest =>
      if keep x i then x :: filterIndexed keep (S i) rest
      else filterIndexed keep (S i) rest
  end.

(** [array.find(pred)] *)
Fixpoint find {A} (pred : A -> bool) (l : list A) : option A :=
  match l with
  | [] => None
  | x :: rest => if pred x then Some x else find pred rest
  end.

(** [a === b] on values that are strings or [undefined]. *)
Definition strictEq (a b : option string) : bool := bool_decide (a = b).

(** [blockchainResults.results[i]?.status === "success"] *)
Definition chainSucceeded (chain : list ChainResult) (i : nat) : bool :=
  match chain !! i with
  | Some r => String.eqb (status r) "success"
  | None => false
  end.

(** The object pushed to [results] for record [i]. *)
Definition compileEntry (cert : Cert) (bcResult : option ChainResult)
    (pdfResult : option PdfResult) (qrResult : option QrResult)
  : ResultEntry :=
  mkResultEntry
    (_row cert) (certId cert) (studentName cert) (studentId cert)
    (degree cert) (institution cert) (issueDate cert)
    (strOrNull (email cert))
    (mkChainOutcome
       (strOr (status <$> bcResult) "skipped")
       (strOrNull (bcResult ≫= txHash))
       (numOrNull (bcResult ≫= blockNumber))
       (numOrNull (bcResult ≫= gasUsed))
       (strOrNull (bcResult ≫= error)))
    (mkPdfOutcome
       (strOr (pdfStatus <$> pdfResult) "skipped")
       (strOrNull (pdfResult ≫= pdfFileName))
       (strOrNull (pdfResult ≫= pdfFilePath)))
    (mkIpfsOutcome
       (strOrNull (ipfsHash cert))
       (strOrNull (documentHash cert))
       (default false (ipfsPinned cert))
       (strOrNull (default None (ipfsGateway cert))))
    (mkQrOutcome
       (strOr (qrStatus <$> qrResult) "skipped")
       (strOrNull (qrResult ≫= qrFileName))).

(** The final loop of [processPipeline]. *)
Fixpoint compileResults (certs : list Cert) (i : nat)
    (chain : list ChainResult) (pdfResults : list PdfResult)
    (qrResults : list QrResult) : list ResultEntry :=
  match certs with
  | [] => []
  | cert :: rest =>
      compileEntry cert (chain !! i) (pdfResults !! i)
        (find (fun q => strictEq (qrCertId q) (certId cert)) qrResults)
      :: compileResults rest (S i) chain pdfResults qrResults
  end.

Definition countStatus {A} (st : A -> string) (l : list A) : nat :=
  length (filter (fun x => st x = "success") l).

Section WithServices.

Context {World : Type} `{Services World}.

Local Abbreviation Async := (M (Heap World)).

Definition setProgress (name : string) (cur tot : nat) (pct : Z)
  : Async unit :=
  updateJob (set_progress (mkProgress name cur tot pct None None None)).

(** [certs[i]]; dereferencing it past the end is a [TypeError]. *)
Definition readCert (i : nat) : Async Cert :=
  do certs <- gets (fun h => records (job h));
  match certs !! i with
  | Some cert => ret cert
  | None => throw (typeError "Cannot read properties of undefined")
  end.

(** PHASE 1: the loop that generates certificate IDs, from index [i] for
    [n] records. *)
Fixpoint generateIds (n i : nat) : Async unit :=
  match n with
  | O => ret tt
  | S n' =>
      do cert <- readCert i;
      (if Js.falsy (certId cert)
       then do newId <- BlockchainService.generateCertificateId;
            updateCert i (set_certId newId)
       else ret tt);;
      generateIds n' (S i)
  end.

Definition phaseIds : Async unit :=
  do n <- gets (fun h => length (records (job h)));
  setProgress "generating_ids" 0 n 0;;
  generateIds n 0.

(** PHASE 3: the [try] and [catch] blocks of the upload loop. *)
Definition tryStore (i : nat) (buffer : Buffer) (pdfResult : PdfResult)
  : Async unit :=
  do docHash <- IpfsService.computeContentHash buffer;
  updateCert i (set_documentHash docHash);;
  do cert <- readCert i;
  do ipfsResult <- IpfsService.uploadBuffer buffer (pdfFileName pdfResult)
                     (mkPinMetadata (certId cert) "certificate" docHash);
  updateCert i (set_ipfsHash (resIpfsHash ipfsResult));;
  updateCert i (set_ipfsPinned (resPinned ipfsResult));;
  updateCert i (set_ipfsGateway (resGateway ipfsResult)).

Definition catchStore (i : nat) (err : JsError) : Async unit :=
  updateCert i (set_ipfsHash "");;
  updateCert i (set_ipfsError (errMessage err)).

Definition storeStep (pdfResults : list PdfResult) (n i : nat) : Async unit :=
  do pdfResult <-
    match pdfResults !! i with
    | Some p => ret p
    | None => throw (typeError "Cannot read properties of undefined")
    end;
  (match pdfBuffer pdfResult with
   | Some buffer =>
       if String.eqb (pdfStatus pdfResult) "success"
       then tryCatch (tryStore i buffer pdfResult) (catchStore i)
       else ret tt
   | None => ret tt
   end);;
  setProgress "uploading_ipfs" (i + 1) n (roundPercent (i + 1) n).

Fixpoint storeLoop (pdfResults : list PdfResult) (total n i : nat)
  : Async unit :=
  match n with
  | O => ret tt
  | S n' =>
      storeStep pdfResults total i;;
      storeLoop pdfResults total n' (S i)
  end.

(** PHASE 6: the jobs handed to [bulkSendEmails]. *)
Definition emailJobOf (pdfResults : list PdfResult) (c : Cert) : EmailJob :=
  let pdfOf := find (fun p => strictEq (pdfCertId p) (certId c)) pdfResults in
  mkEmailJob (email c) (studentName c) (certId c) (degree c) (institution c)
    (issueDate c) (pdfOf ≫= pdfBuffer) (pdfOf ≫= pdfFileName).

Definition phaseEmails (sendEmails : bool) (successfulCerts : list Cert)
    (pdfResults : list PdfResult) : Async (option EmailSummary) :=
  if sendEmails && isEmailConfigured
  then
    setProgress "sending_emails" 0 (length successfulCerts) 0;;
    let emailJobs :=
      emailJobOf pdfResults
        <$> List.filter (fun c => Js.truthy (email c)) successfulCerts in
    do r <- EmailService.bulkSendEmails emailJobs
              (Some (fun p =>
                       updateJob (set_progress (withPhase "sending_emails" p))));
    ret (Some r)
  else ret None.

(** Removing the uploaded file; a failure is swallowed. *)
Definition cleanUp : Async unit :=
  do path <- gets (fun h => filePath (job h));
  if Js.truthy path
  then tryCatch (call (removeUpload (Js.orEmpty path))) (fun _ => ret tt)
  else ret tt.

(** The end of [processPipeline]: the job is updated with the compiled
    results and the uploaded file is removed. *)
Definition finishJob (n : nat) (compiled : list ResultEntry)
    (jobSummary : Summary) : Async unit :=
  updateJob (set_jobStatus "completed");;
  updateJob (set_jobResults compiled);;
  do stamp <- ask nowISO;
  updateJob (set_completedAt stamp);;
  updateJob (set_summary jobSummary);;
  setProgress "completed" n n 100;;
  cleanUp.

Definition processPipeline (templateName : string) (sendEmails : bool)
  : Async unit :=
  (* PHASE 1 *)
  phaseIds;;
  do n <- gets (fun h => length (records (job h)));
  (* PHASE 2 *)
  setProgress "generating_pdfs" 0 n 0;;
  do certs2 <- gets (fun h => records (job h));
  do pdfResults <-
    PdfService.bulkGeneratePDFs templateName certs2
      (Some (fun p => updateJob (set_progress (withPhase "generating_pdfs" p))));
  (* PHASE 3 *)
  setProgress "uploading_ipfs" 0 n 0;;
  storeLoop pdfResults n n 0;;
  (* PHASE 4 *)
  setProgress "blockchain_issuance" 0 n 0;;
  do certs <- gets (fun h => records (job h));
  do blockchainResults <-
    BlockchainService.issueBatch certs
      (Some (fun p =>
               updateJob (set_progress (withPhase "blockchain_issuance" p))));
  (* PHASE 5 *)
  setProgress "generating_qrcodes" 0 n 0;;
  let successfulCerts :=
    filterIndexed (fun _ i => chainSucceeded (results blockchainResults) i)
      0 certs in
  do qrResults <- QrService.bulkGenerateQR successfulCerts;
  (* PHASE 6 *)
  do emailResults <- phaseEmails sendEmails successfulCerts pdfResults;
  (* compile the final results and update the job *)
  finishJob n
    (compileResults certs 0 (results blockchainResults) pdfResults qrResults)
    (mkSummary n (succeeded blockchainResults) (failed blockchainResults)
       (countStatus pdfStatus pdfResults) (countStatus qrStatus qrResults)
       (from_option mailsSent 0 emailResults)
       (from_option mailsFailed 0 emailResults)).

(** The background run started by [processBatch]: the pipeline, and the
    [.catch] that marks the job failed when an exception escapes it. *)
Definition runPipeline (templateName : string) (sendEmails : bool)
    (h : Heap World) : Heap World :=
  match processPipeline templateName sendEmails h with
  | (Ok _, h') => h'
  | (Throw err, h') =>
      mkHeap (world h')
        (set_jobError (errMessage err) (set_jobStatus "failed" (job h')))
  end.

(** The job that [uploadCSV] stores for a validated upload. *)
Definition newJob (id path name stamp : string)
    (validation : Validator.BatchValidation) : Job :=
  mkJob id "validated" (Some path) (Some name)
    (Validator.batchValid validation) (Validator.batchInvalid validation)
    stamp None None None None None.

(** The body of the response of [getJobStatus] for a job that exists. *)
Record StatusResponse := mkStatusResponse {
  respJobId : string;
  respStatus : string;
  respFileName : option string;
  respTotalRecords : nat;
  respCreatedAt : string;
  respProgress : option Progress;
  respCompletedAt : option string;
  respSummary : option Summary;
  respResults : option (list ResultEntry);
  respError : option string;
}.

Definition statusOf (j : Job) : StatusResponse :=
  let done := String.eqb (jobStatus j) "completed" in
  mkStatusResponse (jobId j) (jobStatus j) (fileName j)
    (length (records j)) (createdAt j) (progress j)
    (if done then completedAt j else None)
    (if done then summary j else None)
    (if done then jobResults j else None)
    (if String.eqb (jobStatus j) "failed" then jobError j else None).

(** [getJobStatus]: [None] is the 404 answer. *)
Definition getJobStatus (jobs : gmap string Job) (id : string)
  : option StatusResponse :=
  statusOf <$> jobs !! id.

(** What [processBatch] answers: an error with its HTTP status, or the
    acknowledgement that processing has started. *)
Inductive ProcessResponse :=
| ProcessRejected (code : nat) (reason : string)
| ProcessStarted (id : string) (totalRecords : nat).

(** The job as [processBatch] marks it before the pipeline starts. *)
Definition startJob (j : Job) : Job :=
  set_progress (mkProgress "starting" 0 (length (records j)) 0 None None None)
    (set_jobStatus "processing" j).

(** [processBatch] on the job store, for a request with a body
    ([express.json()] is installed, so [req.body] is an object and the
    destructuring cannot throw). The response is sent before the pipeline
    runs in the background; the store and the world returned here are
    those that the background run leaves when it has ended. *)
Definition processBatch (id : option string) (templateName : string)
    (sendEmails : bool) (jobs : gmap string Job) (w : World)
  : ProcessResponse * gmap string Job * World :=
  if Js.falsy id then (ProcessRejected 400 "jobId is required", jobs, w)
  else
    match jobs !! Js.orEmpty id with
    | None => (ProcessRejected 404 "Job not found", jobs, w)
    | Some j =>
        if String.eqb (jobStatus j) "processing"
        then (ProcessRejected 409 "Job is already being processed", jobs, w)
        else if length (records j) =? 0
        then (ProcessRejected 400 "No valid records to process", jobs, w)
        else
          let h := runPipeline templateName sendEmails
                     (mkHeap w (startJob j)) in
          (ProcessStarted (Js.orEmpty id) (length (records j)),
           <[Js.orEmpty id := job h]> jobs, world h)
    end.

End WithServices.

(** [req.file] as [uploadCSV] reads it. *)
Record UploadedFile := mkUploadedFile {
  uploadPath : string;
  originalname : string;
}.

(** The body of the answer of [uploadCSV] to a validated upload. *)
Record UploadPreview := mkUploadPreview {
  upJobId : string;
  upFileName : string;
  upTotalRows : nat;
  upValidCount : nat;
  upInvalidCount : nat;
  upHasErrors : bool;
  upErrors : list Issue;
  upWarnings : list Issue;
  upPreview : list Cert;
  upInvalidPreview : list Cert;
}.

(** What [uploadCSV] answers: a 400 with its details, a 500, or the
    preview of the stored job. *)
Inductive UploadResponse :=
| UploadRejected (code : nat) (reason : string)
    (absent : option (list string)) (advice : option string)
| UploadFailed (code : nat) (reason : string)
| UploadAccepted (preview : UploadPreview).

(** The job store together with the outside world. *)
Record Server (World : Type) := mkServer {
  jobs : gmap string Job;
  outside : World;
}.

Arguments mkServer {World} jobs outside.
Arguments jobs {World} s.
Arguments outside {World} s.

Section Upload.

Context {World : Type} `{Services World} `{FileServices World}.

Local Abbreviation Handler := (M (Server World)).

Definition callOutside {A} (op : World -> Outcome A * World) : Handler A :=
  fun s => let (r, w) := op (outside s) in (r, mkServer (jobs s) w).

Definition askOutside {A} (op : World -> A * World) : Handler A :=
  fun s => let (a, w) := op (outside s) in (Ok a, mkServer (jobs s) w).

(** [jobs.set(id, j)] *)
Definition storeJob (id : string) (j : Job) : Handler unit :=
  modify (fun s => mkServer (<[id := j]> (jobs s)) (outside s)).

Definition previewOf (id name : string)
    (validation : Validator.BatchValidation) : UploadPreview :=
  mkUploadPreview id name
    (Validator.totalRows validation) (Validator.validCount validation)
    (Validator.invalidCount validation) (Validator.hasErrors validation)
    (take 50 (Validator.batchErrors validation))
    (take 50 (Validator.batchWarnings validation))
    (take 10 (Validator.batchValid validation))
    (take 10 (Validator.batchInvalid validation)).

(** The [try] block of [uploadCSV] for a request that carries a file. *)
Definition tryUpload (file : UploadedFile) : Handler UploadResponse :=
  do parsed <- callOutside (parseFile (uploadPath file));
  let colCheck := Validator.validateColumns parsed in
  if negb (Validator.columnsValid colCheck)
  then
    callOutside (unlinkSync (uploadPath file));;
    ret (UploadRejected 400 "Missing required columns"
           (Some (Validator.missing colCheck)) (Validator.hint colCheck))
  else
    let validation := Validator.validateBatch parseDate parsed in
    do id <- askOutside uuidv4;
    do stamp <- askOutside nowISO;
    storeJob id
      (newJob id (uploadPath file) (originalname file) stamp validation);;
    ret (UploadAccepted (previewOf id (originalname file) validation)).

Definition uploadCSV (file : option UploadedFile) : Handler UploadResponse :=
  match file with
  | None => ret (UploadRejected 400 "No file uploaded" None None)
  | Some f =>
      tryCatch (tryUpload f)
        (fun err => ret (UploadFailed 500 (errMessage err)))
  end.

End Upload.

End BulkController.

(* ===================================================================== *)
(** ** A scripted world                                                   *)
(* ===================================================================== *)

(** A concrete instance of [Services] for running the model: every
    collaborator answers from a list, one answer per call, and fails once
    its list is used up. Pinata is configured, so that [uploadBuffer] is a
    request that can fail. *)
Module Scripted.

Record Script := mkFullScript {
  totalCertificates : Z;
  year : Z;
  randoms : list string;
  nonces : list (Outcome Z);
  sends : list (Outcome Tx);
  waits : list (Outcome Receipt);
  renders : list (Outcome PdfFile);
  qrs : list (Outcome QrFile);
  mails : list (Outcome EmailResult);
  pins : list (Outcome string);
}.

(** A script without answers from the pinning service. *)
Definition mkScript (total yr : Z) (rs : list string)
    (ns : list (Outcome Z)) (ss : list (Outcome Tx))
    (ws : list (Outcome Receipt)) (ps : list (Outcome PdfFile))
    (qs : list (Outcome QrFile)) (ms : list (Outcome EmailResult)) : Script :=
  mkFullScript total yr rs ns ss ws ps qs ms [].

Definition unreachable {A} : Outcome A := Throw (plainError "unreachable").

Definition popNonce (s : Script) : Outcome Z * Script :=
  match nonces s with
  | a :: rest =>
      (a, mkFullScript (totalCertificates s) (year s) (randoms s) rest
            (sends s) (waits s) (renders s) (qrs s) (mails s) (pins s))
  | [] => (unreachable, s)
  end.

Definition popSend (s : Script) : Outcome Tx * Script :=
  match sends s with
  | a :: rest =>
      (a, mkFullScript (totalCertificates s) (year s) (randoms s) (nonces s)
            rest (waits s) (renders s) (qrs s) (mails s) (pins s))
  | [] => (unreachable, s)
  end.

Definition popWait (s : Script) : Outcome Receipt * Script :=
  match waits s with
  | a :: rest =>
      (a, mkFullScript (totalCertificates s) (year s) (randoms s) (nonces s)
            (sends s) rest (renders s) (qrs s) (mails s) (pins s))
  | [] => (unreachable, s)
  end.

Definition popRender (s : Script) : Outcome PdfFile * Script :=
  match renders s with
  | a :: rest =>
      (a, mkFullScript (totalCertificates s) (year s) (randoms s) (nonces s)
            (sends s) (waits s) rest (qrs s) (mails s) (pins s))
  | [] => (unreachable, s)
  end.

Definition popQr (s : Script) : Outcome QrFile * Script :=
  match qrs s with
  | a :: rest =>
      (a, mkFullScript (totalCertificates s) (year s) (randoms s) (nonces s)
            (sends s) (waits s) (renders s) rest (mails s) (pins s))
  | [] => (unreachable, s)
  end.

Definition popMail (s : Script) : Outcome EmailResult * Script :=
  match mails s with
  | a :: rest =>
      (a, mkFullScript (totalCertificates s) (year s) (randoms s) (nonces s)
            (sends s) (waits s) (renders s) (qrs s) rest (pins s))
  | [] => (unreachable, s)
  end.

Definition popPin (s : Script) : Outcome string * Script :=
  match pins s with
  | a :: rest =>
      (a, mkFullScript (totalCertificates s) (year s) (randoms s) (nonces s)
            (sends s) (waits s) (renders s) (qrs s) (mails s) rest)
  | [] => (unreachable, s)
  end.

Definition popRandom (s : Script) : string * Script :=
  match randoms s with
  | a :: rest =>
      (a, mkFullScript (totalCertificates s) (year s) rest (nonces s)
            (sends s) (waits s) (renders s) (qrs s) (mails s) (pins s))
  | [] => ("0", s)
  end.

(** The SHA-256 digest of the empty buffer, which stands for every digest
    in the scripted world. *)
Definition scriptedDigest : string :=
  "e3b0c44298fc1c149afbf4c8996fb92427ae41e4649b934ca495991b7852b855".

(** Dates of the form the sample file uses are accepted, the literal
    [bad] is not. *)
Definition scriptedParseDate (s : string) : option Z :=
  if String.eqb s "bad" then None else Some 1781481600000%Z.

Global Instance services : Services Script := {|
  parseDate := scriptedParseDate;
  roundPercent := fun a b => ((200 * Z.of_nat a + Z.of_nat b)
                              / (2 * Z.of_nat b))%Z;
  getTotalCertificates := fun s => (Ok (totalCertificates s), s);
  getFullYear := fun s => (year s, s);
  randomBase36 := popRandom;
  nowISO := fun s => ("2026-06-15T00:00:00.000Z", s);
  uuidv4 := fun s => ("job-1", s);
  getNonce := popNonce;
  sendIssue := fun _ _ => popSend;
  waitTx := fun _ => popWait;
  launchBrowser := fun s => (Ok tt, s);
  closeBrowser := fun s => (Ok tt, s);
  renderPdf := fun _ _ => popRender;
  isPinataConfigured := true;
  sha256Hex := fun _ => scriptedDigest;
  pinataGateway := "https://gateway.pinata.cloud";
  pinFileToIPFS := fun _ _ _ => popPin;
  saveQRToFile := fun _ _ => popQr;
  isEmailConfigured := false;
  sendCertificateEmail := fun _ => popMail;
  removeUpload := fun _ s => (Ok tt, s);
|}.

(** The same world without a pinning service: [uploadBuffer] falls back
    to the local content hash. *)
Definition offline : Services Script := {|
  parseDate := scriptedParseDate;
  roundPercent := fun a b => ((200 * Z.of_nat a + Z.of_nat b)
                              / (2 * Z.of_nat b))%Z;
  getTotalCertificates := fun s => (Ok (totalCertificates s), s);
  getFullYear := fun s => (year s, s);
  randomBase36 := popRandom;
  nowISO := fun s => ("2026-06-15T00:00:00.000Z", s);
  uuidv4 := fun s => ("job-1", s);
  getNonce := popNonce;
  sendIssue := fun _ _ => popSend;
  waitTx := fun _ => popWait;
  launchBrowser := fun s => (Ok tt, s);
  closeBrowser := fun s => (Ok tt, s);
  renderPdf := fun _ _ => popRender;
  isPinataConfigured := false;
  sha256Hex := fun _ => scriptedDigest;
  pinataGateway := "https://gateway.pinata.cloud";
  pinFileToIPFS := fun _ _ _ => popPin;
  saveQRToFile := fun _ _ => popQr;
  isEmailConfigured := false;
  sendCertificateEmail := fun _ => popMail;
  removeUpload := fun _ s => (Ok tt, s);
|}.

(** The scripted world with a mail server configured. *)
Definition mailing : Services Script := {|
  parseDate := scriptedParseDate;
  roundPercent := fun a b => ((200 * Z.of_nat a + Z.of_nat b)
                              / (2 * Z.of_nat b))%Z;
  getTotalCertificates := fun s => (Ok (totalCertificates s), s);
  getFullYear := fun s => (year s, s);
  randomBase36 := popRandom;
  nowISO := fun s => ("2026-06-15T00:00:00.000Z", s);
  uuidv4 := fun s => ("job-1", s);
  getNonce := popNonce;
  sendIssue := fun _ _ => popSend;
  waitTx := fun _ => popWait;
  launchBrowser := fun s => (Ok tt, s);
  closeBrowser := fun s => (Ok tt, s);
  renderPdf := fun _ _ => popRender;
  isPinataConfigured := true;
  sha256Hex := fun _ => scriptedDigest;
  pinataGateway := "https://gateway.pinata.cloud";
  pinFileToIPFS := fun _ _ _ => popPin;
  saveQRToFile := fun _ _ => popQr;
  isEmailConfigured := true;
  sendCertificateEmail := fun _ => popMail;
  removeUpload := fun _ s => (Ok tt, s);
|}.

(** The rows of the sample file, as the parser normalises them. *)
Definition sampleFile : list CsvParser.RawRow :=
  [[("studentName", "Alice Johnson"); ("studentId", "STU-2026-001");
    ("degree", "Bachelor of Science in Computer Science");
    ("institution", "MIT"); ("issueDate", "2026-06-15");
    ("email", "alice@example.com")];
   [("studentName", "Bob Smith"); ("studentId", "STU-2026-002");
    ("degree", "Master of Business Administration");
    ("institution", "Harvard"); ("issueDate", "bad");
    ("email", "bob@example.com")];
   [("studentName", "Carol Williams"); ("studentId", "STU-2026-003");
    ("degree", "Bachelor of Arts in Economics");
    ("institution", "Stanford"); ("issueDate", "2026-06-15");
    ("email", "carol@example.com")]].

(** A file system with three uploads: the sample file, a file whose
    header lacks the institution and date columns, and a file that the
    parser rejects. *)
Definition scriptedParseFile (path : string) (s : Script)
  : Outcome (list Cert) * Script :=
  if String.eqb path "/up/sample.csv"
  then (Ok (CsvParser.normalizeRow <$> sampleFile), s)
  else if String.eqb path "/up/short.csv"
  then (Ok [CsvParser.normalizeRow
              [("Name", "Alice Johnson"); ("Student ID", "STU-1");
               ("Course", "BSc")]], s)
  else (Throw (plainError "Unsupported file format: .txt. Use CSV or XLSX."),
        s).

Global Instance files : FileServices Script := {|
  parseFile := scriptedParseFile;
  unlinkSync := fun _ s => (Ok tt, s);
|}.

Definition quiet : Script := mkScript 0 2026 [] [] [] [] [] [] [].

Definition sampleRow (name sid mail : string) : Cert :=
  rawRow (Some name) (Some sid) (Some "BSc Computer Science") (Some "MIT")
    (Some "2026-06-15") (Some mail).

Definition samplePdf : PdfFile := mkPdfFile "/out/c.pdf" "c.pdf" [].

Definition sampleQr : QrFile := mkQrFile "/out/c.png" "c.png" 1.

Definition revert (msg : string) : JsError := mkError (Some msg) msg.

End Scripted.

(* ===================================================================== *)
(** ** Vocabulary of the statements                                       *)
(* ===================================================================== *)

(** [m] keeps the state property [I], whether it returns or throws. *)
Definition preserves {St A} (I : St -> Prop) (m : M St A) : Prop :=
  forall s, I s -> I (snd (m s)).

(** The part of a record that comes from the input file. *)
Definition identity (c : Cert)
  : option nat * option string * option string * option string
    * option string * option IssueDate * option string :=
  (_row c, studentName c, studentId c, degree c, institution c,
   issueDate c, email c).

(** The records of the job are those of [certs], up to the fields that the
    pipeline attaches. *)
Definition sameRecords {World} (certs : list Cert) (h : Heap World) : Prop :=
  identity <$> records (job h) = identity <$> certs.

(** A chain result is a success carrying hash, block and gas, or a
    failure carrying a reason, and nothing else. *)
Definition terminalOutcome (r : ChainResult) : Prop :=
  (status r = "success" /\ is_Some (txHash r) /\ is_Some (blockNumber r)
   /\ is_Some (gasUsed r) /\ error r = None)
  \/ (status r = "failed" /\ is_Some (error r) /\ txHash r = None
      /\ blockNumber r = None /\ gasUsed r = None).

(** [s] without its trailing white space, by recursion on [s]; [Js.trim]
    is shown below to be [trimEnd] after [Js.trimStart]. *)
Fixpoint trimEnd (s : string) : string :=
  match s with
  | EmptyString => EmptyString
  | String c s' =>
      let r := trimEnd s' in
      if String.eqb r "" && Js.isWhiteSpace c then EmptyString
      else String c r
  end.

(** [s] does not start with white space. *)
Definition noLead (s : string) : Prop :=
  match s with
  | EmptyString => True
  | String c _ => Js.isWhiteSpace c = false
  end.

(** Every cell of a record is trimmed text. *)
Definition cellsTrimmed (c : Cert) : Prop :=
  (forall v, studentName c = Some v -> Js.trim v = v)
  /\ (forall v, studentId c = Some v -> Js.trim v = v)
  /\ (forall v, degree c = Some v -> Js.trim v = v)
  /\ (forall v, institution c = Some v -> Js.trim v = v)
  /\ (forall d, issueDate c = Some d ->
                exists v, d = DateString v /\ Js.trim v = v)
  /\ (forall v, email c = Some v -> Js.trim v = v).

(** Some column of [row] is read as field [f]. *)
Definition hasColumn (row : CsvParser.RawRow) (f : string) : Prop :=
  exists k v,
    (k, v) ∈ row
    /\ CsvParser.lookupColumn (Js.toLowerCase (Js.trim k)) CsvParser.COLUMN_MAP
       = Some f.

(** Row [ic.1] (counted from 0) of a batch, holding the record [ic.2]:
    whether it passes [validateCertificate], and the record that
    [validateBatch] keeps for it in either case. *)
Definition rowPasses (parseDate : string -> option Z) (ic : nat * Cert)
  : bool :=
  Validator.valid (Validator.validateCertificate parseDate ic.2 ic.1).

Definition rowErrors (parseDate : string -> option Z) (ic : nat * Cert)
  : list Issue :=
  Validator.errors (Validator.validateCertificate parseDate ic.2 ic.1).

Definition asValid (ic : nat * Cert) : Cert := set_row (ic.1 + 1) ic.2.

Definition asInvalid (parseDate : string -> option Z) (ic : nat * Cert)
  : Cert :=
  set_errors (rowErrors parseDate ic) (set_row (ic.1 + 1) ic.2).

(** A property of the record array of the job. *)
Definition onRecords {World} (P : list Cert -> Prop) (h : Heap World) : Prop :=
  P (records (job h)).

(** A QR result of record [c] is a saved file or a failure with its
    message. *)
Definition qrOutcomeOf (c : Cert) (r : QrResult) : Prop :=
  qrCertId r = certId c
  /\ ((qrStatus r = "success" /\ is_Some (qrFileName r)
       /\ is_Some (qrFilePath r) /\ qrError r = None)
      \/ (qrStatus r = "failed" /\ qrFileName r = None
          /\ qrFilePath r = None /\ is_Some (qrError r))).

(** A PDF result of record [c] is a written file with its bytes or a
    failure with its message. *)
Definition pdfOutcomeOf (c : Cert) (r : PdfResult) : Prop :=
  pdfCertId r = certId c
  /\ ((pdfStatus r = "success" /\ is_Some (pdfBuffer r)
       /\ is_Some (pdfFileName r) /\ pdfError r = None)
      \/ (pdfStatus r = "failed" /\ pdfBuffer r = None
          /\ pdfFileName r = None /\ is_Some (pdfError r))).

Section Vocabulary.

Context {World : Type} `{Services World}.

(** The heap after running the identifier phase [n] times in a row,
    whatever each run ends with. *)
Fixpoint rerunIds (n : nat) (h : Heap World) : Heap World :=
  match n with
  | O => h
  | S n' => rerunIds n' (snd (BulkController.phaseIds h))
  end.

(** Every answer that the node gave to [getNonce("pending")] during the
    run was the initial nonce plus the number of submissions it had
    accepted by then; [seen] counts the acceptances before [events]. *)
Fixpoint consistentViews (nonce0 : Z) (seen : nat)
    (events : list BlockchainService.Event) : Prop :=
  match events with
  | [] => True
  | e :: rest =>
      let seen' :=
        if BlockchainService.accepted e then S seen else seen in
      (forall v, BlockchainService.pendingView e = Some v ->
                 v = (nonce0 + Z.of_nat seen')%Z)
      /\ consistentViews nonce0 seen' rest
  end.

(** The cursor that event [k] of a run leaves behind: the cursor that the
    next event starts from, or the final one. *)
Definition cursorAfter (events : list BlockchainService.Event) (k : nat)
    (final : Z) : Z :=
  match events !! S k with
  | Some e => BlockchainService.cursorBefore e
  | None => final
  end.

(** The cursor that the loop body computes from what happened to one
    record: one more after a confirmation; after a failure the node's
    pending view if it answered, else the cursor as the failure left it. *)
Definition nextCursor (e : BlockchainService.Event) : Z :=
  match BlockchainService.fate e with
  | BlockchainService.Confirmed => (BlockchainService.cursorBefore e + 1)%Z
  | BlockchainService.Rejected =>
      default (BlockchainService.cursorBefore e)
        (BlockchainService.pendingView e)
  | BlockchainService.Reverted =>
      default (BlockchainService.cursorBefore e + 1)%Z
        (BlockchainService.pendingView e)
  end.

(** The callback, if there is one, always returns. *)
Definition callbackReturns
    (onProgress : option (Progress -> M (Heap World) unit)) : Prop :=
  match onProgress with
  | Some cb => forall p, neverThrows (cb p)
  | None => True
  end.

(** The heap and the local variables with which the loop of [issueBatch],
    started in state [s] at index [i], reaches record [k] of [certs]. *)
Fixpoint reached (onProgress : option (Progress -> M (Heap World) unit))
    (total i : nat) (certs : list Cert)
    (s : Heap World * BlockchainService.Locals) (k : nat)
  : Heap World * BlockchainService.Locals :=
  match k, certs with
  | S k', cert :: rest =>
      reached onProgress total (S i) rest
        (snd (BlockchainService.issueStep onProgress total i cert s)) k'
  | _, _ => s
  end.

(** [r] reports a failure for the reason [err.reason || err.message] and
    carries no transaction data. *)
Definition failedWith (err : JsError) (r : ChainResult) : Prop :=
  status r = "failed"
  /\ error r = Some (if Js.truthy (errReason err)
                     then Js.orEmpty (errReason err) else errMessage err)
  /\ txHash r = None /\ blockNumber r = None /\ gasUsed r = None.

(** [r] reports what the node does with the submission of [cert] under
    nonce [n] in world [w]: a success with the hash of the transaction
    that the node accepted and the block and gas of its receipt when the
    node accepts and confirms it, else a failure for the reason the node
    gave when it refused the submission or when the wait failed. *)
Definition reportsSubmission (cert : Cert) (n : Z) (w : World)
    (r : ChainResult) : Prop :=
  match sendIssue (BlockchainService.issueCallOf cert) n w with
  | (Ok tx, w1) =>
      match waitTx tx w1 with
      | (Ok receipt, _) =>
          status r = "success"
          /\ txHash r = Some (hash tx)
          /\ blockNumber r = Some (receiptBlockNumber receipt)
          /\ gasUsed r = Some (receiptGasUsed receipt)
          /\ error r = None
      | (Throw err, _) => failedWith err r
      end
  | (Throw err, _) => failedWith err r
  end.

(** The world in which [saveQRToFile] is called for record [k] of
    [certs] when it was called for the records before it, one after the
    other, starting in [w]. *)
Fixpoint qrWorld (certs : list Cert) (w : World) (k : nat) : World :=
  match k, certs with
  | S k', c :: rest =>
      qrWorld rest
        (snd (saveQRToFile (certId c) (interpolate (certId c) +:+ ".png") w))
        k'
  | _, _ => w
  end.

(** [r] reports what [saveQRToFile] does for [c] in world [w]: the path,
    name and size of the file it saved, or the message of the error it
    threw. *)
Definition reportsQr (c : Cert) (w : World) (r : QrResult) : Prop :=
  match saveQRToFile (certId c) (interpolate (certId c) +:+ ".png") w with
  | (Ok f, _) =>
      r = mkQrResult (certId c) (Some (qrPath f)) (Some (qrName f))
            (Some (qrBytes f)) "success" None
  | (Throw err, _) =>
      r = mkQrResult (certId c) None None None "failed"
            (Some (errMessage err))
  end.

(** The heap in which the document of record [k] of [certs] is rendered
    when the documents before it were rendered one after the other, each
    followed by the progress callback, starting in [h] at index [i]. *)
Fixpoint renderHeap (templateName : string)
    (onProgress : option (Progress -> M (Heap World) unit))
    (total i : nat) (certs : list Cert) (h : Heap World) (k : nat)
  : Heap World :=
  match k, certs with
  | S k', c :: rest =>
      let rendered :=
        mkHeap (snd (renderPdf templateName c (world h))) (job h) in
      renderHeap templateName onProgress total (S i) rest
        (match onProgress with
         | Some cb => snd (cb (PdfService.pdfProgress i total) rendered)
         | None => rendered
         end) k'
  | _, _ => h
  end.

(** [r] reports what rendering the document of [c] does in world [w]:
    the path and name of the file written, its size and its bytes, or the
    message of the error thrown. *)
Definition reportsPdf (templateName : string) (c : Cert) (w : World)
    (r : PdfResult) : Prop :=
  match renderPdf templateName c w with
  | (Ok f, _) =>
      r = mkPdfResult (certId c) (Some (pdfPath f)) (Some (pdfName f))
            (Some (length (pdfBytes f))) (Some (pdfBytes f)) "success" None
  | (Throw err, _) =>
      r = mkPdfResult (certId c) None None None None "failed"
            (Some (errMessage err))
  end.

End Vocabulary.

(* ===================================================================== *)
(** * Properties                                                          *)
(* ===================================================================== *)

(** ** The monad *)

Section MonadFacts.

Context {St : Type}.

Lemma bind_Ok {A B} (m : M St A) (k : A -> M St B) s b s2 :
  bind m k s = (Ok b, s2) ->
  exists a s1, m s = (Ok a, s1) /\ k a s1 = (Ok b, s2).
Proof.
  unfold bind. destruct (m s) as [[a|e] s1]; intros Hk; [eauto | discriminate].
Qed.

Lemma bind_step {A B} (m : M St A) (k : A -> M St B) s a s1 :
  m s = (Ok a, s1) -> bind m k s = k a s1.
Proof. unfold bind. intros ->. reflexivity. Qed.

Lemma bind_throw {A B} (m : M St A) (k : A -> M St B) s e s1 :
  m s = (Throw e, s1) -> bind m k s = (Throw e, s1).
Proof. unfold bind. intros ->. reflexivity. Qed.

Lemma preserves_ret {A} (I : St -> Prop) (a : A) : preserves I (ret a).
Proof. intros s Hs. exact Hs. Qed.

Lemma preserves_throw {A} (I : St -> Prop) e : preserves I (@throw St A e).
Proof. intros s Hs. exact Hs. Qed.

Lemma preserves_gets {A} (I : St -> Prop) (f : St -> A) :
  preserves I (gets f).
Proof. intros s Hs. exact Hs. Qed.

Lemma preserves_bind {A B} (I : St -> Prop) (m : M St A) (k : A -> M St B) :
  preserves I m -> (forall a, preserves I (k a)) -> preserves I (bind m k).
Proof.
  intros Hm Hk s Hs. unfold bind. specialize (Hm s Hs).
  destruct (m s) as [[a|e] s1]; simpl in *; [apply Hk; exact Hm | exact Hm].
Qed.

Lemma preserves_tryCatch {A} (I : St -> Prop) (m : M St A) handler :
  preserves I m -> (forall e, preserves I (handler e)) ->
  preserves I (tryCatch m handler).
Proof.
  intros Hm Hh s Hs. unfold tryCatch. specialize (Hm s Hs).
  destruct (m s) as [[a|e] s1]; simpl in *; [exact Hm | apply Hh; exact Hm].
Qed.

Lemma preserves_tryFinally {A} (I : St -> Prop) (m : M St A) cleanup :
  preserves I m -> preserves I cleanup -> preserves I (tryFinally m cleanup).
Proof.
  intros Hm Hc s Hs. unfold tryFinally. specialize (Hm s Hs).
  destruct (m s) as [[a|e] s1]; simpl in *; specialize (Hc s1 Hm);
    destruct (cleanup s1) as [[u|e'] s2]; simpl in *; exact Hc.
Qed.

Lemma preserves_modify (I : St -> Prop) (f : St -> St) :
  (forall s, I s -> I (f s)) -> preserves I (modify f).
Proof. intros Hf s Hs. apply Hf, Hs. Qed.

End MonadFacts.

Create HintDb keeps discriminated.

#[export] Hint Resolve preserves_ret preserves_throw preserves_gets
  preserves_bind preserves_tryCatch preserves_tryFinally : keeps.

(** ** The validator *)

Section ValidatorFacts.

Variable parseDate : string -> option Z.

Import Validator.

Lemma valid_iff_no_errors cert i :
  valid (validateCertificate parseDate cert i) = true
  <-> errors (validateCertificate parseDate cert i) = [].
Proof.
  unfold validateCertificate. cbv zeta. cbn [valid errors].
  rewrite Nat.eqb_eq. apply length_zero_iff_nil.
Qed.

Lemma validateLoop_errors acc i0 certs e :
  e ∈ allErrors (validateLoop parseDate acc i0 certs)
  <-> e ∈ allErrors acc
      \/ exists k c, certs !! k = Some c
                     /\ e ∈ errors (validateCertificate parseDate c (i0 + k)).
Proof.
  revert acc i0. induction certs as [|c certs IH]; intros acc i0; cbn [validateLoop].
  - split; [auto | intros [He | (k & c & Hk & _)]; [exact He | discriminate]].
  - rewrite IH. cbn [validateRow allErrors]. rewrite elem_of_app. split.
    + intros [[He | He] | (k & c' & Hk & He)].
      * left. exact He.
      * right. exists 0, c. replace (i0 + 0) with i0 by lia. split; [reflexivity | exact He].
      * right. exists (S k), c'. replace (i0 + S k) with (S i0 + k) by lia.
        split; [exact Hk | exact He].
    + intros [He | (k & c' & Hk & He)]; [left; left; exact He |].
      destruct k as [|k]; simpl in Hk.
      * injection Hk as <-. replace (i0 + 0) with i0 in He by lia. left; right; exact He.
      * right. exists k, c'. replace (i0 + S k) with (S i0 + k) in He by lia.
        split; [exact Hk | exact He].
Qed.

Lemma validateLoop_valid acc i0 certs c' :
  c' ∈ validRecords (validateLoop parseDate acc i0 certs)
  <-> c' ∈ validRecords acc
      \/ exists k c, certs !! k = Some c
                     /\ errors (validateCertificate parseDate c (i0 + k)) = []
                     /\ c' = set_row (i0 + k + 1) c.
Proof.
  revert acc i0. induction certs as [|c certs IH]; intros acc i0; cbn [validateLoop].
  - split; [auto | intros [Hc | (k & c & Hk & _)]; [exact Hc | discriminate]].
  - rewrite IH. cbn [validateRow validRecords].
    destruct (valid (validateCertificate parseDate c i0)) eqn:Hv.
    + apply valid_iff_no_errors in Hv. rewrite elem_of_app, list_elem_of_singleton.
      split.
      * intros [[Hc | ->] | (k & c0 & Hk & He & ->)].
        -- left. exact Hc.
        -- right. exists 0, c. replace (i0 + 0) with i0 by lia.
           split; [reflexivity | split; [exact Hv | reflexivity]].
        -- right. exists (S k), c0. replace (i0 + S k) with (S i0 + k) by lia.
           split; [exact Hk | split; [exact He | reflexivity]].
      * intros [Hc | (k & c0 & Hk & He & ->)]; [left; left; exact Hc |].
        destruct k as [|k]; simpl in Hk.
        -- injection Hk as <-. replace (i0 + 0) with i0 by lia. left; right; reflexivity.
        -- right. exists k, c0. replace (i0 + S k) with (S i0 + k) in * by lia.
           split; [exact Hk | split; [exact He | reflexivity]].
    + assert (errors (validateCertificate parseDate c i0) <> []) as Hne.
      { intros He. apply valid_iff_no_errors in He. congruence. }
      split.
      * intros [Hc | (k & c0 & Hk & He & ->)]; [left; exact Hc |].
        right. exists (S k), c0. replace (i0 + S k) with (S i0 + k) by lia.
        split; [exact Hk | split; [exact He | reflexivity]].
      * intros [Hc | (k & c0 & Hk & He & ->)]; [left; exact Hc |].
        destruct k as [|k]; simpl in Hk.
        -- injection Hk as <-. replace (i0 + 0) with i0 in He by lia. contradiction.
        -- right. exists k, c0. replace (i0 + S k) with (S i0 + k) in * by lia.
           split; [exact Hk | split; [exact He | reflexivity]].
Qed.

Lemma validateLoop_warnings_grow acc i0 certs w :
  w ∈ allWarnings acc -> w ∈ allWarnings (validateLoop parseDate acc i0 certs).
Proof.
  revert acc i0. induction certs as [|c certs IH]; intros acc i0 Hw; cbn [validateLoop].
  - exact Hw.
  - apply IH. cbn [validateRow allWarnings]. apply elem_of_app. auto.
Qed.

(** The duplicate warning of a row whose key was seen before. *)
Lemma duplicateWarning_seen f label key seen r :
  is_Some (seen !! key) ->
  exists r0 : nat, duplicateWarning f label key seen r
             = [mkIssue f
                  ("Duplicate " +:+ label +:+ " " +:+ Js.dq +:+ key +:+ Js.dq
                   +:+ " (also in row " +:+ pretty r0 +:+ ")") r].
Proof.
  intros [r0 Hr0]. exists r0. unfold duplicateWarning. rewrite Hr0. reflexivity.
Qed.

Lemma validateLoop_duplicate_id acc i0 certs k ck :
  certs !! k = Some ck ->
  Js.truthy (studentId ck) = true ->
  is_Some (seenStudentIds acc !! Js.orEmpty (studentId ck))
  \/ (exists j cj, j < k /\ certs !! j = Some cj /\ studentId cj = studentId ck) ->
  exists r0 : nat,
    mkIssue "studentId"
      ("Duplicate student ID " +:+ Js.dq +:+ Js.orEmpty (studentId ck)
       +:+ Js.dq +:+ " (also in row " +:+ pretty r0 +:+ ")") (i0 + k + 1)
    ∈ allWarnings (validateLoop parseDate acc i0 certs).
Proof.
  revert acc i0 k. induction certs as [|c certs IH]; intros acc i0 k Hk Ht Hseen;
    [discriminate |].
  destruct k as [|k]; simpl in Hk.
  - injection Hk as ->.
    destruct Hseen as [Hseen | (j & cj & Hj & _)]; [| lia].
    destruct (duplicateWarning_seen "studentId" "student ID" _ _ (i0 + 1) Hseen)
      as [r0 Hr0].
    exists r0. cbn [validateLoop]. apply validateLoop_warnings_grow.
    cbn [validateRow allWarnings]. rewrite Ht, Hr0. replace (i0 + 0 + 1) with (i0 + 1) by lia.
    apply elem_of_app. right. apply list_elem_of_here.
  - cbn [validateLoop].
    destruct (IH (validateRow parseDate acc i0 c) (S i0) k Hk Ht) as [r0 Hr0].
    + cbn [validateRow seenStudentIds].
      destruct Hseen as [Hseen | (j & cj & Hj & Hcj & Heq)].
      * left. destruct (Js.truthy (studentId c)); [| exact Hseen].
        rewrite lookup_insert_is_Some. destruct Hseen as [x Hx].
        destruct (decide (Js.orEmpty (studentId c) = Js.orEmpty (studentId ck)));
          [left; assumption | right; eauto].
      * destruct j as [|j]; simpl in Hcj.
        -- injection Hcj as ->. left. rewrite Heq, Ht.
           rewrite lookup_insert_is_Some. left. reflexivity.
        -- right. exists j, cj. repeat split; [lia | assumption | assumption].
    + exists r0. replace (i0 + S k + 1) with (S i0 + k + 1) by lia. exact Hr0.
Qed.

Lemma validateLoop_duplicate_email acc i0 certs k ck :
  certs !! k = Some ck ->
  Js.truthy (email ck) = true ->
  is_Some (seenEmails acc !! Js.orEmpty (email ck))
  \/ (exists j cj, j < k /\ certs !! j = Some cj /\ email cj = email ck) ->
  exists r0 : nat,
    mkIssue "email"
      ("Duplicate email " +:+ Js.dq +:+ Js.orEmpty (email ck)
       +:+ Js.dq +:+ " (also in row " +:+ pretty r0 +:+ ")") (i0 + k + 1)
    ∈ allWarnings (validateLoop parseDate acc i0 certs).
Proof.
  revert acc i0 k. induction certs as [|c certs IH]; intros acc i0 k Hk Ht Hseen;
    [discriminate |].
  destruct k as [|k]; simpl in Hk.
  - injection Hk as ->.
    destruct Hseen as [Hseen | (j & cj & Hj & _)]; [| lia].
    destruct (duplicateWarning_seen "email" "email" _ _ (i0 + 1) Hseen)
      as [r0 Hr0].
    exists r0. cbn [validateLoop]. apply validateLoop_warnings_grow.
    cbn [validateRow allWarnings]. rewrite Ht, Hr0. replace (i0 + 0 + 1) with (i0 + 1) by lia.
    apply elem_of_app. right. apply elem_of_app. right.
    apply elem_of_app. left. apply list_elem_of_here.
  - cbn [validateLoop].
    destruct (IH (validateRow parseDate acc i0 c) (S i0) k Hk Ht) as [r0 Hr0].
    + cbn [validateRow seenEmails].
      destruct Hseen as [Hseen | (j & cj & Hj & Hcj & Heq)].
      * left. destruct (Js.truthy (email c)); [| exact Hseen].
        rewrite lookup_insert_is_Some. destruct Hseen as [x Hx].
        destruct (decide (Js.orEmpty (email c) = Js.orEmpty (email ck)));
          [left; assumption | right; eauto].
      * destruct j as [|j]; simpl in Hcj.
        -- injection Hcj as ->. left. rewrite Heq, Ht.
           rewrite lookup_insert_is_Some. left. reflexivity.
        -- right. exists j, cj. repeat split; [lia | assumption | assumption].
    + exists r0. replace (i0 + S k + 1) with (S i0 + k + 1) by lia. exact Hr0.
Qed.

End ValidatorFacts.

(** C10. Duplicate student identifiers and duplicate e-mail addresses
    across the rows of a batch are reported by [validateBatch] as
    warnings and never as errors: the errors of the batch are exactly the
    errors that [validateCertificate] finds in each row on its own, while
    every row that repeats the identifier or the address of an earlier
    row gets a duplicate warning. A row without errors is placed in
    [validRecords], whatever warnings it carries. *)
Theorem validateBatch_duplicates_warn_only
    (parseDate : string -> option Z) (certificates : list Cert) :
  let v := Validator.validateBatch parseDate certificates in
  (forall e, e ∈ Validator.batchErrors v
     <-> exists i c, certificates !! i = Some c
           /\ e ∈ Validator.errors (Validator.validateCertificate parseDate c i))
  /\ (forall i j ci cj,
        j < i -> certificates !! i = Some ci -> certificates !! j = Some cj ->
        Js.truthy (studentId ci) = true -> studentId cj = studentId ci ->
        exists r0 : nat,
          mkIssue "studentId"
            ("Duplicate student ID " +:+ Js.dq +:+ Js.orEmpty (studentId ci)
             +:+ Js.dq +:+ " (also in row " +:+ pretty r0 +:+ ")") (i + 1)
          ∈ Validator.batchWarnings v)
  /\ (forall i j ci cj,
        j < i -> certificates !! i = Some ci -> certificates !! j = Some cj ->
        Js.truthy (email ci) = true -> email cj = email ci ->
        exists r0 : nat,
          mkIssue "email"
            ("Duplicate email " +:+ Js.dq +:+ Js.orEmpty (email ci)
             +:+ Js.dq +:+ " (also in row " +:+ pretty r0 +:+ ")") (i + 1)
          ∈ Validator.batchWarnings v)
  /\ (forall i c,
        certificates !! i = Some c ->
        Validator.errors (Validator.validateCertificate parseDate c i) = [] ->
        set_row (i + 1) c ∈ Validator.batchValid v).
Proof.
  cbv zeta. unfold Validator.validateBatch.
  cbn [Validator.batchErrors Validator.batchWarnings Validator.batchValid].
  repeat split.
  - intros He. apply validateLoop_errors in He.
    destruct He as [He | He]; [inversion He | exact He].
  - intros He. apply validateLoop_errors. right. exact He.
  - intros i j ci cj Hji Hi Hj Ht Heq.
    apply (validateLoop_duplicate_id parseDate Validator.emptyAcc 0
             certificates i ci Hi Ht).
    right. exists j, cj. auto.
  - intros i j ci cj Hji Hi Hj Ht Heq.
    apply (validateLoop_duplicate_email parseDate Validator.emptyAcc 0
             certificates i ci Hi Ht).
    right. exists j, cj. auto.
  - intros i c Hi He. apply validateLoop_valid. right. exists i, c. auto.
Qed.

(** Two rows with the same student identifier and the same address, both
    otherwise in order: the second one is warned about and still valid. *)
Lemma validateBatch_duplicates_warn_only_witness :
  let rows := [Scripted.sampleRow "Alice Johnson" "STU-1" "fam@example.com";
               Scripted.sampleRow "Bob Johnson" "STU-1" "fam@example.com"] in
  let v := Validator.validateBatch Scripted.scriptedParseDate rows in
  (exists r0 : nat,
     mkIssue "studentId"
       ("Duplicate student ID " +:+ Js.dq +:+ "STU-1" +:+ Js.dq
        +:+ " (also in row " +:+ pretty r0 +:+ ")") 2
     ∈ Validator.batchWarnings v)
  /\ set_row 2 (Scripted.sampleRow "Bob Johnson" "STU-1" "fam@example.com")
     ∈ Validator.batchValid v
  /\ Validator.hasErrors v = false.
Proof.
  intros rows v.
  destruct (validateBatch_duplicates_warn_only Scripted.scriptedParseDate rows)
    as (_ & Hid & _ & Hvalid).
  split; [| split].
  - apply (Hid 1 0 (Scripted.sampleRow "Bob Johnson" "STU-1" "fam@example.com")
             (Scripted.sampleRow "Alice Johnson" "STU-1" "fam@example.com"));
      [lia | reflexivity | reflexivity | reflexivity | reflexivity].
  - apply (Hvalid 1); reflexivity.
  - reflexivity.
Defined.

(** ** The certificate identifier *)

Section StringFacts.

Lemma length_append (s1 s2 : string) :
  String.length (s1 +:+ s2) = String.length s1 + String.length s2.
Proof. induction s1 as [|c s1 IH]; simpl; [reflexivity | rewrite IH; reflexivity]. Qed.

Lemma length_repeatChar c n : String.length (Js.repeatChar c n) = n.
Proof. induction n as [|n IH]; simpl; [reflexivity | rewrite IH; reflexivity]. Qed.

Lemma length_toUpperCase s :
  String.length (Js.toUpperCase s) = String.length s.
Proof. induction s as [|c s IH]; simpl; [reflexivity | rewrite IH; reflexivity]. Qed.

Lemma length_substring_le n m s :
  String.length (String.substring n m s) <= m.
Proof.
  revert n m. induction s as [|c s IH]; intros [|n] [|m]; simpl; try lia.
  - specialize (IH 0 m). lia.
  - apply IH.
  - apply IH.
Qed.

Lemma length_substring_exact n m s :
  n + m <= String.length s -> String.length (String.substring n m s) = m.
Proof.
  revert n m. induction s as [|c s IH]; intros [|n] [|m]; simpl; try lia.
  - intros Hle. rewrite (IH 0 m); [reflexivity | simpl; lia].
  - intros Hle. apply IH. lia.
  - intros Hle. apply IH. lia.
Qed.

Lemma length_padStart width c s :
  width <= String.length (Js.padStart width c s).
Proof.
  unfold Js.padStart. rewrite length_append, length_repeatChar. lia.
Qed.

End StringFacts.

Section IdentifierFacts.

Context {World : Type} `{Services World}.

Import BlockchainService.

Lemma generateCertificateId_run (h : Heap World) count w1 yr w2 rand w3 :
  getTotalCertificates (world h) = (Ok count, w1) ->
  getFullYear w1 = (yr, w2) ->
  randomBase36 w2 = (rand, w3) ->
  generateCertificateId h
  = (Ok (formatCertificateId count yr rand), mkHeap w3 (job h)).
Proof.
  intros Hc Hy Hr. unfold generateCertificateId, bind, call, ask, ret.
  rewrite Hc. cbn [world job]. rewrite Hy. cbn [world job]. rewrite Hr.
  reflexivity.
Qed.

Lemma formatCertificateId_truthy count yr rand :
  Js.falsy (Some (formatCertificateId count yr rand)) = false.
Proof. reflexivity. Qed.

End IdentifierFacts.

(** C7, as the code has it. An identifier produced by
    [generateCertificateId] reads [CERT-<year>-<sequence>-<suffix>]:
    [<year>] is the calendar year at the time of the call, [<sequence>]
    is the on-chain certificate total at the time of the call plus one,
    in decimal and padded with zeros on the left to at least three
    characters, and [<suffix>] is cut from the base-36 rendering of a
    random number and has at most three characters (exactly three when
    that rendering has at least three digits after the point), never
    four. The total is taken below 2^53, where [Number(count)] is
    exact. *)
Theorem generateCertificateId_format
    {World : Type} `{Services World} (h : Heap World)
    (count : Z) (w1 : World) (yr : Z) (w2 : World) (rand : string)
    (w3 : World) :
  (0 <= count < 2 ^ 53)%Z ->
  getTotalCertificates (world h) = (Ok count, w1) ->
  getFullYear w1 = (yr, w2) ->
  randomBase36 w2 = (rand, w3) ->
  exists seq suffix,
    BlockchainService.generateCertificateId h
    = (Ok ("CERT-" +:+ pretty yr +:+ "-" +:+ seq +:+ "-" +:+ suffix),
       mkHeap w3 (job h))
    /\ seq = Js.repeatChar "0" (3 - String.length (pretty (count + 1)%Z))
             +:+ pretty (count + 1)%Z
    /\ 3 <= String.length seq
    /\ suffix = Js.toUpperCase (Js.substring 2 5 rand)
    /\ String.length suffix <= 3
    /\ (5 <= String.length rand -> String.length suffix = 3).
Proof.
  intros _ Hc Hy Hr.
  exists (BlockchainService.sequenceText count),
         (BlockchainService.randomSuffix rand).
  split; [exact (generateCertificateId_run h count w1 yr w2 rand w3 Hc Hy Hr) |].
  split; [reflexivity |].
  split; [apply length_padStart |].
  split; [reflexivity |].
  unfold BlockchainService.randomSuffix, Js.substring.
  rewrite length_toUpperCase. split.
  - apply length_substring_le.
  - intros Hlen. apply length_substring_exact. lia.
Qed.

(** With 41 certificates on chain, in 2026 and with the random rendering
    [0.abc123], the identifier is [CERT-2026-042-ABC]. *)
Lemma generateCertificateId_format_witness :
  exists seq suffix,
    BlockchainService.generateCertificateId
      (mkHeap (Scripted.mkScript 41 2026 ["0.abc123"] [] [] [] [] [] [])
              (BulkController.newJob "job-1" "/up/f.csv" "f.csv" "t0"
                 (Validator.validateBatch Scripted.scriptedParseDate [])))
    = (Ok ("CERT-" +:+ pretty 2026%Z +:+ "-" +:+ seq +:+ "-" +:+ suffix),
       mkHeap (Scripted.mkScript 41 2026 [] [] [] [] [] [] [])
              (BulkController.newJob "job-1" "/up/f.csv" "f.csv" "t0"
                 (Validator.validateBatch Scripted.scriptedParseDate [])))
    /\ seq = Js.repeatChar "0" (3 - String.length (pretty (41 + 1)%Z))
             +:+ pretty (41 + 1)%Z
    /\ 3 <= String.length seq
    /\ suffix = Js.toUpperCase (Js.substring 2 5 "0.abc123")
    /\ String.length suffix <= 3
    /\ (5 <= String.length "0.abc123" -> String.length suffix = 3).
Proof.
  apply (generateCertificateId_format
           (mkHeap (Scripted.mkScript 41 2026 ["0.abc123"] [] [] [] [] [] [])
              (BulkController.newJob "job-1" "/up/f.csv" "f.csv" "t0"
                 (Validator.validateBatch Scripted.scriptedParseDate [])))
           41%Z (Scripted.mkScript 41 2026 ["0.abc123"] [] [] [] [] [] [])
           2026%Z (Scripted.mkScript 41 2026 ["0.abc123"] [] [] [] [] [] [])
           "0.abc123" (Scripted.mkScript 41 2026 [] [] [] [] [] [] []));
    [lia | reflexivity | reflexivity | reflexivity].
Defined.

(** C7 as stated fails: the disambiguator of [CERT-2026-042-ABC] has three
    characters, and a short random rendering leaves even fewer. *)
Lemma generateCertificateId_suffix_not_four :
  BlockchainService.formatCertificateId 41 2026 "0.abc123"
  = "CERT-2026-042-ABC"
  /\ String.length (BlockchainService.randomSuffix "0.abc123") <> 4
  /\ BlockchainService.formatCertificateId 41 2026 "0.i" = "CERT-2026-042-I".
Proof. repeat split. discriminate. Qed.

(** ** The identifier phase *)

Section IdsFacts.

Context {World : Type} `{Services World}.

Import BulkController.

Lemma generateCertificateId_job (h : Heap World) :
  job (snd (BlockchainService.generateCertificateId h)) = job h.
Proof.
  unfold BlockchainService.generateCertificateId, bind, call, ask, ret.
  destruct (getTotalCertificates (world h)) as [[count|e] w1]; cbn [world job];
    [| reflexivity].
  destruct (getFullYear w1) as [yr w2]; cbn [world job].
  destruct (randomBase36 w2) as [rand w3]; reflexivity.
Qed.

Lemma generateCertificateId_truthy (h : Heap World) newId h1 :
  BlockchainService.generateCertificateId h = (Ok newId, h1) ->
  Js.falsy (Some newId) = false.
Proof.
  unfold BlockchainService.generateCertificateId, bind, call, ask, ret.
  destruct (getTotalCertificates (world h)) as [[count|e] w1]; cbn [world job];
    [| discriminate].
  destruct (getFullYear w1) as [yr w2]; cbn [world job].
  destruct (randomBase36 w2) as [rand w3]. intros [= <- _]. reflexivity.
Qed.

(** A record that carries an identifier is left alone by the loop. *)
Lemma generateIds_keeps n i (h : Heap World) k c :
  records (job h) !! k = Some c ->
  Js.truthy (certId c) = true ->
  records (job (snd (generateIds n i h))) !! k = Some c.
Proof.
  revert i h. induction n as [|n IH]; intros i h Hk Ht; [exact Hk |].
  cbn [generateIds]. unfold bind at 1. unfold readCert, bind at 1, gets.
  destruct (records (job h) !! i) as [cert|] eqn:Hi; [| exact Hk].
  unfold ret at 1. unfold bind at 1.
  destruct (Js.falsy (certId cert)) eqn:Hf.
  - unfold bind at 1.
    pose proof (generateCertificateId_job h) as Hjob.
    destruct (BlockchainService.generateCertificateId h) as [[newId|e] h1];
      cbn [snd] in Hjob.
    + unfold updateCert, updateJob, modify. apply IH; [| exact Ht].
      cbn [job records set_records]. rewrite Hjob.
      destruct (decide (i = k)) as [-> | Hne].
      * rewrite Hk in Hi. injection Hi as <-.
        unfold Js.truthy in Ht. rewrite Hf in Ht. discriminate.
      * rewrite list_lookup_alter_ne; [exact Hk | exact Hne].
    + cbn [snd]. rewrite Hjob. exact Hk.
  - unfold ret. apply IH; assumption.
Qed.

Lemma phaseIds_keeps (h : Heap World) k c :
  records (job h) !! k = Some c ->
  Js.truthy (certId c) = true ->
  records (job (snd (phaseIds h))) !! k = Some c.
Proof.
  intros Hk Ht. unfold phaseIds, bind, gets, setProgress, updateJob, modify.
  apply generateIds_keeps; [exact Hk | exact Ht].
Qed.

End IdsFacts.

(** C9. The identifier phase never reassigns: a record that already
    carries a certificate identifier is unchanged, identifier included,
    after the phase has run once or any number of times, whether a run
    completes or is cut short by an exception; the phase assigns only to
    records whose identifier is missing. *)
Theorem phaseIds_idempotent
    {World : Type} `{Services World} (h : Heap World) (k : nat) (c : Cert)
    (n : nat) :
  records (job h) !! k = Some c ->
  Js.truthy (certId c) = true ->
  records (job (rerunIds n h)) !! k = Some c.
Proof.
  revert h. induction n as [|n IH]; intros h Hk Ht; [exact Hk |].
  cbn [rerunIds]. apply IH; [| exact Ht]. apply phaseIds_keeps; assumption.
Qed.

(** A job whose first record was given [CERT-2026-001-ABC] by an earlier
    run and whose second record has no identifier yet: three more runs
    leave the first record as it is. *)
Lemma phaseIds_idempotent_witness :
  let issued :=
    set_certId "CERT-2026-001-ABC"
      (set_row 1 (Scripted.sampleRow "Alice Johnson" "STU-1" "a@example.com")) in
  let fresh :=
    set_row 2 (Scripted.sampleRow "Bob Smith" "STU-2" "b@example.com") in
  let h :=
    mkHeap (Scripted.mkScript 1 2026 ["0.k3x9"; "0.zz81"; "0.q0q0"]
              [] [] [] [] [] [])
      (mkJob "job-1" "completed" None (Some "f.csv") [issued; fresh] []
         "t0" None None None None None) in
  records (job (rerunIds 3 h)) !! 0 = Some issued
  /\ (certId <$> records (job (rerunIds 3 h)))
     = [Some "CERT-2026-001-ABC"; Some "CERT-2026-002-K3X"].
Proof.
  intros issued fresh h. split.
  - apply (phaseIds_idempotent h 0 issued 3); reflexivity.
  - vm_compute. reflexivity.
Defined.

(** ** The storing phase *)

Section StoreFacts.

Context {World : Type} `{Services World}.

Import BulkController.

(** The [try] block of the storing phase stops at its first statement:
    the digest helper does not exist. *)
Lemma tryStore_throws i buffer pdfResult (h : Heap World) :
  tryStore i buffer pdfResult h
  = (Throw (typeError "ipfsService.computeContentHash is not a function"), h).
Proof. reflexivity. Qed.

(** For a record whose document was rendered the step runs the [catch]
    block and nothing else. *)
Lemma storeStep_rendered (pdfResults : list PdfResult) n i (h : Heap World)
    pdfResult buffer :
  pdfResults !! i = Some pdfResult ->
  pdfStatus pdfResult = "success" ->
  pdfBuffer pdfResult = Some buffer ->
  storeStep pdfResults n i h
  = (Ok tt,
     mkHeap (world h)
       (set_progress
          (mkProgress "uploading_ipfs" (i + 1) n (roundPercent (i + 1) n)
             None None None)
          (set_records
             (alter (set_ipfsError
                       "ipfsService.computeContentHash is not a function") i
                (alter (set_ipfsHash "") i (records (job h))))
             (job h)))).
Proof.
  intros Hi Hs Hb. unfold storeStep. rewrite Hi.
  unfold bind at 1, ret at 1. cbv beta iota.
  rewrite Hb, Hs. cbn [String.eqb Ascii.eqb Bool.eqb].
  unfold bind at 1, tryCatch. rewrite tryStore_throws.
  reflexivity.
Qed.

(** No store failure aborts the phase: a step returns as soon as the
    document result of its record exists. *)
Lemma storeStep_returns (pdfResults : list PdfResult) n i (h : Heap World) :
  is_Some (pdfResults !! i) ->
  exists h', storeStep pdfResults n i h = (Ok tt, h').
Proof.
  intros [pdfResult Hi]. unfold storeStep. rewrite Hi.
  unfold bind at 1, ret at 1. cbv beta iota.
  assert (forall m : M (Heap World) unit,
            (exists h1, m h = (Ok tt, h1)) ->
            exists h',
              bind m (fun _ => setProgress "uploading_ipfs" (i + 1) n
                                 (roundPercent (i + 1) n)) h = (Ok tt, h'))
    as Hthen.
  { intros m [h1 Hm]. rewrite (bind_step _ _ _ _ _ Hm). eexists. reflexivity. }
  apply Hthen.
  destruct (pdfBuffer pdfResult) as [buffer|]; [| eexists; reflexivity].
  destruct (String.eqb _ _); [| eexists; reflexivity].
  unfold tryCatch.
  destruct (tryStore i buffer pdfResult h) as [[[]|e] h1];
    [eexists; reflexivity |].
  unfold catchStore, bind, updateCert, updateJob, modify. eexists. reflexivity.
Qed.

Lemma storeLoop_returns (pdfResults : list PdfResult) total n i
    (h : Heap World) :
  i + n <= length pdfResults ->
  exists h', storeLoop pdfResults total n i h = (Ok tt, h').
Proof.
  revert i h. induction n as [|n IH]; intros i h Hlen; cbn [storeLoop].
  - eexists. reflexivity.
  - destruct (storeStep_returns pdfResults total i h) as [h1 Hstep].
    { apply lookup_lt_is_Some. lia. }
    rewrite (bind_step _ _ _ _ _ Hstep). apply IH. lia.
Qed.

End StoreFacts.

(** C4 on the code. For every record that produced a document the
    storing phase calls [ipfsService.computeContentHash], which the
    module does not export: the call throws inside the per-record [try]
    before a digest exists and before the store is attempted. The step
    therefore leaves the world as it was (nothing is sent to the content
    store), records no digest on the record, and runs the [catch] block,
    which sets an empty content identifier and the message of the
    [TypeError]; the record would be submitted with an empty content
    reference, the other records are untouched, and the loop of the phase
    returns for every batch. *)
Theorem storing_phase_records_no_digest
    {World : Type} `{Services World} (pdfResults : list PdfResult)
    (n i : nat) (h : Heap World) (pdfResult : PdfResult) (buffer : Buffer)
    (c : Cert) :
  pdfResults !! i = Some pdfResult ->
  pdfStatus pdfResult = "success" ->
  pdfBuffer pdfResult = Some buffer ->
  records (job h) !! i = Some c ->
  exists h' c',
    BulkController.storeStep pdfResults n i h = (Ok tt, h')
    /\ world h' = world h
    /\ records (job h') !! i = Some c'
    /\ documentHash c' = documentHash c
    /\ ipfsHash c' = Some ""
    /\ ipfsError c' = Some "ipfsService.computeContentHash is not a function"
    /\ ipfsPinned c' = ipfsPinned c
    /\ ipfsGateway c' = ipfsGateway c
    /\ callIpfsHash (BlockchainService.issueCallOf c') = ""
    /\ (forall k, k <> i -> records (job h') !! k = records (job h) !! k)
    /\ (forall total m j (h0 : Heap World),
          j + m <= length pdfResults ->
          exists h1,
            BulkController.storeLoop pdfResults total m j h0 = (Ok tt, h1)).
Proof.
  intros Hi Hs Hb Hc. eexists _, _.
  split; [exact (storeStep_rendered pdfResults n i h pdfResult buffer Hi Hs Hb) |].
  cbn [world job records set_progress set_records].
  split; [reflexivity |].
  split; [do 2 rewrite list_lookup_alter_eq; rewrite Hc; reflexivity |].
  do 6 (split; [reflexivity |]). split.
  - intros k Hk. do 2 (rewrite list_lookup_alter_ne by auto). reflexivity.
  - intros total m j h0 Hlen. apply storeLoop_returns. exact Hlen.
Qed.

(** One record with a rendered document, and a pinning service that would
    accept it: the step records no digest and an empty content
    identifier, and the answer of the pinning service is still unused
    when the pipeline has completed; the certificate is issued with an
    empty content reference. *)
Lemma storing_phase_records_no_digest_witness :
  let cert :=
    set_certId "CERT-2026-001-ABC"
      (set_row 1 (Scripted.sampleRow "Alice Johnson" "STU-1" "a@example.com")) in
  let rendered := PdfService.pdfSuccess cert Scripted.samplePdf in
  let w :=
    Scripted.mkFullScript 0 2026 ["0.abc123"] [Ok 7%Z] [Ok (mkTx "0xaa")]
      [Ok (mkReceipt 100 21000)] [Ok Scripted.samplePdf]
      [Ok Scripted.sampleQr] [] [Ok "bafybeigdyrzt5sfp7udm7hu76uh7y26nf3"] in
  let j := mkJob "job-1" "processing" None (Some "f.csv") [cert] [] "t0" None
             None None None None in
  (exists h' c',
     BulkController.storeStep [rendered] 1 0 (mkHeap w j) = (Ok tt, h')
     /\ world h' = w
     /\ records (job h') !! 0 = Some c'
     /\ documentHash c' = None
     /\ ipfsHash c' = Some ""
     /\ ipfsError c' = Some "ipfsService.computeContentHash is not a function")
  /\ let done :=
       BulkController.runPipeline "default-certificate" false (mkHeap w j) in
     jobStatus (job done) = "completed"
     /\ Scripted.pins (world done) = [Ok "bafybeigdyrzt5sfp7udm7hu76uh7y26nf3"]
     /\ ((fun r => (outStatus (blockchain r), outTxHash (blockchain r),
                    outHash (ipfs r), outDocumentHash (ipfs r)))
           <$> default [] (jobResults (job done)))
        = [("success", Some "0xaa", None, None)].
Proof.
  intros cert rendered w j. split; [| vm_compute; repeat split].
  destruct (storing_phase_records_no_digest (World:=Scripted.Script)
              [rendered] 1 0 (mkHeap w j) rendered [] cert
              eq_refl eq_refl eq_refl eq_refl)
    as (h' & c' & Hstep & Hw & Hrec & Hdoc & Hhash & Herr & _).
  exists h', c'. split; [exact Hstep |]. split; [exact Hw |].
  split; [exact Hrec |]. split; [exact Hdoc |]. split; [exact Hhash | exact Herr].
Defined.

(** ** The chain client *)

Section BatchFacts.

Context {World : Type} `{Services World}.

Import BlockchainService.

(** Reduce the projections of heap, locals and events, and nothing else. *)
Ltac step_state :=
  cbv beta iota zeta delta [fst snd];
  cbn [world job nonce locResults locSucceeded locFailed
       incNonce incFailed incSucceeded pushResult setNonce
       fate cursorBefore pendingView from_option id].

(** The [try]/[catch] of the loop body always completes, adds exactly one
    result for the record, and moves the cursor as [nextCursor] says. *)
Lemma tryCatch_issue i cert (h : Heap World) (l : Locals) :
  let e := observe cert (nonce l) (world h) in
  exists h1 r,
    tryCatch (tryIssue i cert) (catchIssue i cert) (h, l)
    = (Ok tt,
       (h1, mkLocals (locResults l ++ [r])
              (match fate e with
               | Confirmed => S (locSucceeded l)
               | _ => locSucceeded l
               end)
              (match fate e with
               | Confirmed => locFailed l
               | _ => S (locFailed l)
               end)
              (nextCursor e)))
    /\ job h1 = job h
    /\ index r = i
    /\ resultCertId r = certId cert
    /\ terminalOutcome r
    /\ (status r = "success" <-> fate e = Confirmed).
Proof.
  cbv zeta.
  unfold tryIssue, catchIssue, tryCatch, bind, readLocal, gets, onHeap, call,
    assign, modify, ret, observe, viewAfter, nextCursor.
  step_state.
  destruct (sendIssue (issueCallOf cert) (nonce l) (world h)) as [[tx|e1] w1];
    step_state.
  - destruct (waitTx tx w1) as [[receipt|e2] w2]; step_state.
    + eexists _, _. split; [reflexivity |].
      repeat split; try reflexivity.
      left. cbn. repeat split; eauto.
    + destruct (getNonce w2) as [[n|e3] w3]; step_state;
        (eexists _, _; split; [reflexivity |];
         repeat split; try reflexivity; try discriminate;
         right; cbn; repeat split; eauto).
  - destruct (getNonce w1) as [[n|e3] w3]; step_state;
      (eexists _, _; split; [reflexivity |];
       repeat split; try reflexivity; try discriminate;
       right; cbn; repeat split; eauto).
Qed.

Lemma observe_before cert n (w : World) : cursorBefore (observe cert n w) = n.
Proof.
  unfold observe. destruct (sendIssue _ _ _) as [[tx|e1] w1]; [| reflexivity].
  destruct (waitTx _ _) as [[r|e2] w2]; reflexivity.
Qed.

(** One iteration, progress report included. *)
Lemma issueStep_run onProgress total i cert (h : Heap World) (l : Locals) :
  callbackReturns onProgress ->
  let e := observe cert (nonce l) (world h) in
  exists h2 r,
    issueStep onProgress total i cert (h, l)
    = (Ok tt,
       (h2, mkLocals (locResults l ++ [r])
              (match fate e with
               | Confirmed => S (locSucceeded l)
               | _ => locSucceeded l
               end)
              (match fate e with
               | Confirmed => locFailed l
               | _ => S (locFailed l)
               end)
              (nextCursor e)))
    /\ index r = i
    /\ resultCertId r = certId cert
    /\ terminalOutcome r
    /\ (status r = "success" <-> fate e = Confirmed).
Proof.
  intros Hcb e.
  destruct (tryCatch_issue i cert h l) as (h1 & r & Hrun & _ & Hi & Hc & Ht & Hs).
  fold e in Hrun, Hs. unfold issueStep.
  rewrite (bind_step _ _ _ _ _ Hrun).
  destruct onProgress as [cb|]; cbn [reportProgress].
  - unfold bind, readLocal, gets, onHeap. cbv beta iota zeta delta [fst snd].
    destruct (Hcb (batchProgress i total
                     (mkLocals (locResults l ++ [r])
                        (match fate e with
                         | Confirmed => S (locSucceeded l)
                         | _ => locSucceeded l
                         end)
                        (match fate e with
                         | Confirmed => locFailed l
                         | _ => S (locFailed l)
                         end)
                        (nextCursor e))) h1) as ([] & h2 & Hcall).
    unfold id. rewrite Hcall. exists h2, r. auto.
  - exists h1, r. auto.
Qed.

(** The loop returns, with one result per record, in order. *)
Lemma issueLoop_results onProgress total certs :
  callbackReturns onProgress ->
  forall i (h : Heap World) (l : Locals),
  exists h' l' rs,
    issueLoop onProgress total i certs (h, l) = (Ok tt, (h', l'))
    /\ locResults l' = locResults l ++ rs
    /\ length rs = length certs
    /\ (forall k r, rs !! k = Some r ->
         exists cert, certs !! k = Some cert /\ index r = i + k
                      /\ resultCertId r = certId cert /\ terminalOutcome r)
    /\ locSucceeded l' + locFailed l'
       = locSucceeded l + locFailed l + length certs.
Proof.
  intros Hcb. induction certs as [|cert rest IH]; intros i h l.
  - exists h, l, []. cbn. rewrite app_nil_r. repeat split; try lia.
    intros k r Hk. discriminate.
  - destruct (issueStep_run onProgress total i cert h l Hcb)
      as (h2 & r & Hstep & Hi & Hc & Ht & _).
    cbn [issueLoop]. rewrite (bind_step _ _ _ _ _ Hstep).
    set (l1 := mkLocals _ _ _ _) in *.
    destruct (IH (S i) h2 l1) as (h' & l' & rs & Hloop & Hres & Hlen & Hall & Hsum).
    subst l1.
    exists h', l', (r :: rs). split; [exact Hloop |].
    cbn [locResults locSucceeded locFailed] in Hres, Hsum.
    split; [rewrite Hres, <- app_assoc; reflexivity |].
    split; [cbn; lia |]. split.
    + intros [|k] r' Hk; cbn in Hk.
      * injection Hk as <-. exists cert. rewrite Nat.add_0_r. auto.
      * destruct (Hall k r' Hk) as (c' & Hc' & Hi' & Hrest).
        exists c'. split; [exact Hc' |]. split; [lia | exact Hrest].
    + cbn [length]. destruct (fate _); lia.
Qed.

Lemma acceptedCount_cons e events :
  acceptedCount (e :: events)
  = (if accepted e then 1 else 0) + acceptedCount events.
Proof.
  unfold acceptedCount. rewrite filter_cons.
  destruct (accepted e); case_decide; cbn; congruence.
Qed.

(** The cursor along the loop. *)
Lemma issueLoop_cursor onProgress total certs :
  callbackReturns onProgress ->
  forall i (h : Heap World) (l : Locals),
  exists h' l',
    issueLoop onProgress total i certs (h, l) = (Ok tt, (h', l'))
    /\ let events := trace onProgress total i certs (h, l) in
       length events = length certs
       /\ (forall e, events !! 0 = Some e -> cursorBefore e = nonce l)
       /\ (forall k e, events !! k = Some e ->
            cursorAfter events k (nonce l') = nextCursor e)
       /\ (forall nonce0 seen,
            nonce l = (nonce0 + Z.of_nat seen)%Z ->
            consistentViews nonce0 seen events ->
            nonce l'
            = (nonce0 + Z.of_nat seen + Z.of_nat (acceptedCount events))%Z).
Proof.
  intros Hcb. induction certs as [|cert rest IH]; intros i h l.
  - exists h, l. split; [reflexivity |]. cbn. repeat split.
    + intros e He. discriminate.
    + intros k e He. discriminate.
    + intros nonce0 seen Hn _. unfold acceptedCount. cbn. lia.
  - destruct (issueStep_run onProgress total i cert h l Hcb)
      as (h2 & r & Hstep & _).
    cbn [issueLoop trace]. rewrite (bind_step _ _ _ _ _ Hstep).
    rewrite Hstep. cbn [snd fst].
    set (e := observe cert (nonce l) (world h)) in *.
    set (l1 := mkLocals _ _ _ (nextCursor e)) in *.
    destruct (IH (S i) h2 l1) as (h' & l' & Hloop & Hlen & Hfirst & Hafter & Hcons).
    exists h', l'. split; [exact Hloop |]. cbv zeta.
    set (events := trace onProgress total (S i) rest (h2, l1)) in *.
    split; [cbn; lia |]. split; [| split].
    + intros e0 [= <-]. apply observe_before.
    + intros [|k] e0 He0; cbn in He0.
      * injection He0 as <-. unfold cursorAfter. cbn.
        destruct (events !! 0) as [e1|] eqn:He1.
        -- apply Hfirst. reflexivity.
        -- destruct rest as [|c2 rest2]; [| subst events; discriminate].
           cbn in Hloop. injection Hloop as _ <-. reflexivity.
      * unfold cursorAfter. cbn. apply (Hafter k e0 He0).
    + intros nonce0 seen Hn [Hview Hrest].
      rewrite acceptedCount_cons.
      assert (nonce l1 = (nonce0
                + Z.of_nat (if accepted e then S seen else seen))%Z) as Hn1.
      { subst l1. cbn [nonce]. unfold nextCursor, accepted in *.
        pose proof (observe_before cert (nonce l) (world h)) as Hb.
        fold e in Hb. rewrite Hb.
        destruct (fate e); destruct (pendingView e) as [v|]; cbn;
          try (rewrite (Hview v eq_refl)); lia. }
      rewrite (Hcons nonce0 _ Hn1 Hrest).
      destruct (accepted e); lia.
Qed.

End BatchFacts.

Section BatchRun.

Context {World : Type} `{Services World}.

Import BlockchainService.

Lemma issueBatchLocals_run certificates onProgress (h h0 : Heap World) nonce0
    h' l' :
  call getNonce h = (Ok nonce0, h0) ->
  issueLoop onProgress (length certificates) 0 certificates
    (h0, mkLocals [] 0 0 nonce0) = (Ok tt, (h', l')) ->
  issueBatchLocals certificates onProgress h = (Ok l', h').
Proof.
  intros Hn Hloop. unfold issueBatchLocals.
  rewrite (bind_step _ _ _ _ _ Hn). unfold withLocals.
  rewrite (bind_step _ _ _ _ _ Hloop). reflexivity.
Qed.

Lemma batchTrace_run certificates onProgress (h h0 : Heap World) nonce0 :
  call getNonce h = (Ok nonce0, h0) ->
  batchTrace certificates onProgress h
  = trace onProgress (length certificates) 0 certificates
      (h0, mkLocals [] 0 0 nonce0).
Proof. intros Hn. unfold batchTrace. rewrite Hn. reflexivity. Qed.

End BatchRun.

Section BatchReports.

Context {World : Type} `{Services World}.

Import BlockchainService.

(** The result that the [try]/[catch] of the loop body adds reports what
    the node did with the submission of the record. *)
Lemma tryCatch_issue_reports i cert (h : Heap World) (l : Locals) :
  exists h1 l1 r,
    tryCatch (tryIssue i cert) (catchIssue i cert) (h, l) = (Ok tt, (h1, l1))
    /\ locResults l1 = locResults l ++ [r]
    /\ reportsSubmission cert (nonce l) (world h) r.
Proof.
  unfold tryIssue, catchIssue, tryCatch, bind, readLocal, gets, onHeap, call,
    assign, modify, ret, reportsSubmission, failedWith.
  cbv beta iota zeta delta [fst snd].
  cbn [world job nonce locResults incNonce incFailed incSucceeded pushResult
       setNonce].
  destruct (sendIssue (issueCallOf cert) (nonce l) (world h)) as [[tx|e1] w1];
    cbv beta iota zeta delta [fst snd]; cbn [world job].
  - destruct (waitTx tx w1) as [[receipt|e2] w2];
      cbv beta iota zeta delta [fst snd]; cbn [world job].
    + eexists _, _, _. split; [reflexivity |]. split; [reflexivity |].
      cbn. auto.
    + destruct (getNonce w2) as [[n|e3] w3];
        cbv beta iota zeta delta [fst snd];
        (eexists _, _, _; split; [reflexivity |]; split; [reflexivity |];
         cbn; auto).
  - destruct (getNonce w1) as [[n|e3] w3];
      cbv beta iota zeta delta [fst snd];
      (eexists _, _, _; split; [reflexivity |]; split; [reflexivity |];
       cbn; auto).
Qed.

Lemma issueStep_reports onProgress total i cert (h : Heap World) (l : Locals) :
  callbackReturns onProgress ->
  exists h2 l1 r,
    issueStep onProgress total i cert (h, l) = (Ok tt, (h2, l1))
    /\ locResults l1 = locResults l ++ [r]
    /\ reportsSubmission cert (nonce l) (world h) r.
Proof.
  intros Hcb.
  destruct (tryCatch_issue_reports i cert h l) as (h1 & l1 & r & Hrun & Hres & Hrep).
  unfold issueStep. rewrite (bind_step _ _ _ _ _ Hrun).
  destruct onProgress as [cb|]; cbn [reportProgress].
  - unfold bind, readLocal, gets, onHeap. cbv beta iota zeta delta [fst snd].
    destruct (Hcb (batchProgress i total (id l1)) h1) as ([] & h2 & Hcall).
    rewrite Hcall. exists h2, l1, r. auto.
  - exists h1, l1, r. auto.
Qed.

(** Along the loop every record gets the report of its own submission,
    made in the state in which the loop reaches the record. *)
Lemma issueLoop_reports onProgress total certs :
  callbackReturns onProgress ->
  forall i (h : Heap World) (l : Locals),
  exists h' l' rs,
    issueLoop onProgress total i certs (h, l) = (Ok tt, (h', l'))
    /\ locResults l' = locResults l ++ rs
    /\ (forall k cert, certs !! k = Some cert ->
         exists r,
           rs !! k = Some r
           /\ let s := reached onProgress total i certs (h, l) k in
              reportsSubmission cert (nonce (snd s)) (world (fst s)) r).
Proof.
  intros Hcb. induction certs as [|cert rest IH]; intros i h l.
  - exists h, l, []. cbn. rewrite app_nil_r. repeat split.
    intros k c Hk. discriminate.
  - destruct (issueStep_reports onProgress total i cert h l Hcb)
      as (h2 & l1 & r & Hstep & Hres1 & Hrep).
    cbn [issueLoop]. rewrite (bind_step _ _ _ _ _ Hstep).
    destruct (IH (S i) h2 l1) as (h' & l' & rs & Hloop & Hres & Hall).
    exists h', l', (r :: rs). split; [exact Hloop |].
    split; [rewrite Hres, Hres1, <- app_assoc; reflexivity |].
    intros [|k] c Hk; cbn in Hk.
    + injection Hk as <-. exists r. split; [reflexivity | exact Hrep].
    + destruct (Hall k c Hk) as (r' & Hr' & Hrep').
      exists r'. split; [exact Hr' |].
      cbn [reached]. rewrite Hstep. exact Hrep'.
Qed.

(** What a completed [issueBatch] has done, record by record. *)
Lemma issueBatch_reports certs onProgress (h h' : Heap World) bc :
  callbackReturns onProgress ->
  issueBatch certs onProgress h = (Ok bc, h') ->
  exists nonce0 h0,
    call getNonce h = (Ok nonce0, h0)
    /\ (forall k cert, certs !! k = Some cert ->
         exists r,
           results bc !! k = Some r
           /\ let s := reached onProgress (length certs) 0 certs
                         (h0, mkLocals [] 0 0 nonce0) k in
              reportsSubmission cert (nonce (snd s)) (world (fst s)) r).
Proof.
  intros Hcb Hrun. unfold issueBatch in Hrun.
  apply bind_Ok in Hrun as (l & h1 & Hlocals & Hret).
  injection Hret as <- <-. cbn [results].
  unfold issueBatchLocals in Hlocals.
  apply bind_Ok in Hlocals as (nonce0 & h0 & Hn & Hloc).
  exists nonce0, h0. split; [exact Hn |].
  destruct (issueLoop_reports onProgress (length certs) certs Hcb 0 h0
              (mkLocals [] 0 0 nonce0))
    as (h2 & l2 & rs & Hloop & Hres & Hall).
  unfold withLocals in Hloc. rewrite (bind_step _ _ _ _ _ Hloop) in Hloc.
  cbn in Hloc. injection Hloc as <- _. cbn in Hres. subst rs. exact Hall.
Qed.

End BatchReports.

(** C6. Once the initial nonce is fetched, [issueBatch] returns, whatever
    the node does with the individual records: [results] has exactly one
    entry per input record, in input order, each carrying the record's
    position and identifier and reporting what the node did with the
    submission of that record: a success with the hash of the accepted
    transaction and the block number and gas of its receipt when the node
    accepted and confirmed it, and otherwise a failure with the reason of
    the error, never both and never neither. A failure does not stop the
    loop: the next record is submitted in the state that the failure
    left. [succeeded] and [failed] add up to the number of records. *)
Theorem issueBatch_one_outcome_per_record
    {World : Type} `{Services World} (certificates : list Cert)
    (onProgress : option (Progress -> M (Heap World) unit))
    (h h0 : Heap World) (nonce0 : Z) :
  callbackReturns onProgress ->
  call getNonce h = (Ok nonce0, h0) ->
  exists res h',
    BlockchainService.issueBatch certificates onProgress h = (Ok res, h')
    /\ length (results res) = length certificates
    /\ (forall k cert, certificates !! k = Some cert ->
        exists r, results res !! k = Some r /\ index r = k
                  /\ resultCertId r = certId cert /\ terminalOutcome r
                  /\ let s := reached onProgress (length certificates) 0
                                certificates
                                (h0, BlockchainService.mkLocals [] 0 0 nonce0)
                                k in
                     reportsSubmission cert
                       (BlockchainService.nonce (snd s)) (world (fst s)) r)
    /\ succeeded res + failed res = length certificates
    /\ batchTotal res = length certificates.
Proof.
  intros Hcb Hn.
  destruct (issueLoop_results onProgress (length certificates) certificates
              Hcb 0 h0 (BlockchainService.mkLocals [] 0 0 nonce0))
    as (h' & l' & rs & Hloop & Hres & Hlen & Hall & Hsum).
  cbn in Hres, Hsum. subst rs.
  pose proof (issueBatchLocals_run certificates onProgress h h0 nonce0 h' l'
                Hn Hloop) as Hlocals.
  assert (BlockchainService.issueBatch certificates onProgress h
          = (Ok (mkBatchResult (BlockchainService.locResults l')
                   (BlockchainService.locSucceeded l')
                   (BlockchainService.locFailed l') (length certificates)),
             h')) as Hrun.
  { unfold BlockchainService.issueBatch.
    rewrite (bind_step _ _ _ _ _ Hlocals). reflexivity. }
  destruct (issueBatch_reports _ _ _ _ _ Hcb Hrun)
    as (nonce1 & h1 & Hn1 & Hrep).
  rewrite Hn in Hn1. injection Hn1 as <- <-.
  eexists _, h'. split; [exact Hrun |].
  cbn [results succeeded failed batchTotal].
  split; [exact Hlen |]. split; [| split; [lia | reflexivity]].
  intros k cert Hk.
  destruct (Hrep k cert Hk) as (r & Hr & Hsub). cbn [results] in Hr.
  destruct (Hall k r Hr) as (cert' & Hk' & Hi & Hid & Hterm).
  rewrite Hk in Hk'. injection Hk' as <-.
  exists r. split; [exact Hr |]. split; [exact Hi |]. split; [exact Hid |].
  split; [exact Hterm | exact Hsub].
Qed.

(** Three records: the first is confirmed, the second is refused before
    acceptance, the third is accepted and reverts. *)
Lemma issueBatch_one_outcome_per_record_witness :
  let certs :=
    [Scripted.sampleRow "Alice Johnson" "STU-1" "a@example.com";
     Scripted.sampleRow "Bob Smith" "STU-2" "b@example.com";
     Scripted.sampleRow "Carol Williams" "STU-3" "c@example.com"] in
  let w :=
    Scripted.mkScript 0 2026 [] [Ok 7%Z; Ok 8%Z]
      [Ok (mkTx "0xaa"); Throw (Scripted.revert "gas estimation failed");
       Ok (mkTx "0xbb")]
      [Ok (mkReceipt 100 21000); Throw (Scripted.revert "reverted")]
      [] [] [] in
  let j := mkJob "job-1" "processing" None None certs [] "t0" None None None
             None None in
  exists res h',
    BlockchainService.issueBatch certs None (mkHeap w j) = (Ok res, h')
    /\ length (results res) = 3
    /\ results res
       = [mkChainResult 0 None "success" (Some "0xaa") (Some 100%Z)
            (Some 21000%Z) None;
          mkChainResult 1 None "failed" None None None
            (Some "gas estimation failed");
          mkChainResult 2 None "failed" None None None (Some "reverted")]
    /\ succeeded res + failed res = 3.
Proof.
  intros certs w j.
  edestruct (issueBatch_one_outcome_per_record certs None (mkHeap w j))
    as (res & h' & Hrun & Hlen & _ & Hsum & _);
    [exact I | vm_compute; reflexivity |].
  exists res, h'. split; [exact Hrun |]. split; [exact Hlen |].
  split; [| exact Hsum].
  vm_compute in Hrun. injection Hrun as <- _. reflexivity.
Defined.

(** C1, as the code has it. In a run of [issueBatch] the cursor starts
    from the pending nonce fetched at the start; a record that the node
    accepts and confirms moves it forward by exactly one; a record
    refused before acceptance does not increment it but replaces it by
    the node's pending-nonce view, and leaves it unchanged when that view
    cannot be fetched. A pending-nonce view is adopted as it comes, so
    the cursor ends at the initial nonce plus the number of accepted
    submissions whenever every view that the node gave during the run
    was the initial nonce plus the number of submissions it had accepted
    by then. *)
Theorem issueBatch_cursor_follows_acceptance
    {World : Type} `{Services World} (certificates : list Cert)
    (onProgress : option (Progress -> M (Heap World) unit))
    (h h0 : Heap World) (nonce0 : Z) :
  callbackReturns onProgress ->
  call getNonce h = (Ok nonce0, h0) ->
  exists l h',
    BlockchainService.issueBatchLocals certificates onProgress h = (Ok l, h')
    /\ let events :=
         BlockchainService.batchTrace certificates onProgress h in
       length events = length certificates
       /\ (forall e, events !! 0 = Some e ->
           BlockchainService.cursorBefore e = nonce0)
       /\ (forall k e, events !! k = Some e ->
           BlockchainService.fate e = BlockchainService.Confirmed ->
           cursorAfter events k (BlockchainService.nonce l)
           = (BlockchainService.cursorBefore e + 1)%Z)
       /\ (forall k e, events !! k = Some e ->
           BlockchainService.fate e = BlockchainService.Rejected ->
           cursorAfter events k (BlockchainService.nonce l)
           = default (BlockchainService.cursorBefore e)
               (BlockchainService.pendingView e))
       /\ (consistentViews nonce0 0 events ->
           BlockchainService.nonce l
           = (nonce0 + Z.of_nat (BlockchainService.acceptedCount events))%Z).
Proof.
  intros Hcb Hn.
  destruct (issueLoop_cursor onProgress (length certificates) certificates
              Hcb 0 h0 (BlockchainService.mkLocals [] 0 0 nonce0))
    as (h' & l' & Hloop & Hlen & Hfirst & Hafter & Hcons).
  exists l', h'.
  split; [exact (issueBatchLocals_run certificates onProgress h h0 nonce0
                   h' l' Hn Hloop) |].
  cbv zeta. rewrite (batchTrace_run certificates onProgress h h0 nonce0 Hn).
  split; [exact Hlen |]. split; [exact Hfirst |]. split; [| split].
  - intros k e He Hf. rewrite (Hafter k e He). unfold nextCursor.
    rewrite Hf. reflexivity.
  - intros k e He Hf. rewrite (Hafter k e He). unfold nextCursor.
    rewrite Hf. reflexivity.
  - intros Hviews. rewrite (Hcons nonce0 0 (eq_sym (Z.add_0_r nonce0)) Hviews).
    cbn. lia.
Qed.

(** Three records: confirmed, refused before acceptance while the node's
    view is the cursor itself, accepted and reverted while the node cannot
    be asked. The cursor goes from 7 to 9: two submissions were accepted. *)
Lemma issueBatch_cursor_follows_acceptance_witness :
  let certs :=
    [Scripted.sampleRow "Alice Johnson" "STU-1" "a@example.com";
     Scripted.sampleRow "Bob Smith" "STU-2" "b@example.com";
     Scripted.sampleRow "Carol Williams" "STU-3" "c@example.com"] in
  let w :=
    Scripted.mkScript 0 2026 [] [Ok 7%Z; Ok 8%Z]
      [Ok (mkTx "0xaa"); Throw (Scripted.revert "gas estimation failed");
       Ok (mkTx "0xbb")]
      [Ok (mkReceipt 100 21000); Throw (Scripted.revert "reverted")]
      [] [] [] in
  let j := mkJob "job-1" "processing" None None certs [] "t0" None None None
             None None in
  exists l h',
    BlockchainService.issueBatchLocals certs None (mkHeap w j) = (Ok l, h')
    /\ BlockchainService.acceptedCount
         (BlockchainService.batchTrace certs None (mkHeap w j)) = 2
    /\ BlockchainService.nonce l = 9%Z.
Proof.
  intros certs w j.
  edestruct (issueBatch_cursor_follows_acceptance certs None (mkHeap w j))
    as (l & h' & Hrun & _ & _ & _ & _ & Hadvance);
    [exact I | vm_compute; reflexivity |].
  exists l, h'. split; [exact Hrun |]. split; [vm_compute; reflexivity |].
  rewrite Hadvance; [vm_compute; reflexivity |].
  vm_compute. repeat split; intros v Hv; congruence.
Defined.

(** C1 as stated fails. One record is refused before acceptance and the
    node's pending view has moved from 7 to 9 in the meantime (the same
    key has signed elsewhere): the cursor ends two above where it
    started although no submission of the run was accepted. *)
Lemma issueBatch_cursor_not_acceptance_count :
  let certs := [Scripted.sampleRow "Alice Johnson" "STU-1" "a@example.com"] in
  let w :=
    Scripted.mkScript 0 2026 [] [Ok 7%Z; Ok 9%Z]
      [Throw (Scripted.revert "gas estimation failed")] [] [] [] [] in
  let j := mkJob "job-1" "processing" None None certs [] "t0" None None None
             None None in
  exists l h',
    BlockchainService.issueBatchLocals certs None (mkHeap w j) = (Ok l, h')
    /\ BlockchainService.batchTrace certs None (mkHeap w j)
       = [BlockchainService.mkEvent 7 BlockchainService.Rejected (Some 9%Z)]
    /\ BlockchainService.acceptedCount
         (BlockchainService.batchTrace certs None (mkHeap w j)) = 0
    /\ BlockchainService.nonce l = 9%Z
    /\ BlockchainService.nonce l <> (7 + 0)%Z.
Proof.
  intros certs w j. eexists _, _.
  split; [vm_compute; reflexivity |]. cbn [BlockchainService.nonce].
  split; [vm_compute; reflexivity |]. split; [vm_compute; reflexivity |].
  split; [reflexivity | discriminate].
Qed.

(** C2 at a failing input. One record: the node accepts the submission,
    the wait for its confirmation fails, and the provider still answers
    the pending nonce 7 that it answered at the start. The shared [catch]
    block asks the node again (both scripted answers are used up) and
    overwrites the cursor: the increment made at acceptance is lost and
    the cursor is 7 again, not 8. *)
Theorem issueBatch_resyncs_after_acceptance :
  let certs := [Scripted.sampleRow "Alice Johnson" "STU-1" "a@example.com"] in
  let w :=
    Scripted.mkScript 0 2026 [] [Ok 7%Z; Ok 7%Z]
      [Ok (mkTx "0xaa")] [Throw (Scripted.revert "execution reverted")]
      [] [] [] in
  let j := mkJob "job-1" "processing" None None certs [] "t0" None None None
             None None in
  exists l h',
    BlockchainService.issueBatchLocals certs None (mkHeap w j) = (Ok l, h')
    /\ BlockchainService.batchTrace certs None (mkHeap w j)
       = [BlockchainService.mkEvent 7 BlockchainService.Reverted (Some 7%Z)]
    /\ Scripted.nonces (world h') = []
    /\ BlockchainService.nonce l = 7%Z
    /\ BlockchainService.nonce l <> (7 + 1)%Z.
Proof.
  intros certs w j. eexists _, _.
  split; [vm_compute; reflexivity |].
  cbn [BlockchainService.nonce world Scripted.nonces].
  split; [vm_compute; reflexivity |]. split; [reflexivity |].
  split; [reflexivity | discriminate].
Qed.

(** ** The pipeline *)

Section PipelineFacts.

Context {World : Type} `{Services World}.

Import BulkController.

Lemma gets_Ok {A} (f : Heap World -> A) h a h1 :
  gets f h = (Ok a, h1) -> a = f h /\ h1 = h.
Proof. unfold gets. intros [= <- <-]. auto. Qed.

(** *** What keeps the input part of the records *)

Lemma sameRecords_heap certs (h : Heap World) (w : World) (j : Job) :
  records j = records (job h) -> sameRecords certs h ->
  sameRecords certs (mkHeap w j).
Proof. unfold sameRecords. cbn [job]. intros ->. auto. Qed.

Lemma keeps_call {A} certs (op : World -> Outcome A * World) :
  preserves (sameRecords (World:=World) certs) (call op).
Proof.
  intros h Hh. unfold call. destruct (op (world h)) as [r w]. cbn [snd].
  apply (sameRecords_heap certs h); [reflexivity | exact Hh].
Qed.

Lemma keeps_ask {A} certs (op : World -> A * World) :
  preserves (sameRecords (World:=World) certs) (ask op).
Proof.
  intros h Hh. unfold ask. destruct (op (world h)) as [r w]. cbn [snd].
  apply (sameRecords_heap certs h); [reflexivity | exact Hh].
Qed.

Lemma keeps_updateJob certs (f : Job -> Job) :
  (forall j, records (f j) = records j) ->
  preserves (sameRecords (World:=World) certs) (updateJob f).
Proof.
  intros Hf h Hh. unfold updateJob, modify. cbn [snd].
  apply (sameRecords_heap certs h); [apply Hf | exact Hh].
Qed.

Lemma keeps_updateCert certs i (f : Cert -> Cert) :
  (forall c, identity (f c) = identity c) ->
  preserves (sameRecords (World:=World) certs) (updateCert i f).
Proof.
  intros Hf h Hh. unfold updateCert, updateJob, modify, sameRecords in *.
  cbn [snd job records set_records]. rewrite <- Hh.
  rewrite (list_fmap_alter identity f id);
    [| apply Forall_forall; intros c _; apply Hf].
  apply list_alter_id. reflexivity.
Qed.

Local Hint Resolve keeps_call keeps_ask : keeps.

Lemma keeps_setProgress certs name cur tot pct :
  preserves (sameRecords (World:=World) certs) (setProgress name cur tot pct).
Proof. apply keeps_updateJob. reflexivity. Qed.

Lemma keeps_progressCallback certs name p :
  preserves (sameRecords (World:=World) certs)
    (updateJob (set_progress (withPhase name p))).
Proof. apply keeps_updateJob. reflexivity. Qed.

Local Hint Resolve keeps_setProgress keeps_progressCallback : keeps.

Lemma keeps_generateCertificateId certs :
  preserves (sameRecords (World:=World) certs)
    BlockchainService.generateCertificateId.
Proof. unfold BlockchainService.generateCertificateId. eauto 10 with keeps. Qed.

Lemma keeps_readCert certs i :
  preserves (sameRecords (World:=World) certs) (readCert i).
Proof.
  unfold readCert. apply preserves_bind; [apply preserves_gets |].
  intros cs. destruct (cs !! i); auto with keeps.
Qed.

Local Hint Resolve keeps_generateCertificateId keeps_readCert : keeps.

Lemma keeps_generateIds certs n i :
  preserves (sameRecords (World:=World) certs) (generateIds n i).
Proof.
  revert i. induction n as [|n IH]; intros i; cbn [generateIds];
    [auto with keeps |].
  apply preserves_bind; [auto with keeps |]. intros cert.
  apply preserves_bind; [| intros _; apply IH].
  destruct (Js.falsy (certId cert)); [| auto with keeps].
  apply preserves_bind; [auto with keeps |]. intros newId.
  apply keeps_updateCert. reflexivity.
Qed.

Lemma keeps_phaseIds certs :
  preserves (sameRecords (World:=World) certs) phaseIds.
Proof.
  unfold phaseIds. apply preserves_bind; [apply preserves_gets |].
  intros n. apply preserves_bind; [auto with keeps |].
  intros _. apply keeps_generateIds.
Qed.

Lemma keeps_pdfLoop certs templateName name total i cs acc :
  preserves (sameRecords (World:=World) certs)
    (PdfService.pdfLoop templateName
       (Some (fun p => updateJob (set_progress (withPhase name p))))
       total i cs acc).
Proof.
  revert i acc. induction cs as [|c cs IH]; intros i acc;
    cbn [PdfService.pdfLoop]; [auto with keeps |].
  apply preserves_bind; [eauto 10 with keeps |]. intros r.
  apply preserves_bind; [auto with keeps | intros _; apply IH].
Qed.

Lemma keeps_bulkGeneratePDFs certs templateName name cs :
  preserves (sameRecords (World:=World) certs)
    (PdfService.bulkGeneratePDFs templateName cs
       (Some (fun p => updateJob (set_progress (withPhase name p))))).
Proof.
  unfold PdfService.bulkGeneratePDFs.
  apply preserves_bind; [auto with keeps |]. intros _.
  apply preserves_tryFinally; [apply keeps_pdfLoop | auto with keeps].
Qed.

Lemma keeps_storeStep certs pdfResults n i :
  preserves (sameRecords (World:=World) certs) (storeStep pdfResults n i).
Proof.
  unfold storeStep. apply preserves_bind.
  { destruct (pdfResults !! i); auto with keeps. }
  intros pdfResult. apply preserves_bind; [| auto with keeps].
  destruct (pdfBuffer pdfResult) as [buffer|]; [| auto with keeps].
  destruct (String.eqb _ _); [| auto with keeps].
  apply preserves_tryCatch.
  - unfold tryStore, IpfsService.computeContentHash.
    apply preserves_bind; [auto with keeps |]. intros docHash.
    apply preserves_bind; [apply keeps_updateCert; reflexivity |]. intros _.
    apply preserves_bind; [auto with keeps |]. intros cert.
    apply preserves_bind.
    { unfold IpfsService.uploadBuffer. destruct (negb _); eauto 10 with keeps. }
    intros ipfsResult.
    repeat (apply preserves_bind;
            [apply keeps_updateCert; reflexivity | intros _]).
    apply keeps_updateCert; reflexivity.
  - intros err. unfold catchStore.
    apply preserves_bind; [apply keeps_updateCert; reflexivity | intros _].
    apply keeps_updateCert; reflexivity.
Qed.

Lemma keeps_storeLoop certs pdfResults total n i :
  preserves (sameRecords (World:=World) certs) (storeLoop pdfResults total n i).
Proof.
  revert i. induction n as [|n IH]; intros i; cbn [storeLoop];
    [auto with keeps |].
  apply preserves_bind; [apply keeps_storeStep | intros _; apply IH].
Qed.

(** If [m] returns from [h], the property it keeps holds afterwards. *)
Lemma preserves_Ok {A} (I : Heap World -> Prop) (m : M (Heap World) A)
    h a h1 :
  preserves I m -> I h -> m h = (Ok a, h1) -> I h1.
Proof. intros Hm Hh Hrun. specialize (Hm h Hh). rewrite Hrun in Hm. exact Hm. Qed.


(** *** The chain phase inside the pipeline *)

Lemma issueBatch_Ok certs onProgress (h h' : Heap World) bc :
  callbackReturns onProgress ->
  BlockchainService.issueBatch certs onProgress h = (Ok bc, h') ->
  length (results bc) = length certs
  /\ (forall k r, results bc !! k = Some r ->
       exists cert, certs !! k = Some cert /\ index r = k
                    /\ resultCertId r = certId cert /\ terminalOutcome r).
Proof.
  intros Hcb Hrun. unfold BlockchainService.issueBatch in Hrun.
  apply bind_Ok in Hrun as (l & h1 & Hlocals & Hret).
  injection Hret as <- <-. cbn [results].
  unfold BlockchainService.issueBatchLocals in Hlocals.
  apply bind_Ok in Hlocals as (nonce0 & h0 & Hn & Hloc).
  destruct (issueLoop_results onProgress (length certs) certs Hcb 0 h0
              (BlockchainService.mkLocals [] 0 0 nonce0))
    as (h2 & l2 & rs & Hloop & Hres & Hlen & Hall & _).
  unfold withLocals in Hloc. rewrite (bind_step _ _ _ _ _ Hloop) in Hloc.
  cbn in Hloc. injection Hloc as <- _. cbn in Hres. subst rs.
  split; [exact Hlen | exact Hall].
Qed.

Lemma progressCallback_returns name :
  callbackReturns (World:=World)
    (Some (fun p => updateJob (set_progress (withPhase name p)))).
Proof. intros p h. eexists _, _. reflexivity. Qed.

(** *** The end of the pipeline *)

Lemma finishJob_Ok n compiled jobSummary (h h' : Heap World) :
  finishJob n compiled jobSummary h = (Ok tt, h') ->
  jobStatus (job h') = "completed" /\ jobResults (job h') = Some compiled.
Proof.
  unfold finishJob, cleanUp, setProgress, bind, updateJob, modify, ask, gets,
    tryCatch, call, ret.
  cbn [world job]. destruct (nowISO (world h)) as [stamp w1]. cbn [world job].
  cbn [filePath set_progress set_summary set_completedAt set_jobResults
       set_jobStatus].
  destruct (Js.truthy (filePath (job h))).
  - cbn [world job]. destruct (removeUpload _ w1) as [[u|e] w2];
      intros Heq; inversion Heq; split; reflexivity.
  - intros Heq; inversion Heq; split; reflexivity.
Qed.

(** *** The QR phase *)

Lemma qrLoop_ids cs acc (h h' : Heap World) rs :
  QrService.qrLoop cs acc h = (Ok rs, h') ->
  qrCertId <$> rs = (qrCertId <$> acc) ++ (certId <$> cs).
Proof.
  revert acc h. induction cs as [|c cs IH]; intros acc h Hrun;
    cbn [QrService.qrLoop] in Hrun.
  - injection Hrun as <- _. cbn. rewrite app_nil_r. reflexivity.
  - apply bind_Ok in Hrun as (r & h1 & Hr & Hrest).
    apply IH in Hrest. rewrite Hrest, fmap_app, <- app_assoc.
    f_equal. cbn. f_equal.
    unfold tryCatch, bind, call, ret in Hr.
    destruct (saveQRToFile _ _ (world h)) as [[f|e] w1];
      injection Hr as <- _; reflexivity.
Qed.

(** *** A completed run *)

Lemma processPipeline_Ok templateName sendEmails (h h' : Heap World) :
  processPipeline templateName sendEmails h = (Ok tt, h') ->
  exists certs chain pdfResults qrResults,
    identity <$> certs = identity <$> records (job h)
    /\ length chain = length certs
    /\ (forall k r, chain !! k = Some r ->
         exists cert, certs !! k = Some cert /\ index r = k
                      /\ resultCertId r = certId cert /\ terminalOutcome r)
    /\ qrCertId <$> qrResults
       = certId <$> filterIndexed (fun _ i => chainSucceeded chain i) 0 certs
    /\ jobStatus (job h') = "completed"
    /\ jobResults (job h')
       = Some (compileResults certs 0 chain pdfResults qrResults).
Proof.
  intros Hrun. unfold processPipeline in Hrun.
  assert (sameRecords (records (job h)) h) as Hsame by reflexivity.
  apply bind_Ok in Hrun as (u1 & h1 & Hids & Hrun).
  apply (preserves_Ok _ _ _ _ _ (keeps_phaseIds _) Hsame) in Hids.
  apply bind_Ok in Hrun as (n & h2 & Hn & Hrun).
  apply gets_Ok in Hn as [-> ->].
  apply bind_Ok in Hrun as (u2 & h3 & Hp2 & Hrun).
  apply (preserves_Ok _ _ _ _ _ (keeps_setProgress _ _ _ _ _) Hids) in Hp2.
  apply bind_Ok in Hrun as (certs2 & h4 & Hc2 & Hrun).
  apply gets_Ok in Hc2 as [-> ->].
  apply bind_Ok in Hrun as (pdfResults & h5 & Hpdf & Hrun).
  apply (preserves_Ok _ _ _ _ _ (keeps_bulkGeneratePDFs _ _ _ _) Hp2) in Hpdf.
  apply bind_Ok in Hrun as (u3 & h6 & Hp3 & Hrun).
  apply (preserves_Ok _ _ _ _ _ (keeps_setProgress _ _ _ _ _) Hpdf) in Hp3.
  apply bind_Ok in Hrun as (u4 & h7 & Hstore & Hrun).
  apply (preserves_Ok _ _ _ _ _ (keeps_storeLoop _ _ _ _ _) Hp3) in Hstore.
  apply bind_Ok in Hrun as (u5 & h8 & Hp4 & Hrun).
  apply (preserves_Ok _ _ _ _ _ (keeps_setProgress _ _ _ _ _) Hstore) in Hp4.
  apply bind_Ok in Hrun as (certs & h9 & Hc & Hrun).
  apply gets_Ok in Hc as [-> ->].
  apply bind_Ok in Hrun as (bc & h10 & Hchain & Hrun).
  apply (issueBatch_Ok _ _ _ _ _ (progressCallback_returns _)) in Hchain
    as [Hlen Hall].
  apply bind_Ok in Hrun as (u6 & h11 & _ & Hrun).
  apply bind_Ok in Hrun as (qrResults & h12 & Hqr & Hrun).
  apply qrLoop_ids in Hqr.
  apply bind_Ok in Hrun as (emailResults & h13 & _ & Hrun).
  apply finishJob_Ok in Hrun as [Hstatus Hresults].
  exists (records (job h8)), (results bc), pdfResults, qrResults.
  split; [exact Hp4 |]. split; [exact Hlen |]. split; [exact Hall |].
  split; [exact Hqr |]. split; [exact Hstatus | exact Hresults].
Qed.

(** *** The compiled results *)

Lemma compileResults_length certs i chain pdfResults qrResults :
  length (compileResults certs i chain pdfResults qrResults) = length certs.
Proof.
  revert i. induction certs as [|c certs IH]; intros i; cbn;
    [reflexivity | rewrite IH; reflexivity].
Qed.

Lemma compileResults_lookup certs i chain pdfResults qrResults k entry :
  compileResults certs i chain pdfResults qrResults !! k = Some entry ->
  exists cert,
    certs !! k = Some cert
    /\ entry = compileEntry cert (chain !! (i + k)) (pdfResults !! (i + k))
                 (find (fun q => strictEq (qrCertId q) (certId cert))
                    qrResults).
Proof.
  revert i k. induction certs as [|c certs IH]; intros i k Hk; [discriminate |].
  destruct k as [|k]; cbn in Hk.
  - injection Hk as <-. exists c. rewrite Nat.add_0_r. auto.
  - destruct (IH (S i) k Hk) as (cert & Hc & ->). exists cert.
    replace (i + S k) with (S i + k) by lia. auto.
Qed.

End PipelineFacts.

Section ResultFacts.

Import BulkController.

Lemma compileResults_rows certs i chain pdfResults qrResults :
  entryRow <$> compileResults certs i chain pdfResults qrResults
  = _row <$> certs.
Proof.
  revert i. induction certs as [|c certs IH]; intros i; cbn;
    [reflexivity | rewrite IH; reflexivity].
Qed.

Lemma identity_rows (l1 l2 : list Cert) :
  identity <$> l1 = identity <$> l2 -> _row <$> l1 = _row <$> l2.
Proof.
  intros Heq.
  assert (forall l : list Cert,
            _row <$> l = (fun t => t.1.1.1.1.1.1) <$> (identity <$> l)) as Hrow.
  { intros l. rewrite <- list_fmap_compose. reflexivity. }
  rewrite (Hrow l1), (Hrow l2), Heq. reflexivity.
Qed.

Lemma identity_lookup (l1 l2 : list Cert) k c1 :
  identity <$> l1 = identity <$> l2 -> l1 !! k = Some c1 ->
  exists c2, l2 !! k = Some c2 /\ identity c1 = identity c2.
Proof.
  intros Heq Hk.
  assert ((identity <$> l2) !! k = Some (identity c1)) as Hk2.
  { rewrite <- Heq, list_lookup_fmap, Hk. reflexivity. }
  rewrite list_lookup_fmap in Hk2.
  destruct (l2 !! k) as [c2|]; [| discriminate].
  cbn [fmap option_fmap option_map] in Hk2. exists c2.
  split; [reflexivity | congruence].
Qed.

End ResultFacts.

(** C5. A batch uploaded as [rows] for which [processBatch] starts the
    pipeline, and whose pipeline runs to its end without an exception
    escaping a phase (the job does not end [failed]), is reported by
    [getJobStatus] as [completed], with exactly one result entry per
    valid record, in the order of the valid records, each carrying the
    1-based number of the input row it came from together with that row's
    student. Nothing is assumed about how many records succeeded at any
    stage. *)
Theorem completed_job_reports_every_record
    {World : Type} `{Services World} (rows : list Cert)
    (id path name stamp templateName : string) (sendEmails : bool)
    (jobs jobs' : gmap string Job) (w w' : World) (started : nat) :
  let validation := Validator.validateBatch parseDate rows in
  let uploaded :=
    <[id := BulkController.newJob id path name stamp validation]> jobs in
  id <> "" ->
  BulkController.processBatch (Some id) templateName sendEmails uploaded w
  = (BulkController.ProcessStarted id started, jobs', w') ->
  jobStatus <$> jobs' !! id <> Some "failed" ->
  exists resp entries,
    BulkController.getJobStatus jobs' id = Some resp
    /\ BulkController.respStatus resp = "completed"
    /\ BulkController.respResults resp = Some entries
    /\ length entries = Validator.validCount validation
    /\ started = Validator.validCount validation
    /\ entryRow <$> entries = _row <$> Validator.batchValid validation
    /\ (forall k entry, entries !! k = Some entry ->
        exists i c,
          rows !! i = Some c
          /\ Validator.errors (Validator.validateCertificate parseDate c i) = []
          /\ entryRow entry = Some (i + 1)
          /\ entryStudentName entry = studentName c
          /\ entryStudentId entry = studentId c).
Proof.
  intros validation uploaded Hid Hstart Hnot.
  unfold BulkController.processBatch in Hstart.
  assert (Js.falsy (Some id) = false) as Hfalsy.
  { cbn. apply String.eqb_neq. exact Hid. }
  rewrite Hfalsy in Hstart. cbn [Js.orEmpty] in Hstart.
  subst uploaded. rewrite lookup_insert_eq in Hstart.
  cbn [jobStatus BulkController.newJob String.eqb Ascii.eqb Bool.eqb records]
    in Hstart.
  destruct (length (Validator.batchValid validation) =? 0) eqn:Hempty;
    [discriminate |].
  injection Hstart as Hcount Hjobs _. subst jobs'.
  rewrite lookup_insert_eq in Hnot. cbn [fmap option_fmap option_map] in Hnot.
  unfold BulkController.getJobStatus. rewrite lookup_insert_eq.
  cbn [fmap option_fmap option_map].
  unfold BulkController.runPipeline in *.
  set (j := BulkController.startJob _) in *.
  destruct (BulkController.processPipeline templateName sendEmails
              (mkHeap w j)) as [[[]|e] h'] eqn:Hrun;
    [| exfalso; apply Hnot; reflexivity].
  destruct (processPipeline_Ok templateName sendEmails (mkHeap w j) h' Hrun)
    as (certs & chain & pdfResults & qrResults & Hsame & _ & _ & _ & Hstatus
        & Hres).
  cbn [job] in Hsame. subst j.
  change (records (BulkController.startJob
                     (BulkController.newJob id path name stamp validation)))
    with (Validator.batchValid validation) in Hsame.
  exists (BulkController.statusOf (job h')),
         (BulkController.compileResults certs 0 chain pdfResults qrResults).
  split; [reflexivity |].
  unfold BulkController.statusOf.
  cbn [BulkController.respStatus BulkController.respResults].
  rewrite Hstatus. cbn [String.eqb Ascii.eqb Bool.eqb].
  split; [reflexivity |]. split; [exact Hres |].
  split.
  { rewrite compileResults_length.
    rewrite <- (length_fmap identity certs), Hsame, length_fmap. reflexivity. }
  split; [symmetry; exact Hcount |].
  split.
  { rewrite compileResults_rows. apply identity_rows. exact Hsame. }
  intros k entry Hk.
  apply compileResults_lookup in Hk as (cert & Hcert & ->).
  destruct (identity_lookup _ _ k cert Hsame Hcert) as (c0 & Hc0 & Heq).
  assert (c0 ∈ Validator.validRecords
                 (Validator.validateLoop parseDate Validator.emptyAcc 0 rows))
    as Hin.
  { apply list_elem_of_lookup. exists k. exact Hc0. }
  apply validateLoop_valid in Hin as [Hin | (i & c & Hi & He & ->)];
    [inversion Hin |].
  exists i, c. split; [exact Hi |]. split; [exact He |].
  unfold identity in Heq. injection Heq as Hrow Hname Hsid _ _ _ _.
  cbn [BulkController.compileEntry entryRow entryStudentName entryStudentId].
  rewrite Hrow, Hname, Hsid. repeat split.
Qed.

(** Three rows, the second with an unparsable date; no document renders
    and the node refuses both submissions: nothing succeeds at any stage
    and the job is still [completed], with the entries of rows 1 and 3. *)
Lemma completed_job_reports_every_record_witness :
  let rows :=
    [Scripted.sampleRow "Alice Johnson" "STU-1" "a@example.com";
     rawRow (Some "Bob Smith") (Some "STU-2") (Some "MBA") (Some "Harvard")
       (Some "bad") (Some "b@example.com");
     Scripted.sampleRow "Carol Williams" "STU-3" "c@example.com"] in
  let w :=
    Scripted.mkScript 0 2026 ["0.abc123"; "0.k3x9zz"]
      [Ok 7%Z; Ok 7%Z; Ok 7%Z]
      [Throw (Scripted.revert "gas estimation failed");
       Throw (Scripted.revert "gas estimation failed")]
      []
      [Throw (plainError "render timeout"); Throw (plainError "render timeout")]
      [] [] in
  let uploaded : gmap string Job :=
    {["job-1" :=
        BulkController.newJob "job-1" "/up/f.csv" "f.csv" "t0"
          (Validator.validateBatch Scripted.scriptedParseDate rows)]} in
  let run :=
    BulkController.processBatch (Some "job-1") "default-certificate" false
      uploaded w in
  (exists resp entries,
     BulkController.getJobStatus run.1.2 "job-1" = Some resp
     /\ BulkController.respStatus resp = "completed"
     /\ BulkController.respResults resp = Some entries
     /\ length entries = 2
     /\ entryRow <$> entries = [Some 1; Some 3])
  /\ (fun s => (blockchainSuccess s, pdfsGenerated s, qrCodesGenerated s))
       <$> (run.1.2 !! "job-1" ≫= summary)
     = Some (0, 0, 0).
Proof.
  intros rows w uploaded run. split; [| vm_compute; reflexivity].
  edestruct (completed_job_reports_every_record (World:=Scripted.Script) rows
               "job-1" "/up/f.csv" "f.csv" "t0" "default-certificate" false
               ∅ run.1.2 w run.2 2)
    as (resp & entries & Hget & Hstatus & Hres & Hlen & _ & Hrows & _).
  - discriminate.
  - vm_compute. reflexivity.
  - vm_compute. discriminate.
  - exists resp, entries. split; [exact Hget |]. split; [exact Hstatus |].
    split; [exact Hres |]. split; [exact Hlen | exact Hrows].
Defined.

Section ChainPhase.

Context {World : Type} `{Services World}.

Import BulkController.

(** The chain phase of a completed run: the heap [hc] in which
    [issueBatch] is called, on the whole record array as it then is, and
    what the final results are compiled from. *)
Lemma processPipeline_chain templateName sendEmails (h h' : Heap World) :
  processPipeline templateName sendEmails h = (Ok tt, h') ->
  exists hc bc h2 pdfResults qrResults,
    identity <$> records (job hc) = identity <$> records (job h)
    /\ BlockchainService.issueBatch (records (job hc))
         (Some (fun p =>
                  updateJob (set_progress (withPhase "blockchain_issuance" p))))
         hc = (Ok bc, h2)
    /\ jobResults (job h')
       = Some (compileResults (records (job hc)) 0 (results bc) pdfResults
                 qrResults).
Proof.
  intros Hrun. unfold processPipeline in Hrun.
  assert (sameRecords (records (job h)) h) as Hsame by reflexivity.
  apply bind_Ok in Hrun as (u1 & h1 & Hids & Hrun).
  apply (preserves_Ok _ _ _ _ _ (keeps_phaseIds _) Hsame) in Hids.
  apply bind_Ok in Hrun as (n & h2 & Hn & Hrun).
  apply gets_Ok in Hn as [-> ->].
  apply bind_Ok in Hrun as (u2 & h3 & Hp2 & Hrun).
  apply (preserves_Ok _ _ _ _ _ (keeps_setProgress _ _ _ _ _) Hids) in Hp2.
  apply bind_Ok in Hrun as (certs2 & h4 & Hc2 & Hrun).
  apply gets_Ok in Hc2 as [-> ->].
  apply bind_Ok in Hrun as (pdfResults & h5 & Hpdf & Hrun).
  apply (preserves_Ok _ _ _ _ _ (keeps_bulkGeneratePDFs _ _ _ _) Hp2) in Hpdf.
  apply bind_Ok in Hrun as (u3 & h6 & Hp3 & Hrun).
  apply (preserves_Ok _ _ _ _ _ (keeps_setProgress _ _ _ _ _) Hpdf) in Hp3.
  apply bind_Ok in Hrun as (u4 & h7 & Hstore & Hrun).
  apply (preserves_Ok _ _ _ _ _ (keeps_storeLoop _ _ _ _ _) Hp3) in Hstore.
  apply bind_Ok in Hrun as (u5 & h8 & Hp4 & Hrun).
  apply (preserves_Ok _ _ _ _ _ (keeps_setProgress _ _ _ _ _) Hstore) in Hp4.
  apply bind_Ok in Hrun as (certs & h9 & Hc & Hrun).
  apply gets_Ok in Hc as [-> ->].
  apply bind_Ok in Hrun as (bc & h10 & Hchain & Hrun).
  apply bind_Ok in Hrun as (u6 & h11 & _ & Hrun).
  apply bind_Ok in Hrun as (qrResults & h12 & Hqr & Hrun).
  apply bind_Ok in Hrun as (emailResults & h13 & _ & Hrun).
  apply finishJob_Ok in Hrun as [_ Hresults].
  exists h8, bc, h10, pdfResults, qrResults.
  split; [exact Hp4 |]. split; [exact Hchain | exact Hresults].
Qed.

End ChainPhase.

(** C3, as the code has it. The chain phase is handed every record of the
    batch, whether or not its document was rendered: in a completed job
    [issueBatch] was called on the whole record array (the records of the
    batch, in order, with the fields that the earlier phases attached),
    every record was submitted to the node in its turn, and the record's
    result carries the outcome of that submission: the status, the
    transaction hash, block number and gas of a confirmed submission, or
    the reason of a failed one. The status is [success] or [failed] and
    never [skipped]. The record's document status plays no part. *)
Theorem every_record_is_submitted
    {World : Type} `{Services World} (templateName : string)
    (sendEmails : bool) (h h' : Heap World) :
  BulkController.processPipeline templateName sendEmails h = (Ok tt, h') ->
  let onProgress :=
    Some (fun p =>
            updateJob
              (set_progress
                 (BulkController.withPhase "blockchain_issuance" p))) in
  exists entries hc bc h2 nonce0 h0,
    jobResults (job h') = Some entries
    /\ length entries = length (records (job h))
    /\ identity <$> records (job hc) = identity <$> records (job h)
    /\ BlockchainService.issueBatch (records (job hc)) onProgress hc
       = (Ok bc, h2)
    /\ call getNonce hc = (Ok nonce0, h0)
    /\ (forall k entry, entries !! k = Some entry ->
        exists cert r,
          records (job hc) !! k = Some cert
          /\ results bc !! k = Some r
          /\ (let s := reached onProgress (length (records (job hc))) 0
                         (records (job hc))
                         (h0, BlockchainService.mkLocals [] 0 0 nonce0) k in
              reportsSubmission cert (BlockchainService.nonce (snd s))
                (world (fst s)) r)
          /\ blockchain entry
             = mkChainOutcome (status r)
                 (BulkController.strOrNull (txHash r))
                 (BulkController.numOrNull (blockNumber r))
                 (BulkController.numOrNull (gasUsed r))
                 (BulkController.strOrNull (error r))
          /\ (outStatus (blockchain entry) = "success"
              \/ outStatus (blockchain entry) = "failed")).
Proof.
  intros Hrun onProgress.
  destruct (processPipeline_chain templateName sendEmails h h' Hrun)
    as (hc & bc & h2 & pdfResults & qrResults & Hid & Hchain & Hres).
  fold onProgress in Hchain.
  pose proof (progressCallback_returns (World:=World) "blockchain_issuance")
    as Hcb. fold onProgress in Hcb.
  destruct (issueBatch_reports _ _ _ _ _ Hcb Hchain)
    as (nonce0 & h0 & Hn & Hrep).
  destruct (issueBatch_Ok _ _ _ _ _ Hcb Hchain) as [Hlen Hall].
  exists (BulkController.compileResults (records (job hc)) 0 (results bc)
            pdfResults qrResults), hc, bc, h2, nonce0, h0.
  split; [exact Hres |]. split.
  { rewrite compileResults_length.
    rewrite <- (length_fmap identity (records (job hc))), Hid, length_fmap.
    reflexivity. }
  split; [exact Hid |]. split; [exact Hchain |]. split; [exact Hn |].
  intros k entry Hk.
  apply compileResults_lookup in Hk as (cert & Hcert & ->).
  destruct (Hrep k cert Hcert) as (r & Hr & Hsub).
  destruct (Hall k r Hr) as (_ & _ & _ & _ & Hterminal).
  exists cert, r. split; [exact Hcert |]. split; [exact Hr |].
  split; [exact Hsub |].
  cbn [BulkController.compileEntry blockchain outStatus].
  rewrite Nat.add_0_l, Hr.
  cbn [fmap option_fmap option_map mbind option_bind].
  assert (BulkController.strOr (Some (status r)) "skipped" = status r) as ->.
  { destruct Hterminal as [(Hs & _) | (Hs & _)]; rewrite Hs; reflexivity. }
  split; [reflexivity |].
  cbn [outStatus].
  destruct Hterminal as [(Hs & _) | (Hs & _)]; rewrite Hs; auto.
Qed.

(** Two records; the document of the second does not render. Both are
    submitted, and the result of the second carries the hash, block and
    gas of its own transaction. *)
Lemma every_record_is_submitted_witness :
  let w :=
    Scripted.mkScript 0 2026 ["0.abc123"; "0.k3x9zz"] [Ok 7%Z]
      [Ok (mkTx "0xaa"); Ok (mkTx "0xbb")]
      [Ok (mkReceipt 100 21000); Ok (mkReceipt 101 21000)]
      [Ok Scripted.samplePdf; Throw (plainError "render timeout")]
      [Ok Scripted.sampleQr; Ok Scripted.sampleQr] [] in
  let j :=
    BulkController.newJob "job-1" "/up/f.csv" "f.csv" "t0"
      (Validator.validateBatch Scripted.scriptedParseDate
         [Scripted.sampleRow "Alice Johnson" "STU-1" "a@example.com";
          Scripted.sampleRow "Bob Smith" "STU-2" "b@example.com"]) in
  exists h' entries,
    BulkController.processPipeline "default-certificate" false (mkHeap w j)
    = (Ok tt, h')
    /\ jobResults (job h') = Some entries
    /\ length entries = 2
    /\ (forall k entry, entries !! k = Some entry ->
        outStatus (blockchain entry) = "success"
        \/ outStatus (blockchain entry) = "failed")
    /\ (fun e => (outPdfStatus (pdf e), blockchain e))
         <$> default [] (jobResults (job h'))
       = [("success",
           mkChainOutcome "success" (Some "0xaa") (Some 100%Z) (Some 21000%Z)
             None);
          ("failed",
           mkChainOutcome "success" (Some "0xbb") (Some 101%Z) (Some 21000%Z)
             None)].
Proof.
  intros w j.
  assert (exists h',
            BulkController.processPipeline "default-certificate" false
              (mkHeap w j) = (Ok tt, h')
            /\ (fun e => (outPdfStatus (pdf e), blockchain e))
                 <$> default [] (jobResults (job h'))
               = [("success",
                   mkChainOutcome "success" (Some "0xaa") (Some 100%Z)
                     (Some 21000%Z) None);
                  ("failed",
                   mkChainOutcome "success" (Some "0xbb") (Some 101%Z)
                     (Some 21000%Z) None)])
    as (h' & Hrun & Hvals)
    by (eexists; vm_compute; split; reflexivity).
  destruct (every_record_is_submitted (World:=Scripted.Script)
              "default-certificate" false (mkHeap w j) h' Hrun)
    as (entries & hc & bc & h2 & nonce0 & h0 & Hres & Hlen & _ & _ & _ & Hall).
  exists h', entries. split; [exact Hrun |]. split; [exact Hres |].
  split; [exact Hlen |]. split; [| exact Hvals].
  intros k entry Hk.
  destruct (Hall k entry Hk) as (cert & r & _ & _ & _ & _ & Hst). exact Hst.
Defined.

(** C3 as stated fails. A batch of one record whose document does not
    render: the record is submitted all the same (the only scripted
    transaction is spent on it) and its result shows the failed document
    next to a transaction hash, a block number and a gas value. *)
Lemma failed_document_is_still_submitted :
  let w :=
    Scripted.mkScript 0 2026 ["0.abc123"] [Ok 7%Z] [Ok (mkTx "0xaa")]
      [Ok (mkReceipt 100 21000)] [Throw (plainError "render timeout")]
      [Ok Scripted.sampleQr] [] in
  let j :=
    BulkController.newJob "job-1" "/up/f.csv" "f.csv" "t0"
      (Validator.validateBatch Scripted.scriptedParseDate
         [Scripted.sampleRow "Alice Johnson" "STU-1" "a@example.com"]) in
  let h := BulkController.runPipeline "default-certificate" false (mkHeap w j) in
  jobStatus (job h) = "completed"
  /\ Scripted.sends (world h) = []
  /\ ((fun r => (outPdfStatus (pdf r), blockchain r))
        <$> default [] (jobResults (job h)))
     = [("failed",
         mkChainOutcome "success" (Some "0xaa") (Some 100%Z) (Some 21000%Z)
           None)].
Proof. vm_compute. repeat split. Qed.

(** ** The QR gate *)

Section QrGate.

Context {World : Type} `{Services World}.

Import BulkController.

Lemma filterIndexed_elem {A} (keep : A -> nat -> bool) i (l : list A) x :
  x ∈ filterIndexed keep i l ->
  exists k, l !! k = Some x /\ keep x (i + k) = true.
Proof.
  revert i. induction l as [|y l IH]; intros i Hin; cbn in Hin;
    [inversion Hin |].
  destruct (keep y i) eqn:Hy.
  - apply elem_of_cons in Hin as [-> | Hin].
    + exists 0. rewrite Nat.add_0_r. auto.
    + destruct (IH (S i) Hin) as (k & Hk & Hkeep). exists (S k).
      replace (i + S k) with (S i + k) by lia. auto.
  - destruct (IH (S i) Hin) as (k & Hk & Hkeep). exists (S k).
    replace (i + S k) with (S i + k) by lia. auto.
Qed.

Lemma find_found {A} (pred : A -> bool) (l : list A) q :
  find pred l = Some q -> q ∈ l /\ pred q = true.
Proof.
  induction l as [|y l IH]; cbn; [discriminate |].
  destruct (pred y) eqn:Hy.
  - intros [= ->]. split; [apply list_elem_of_here | exact Hy].
  - intros Hq. destruct (IH Hq) as [Hin Hp].
    split; [apply list_elem_of_further; exact Hin | exact Hp].
Qed.

Lemma compileResults_ids certs i chain pdfResults qrResults :
  entryCertId <$> compileResults certs i chain pdfResults qrResults
  = certId <$> certs.
Proof.
  revert i. induction certs as [|c certs IH]; intros i; cbn;
    [reflexivity | rewrite IH; reflexivity].
Qed.

(** Where the identifiers in the final results are pairwise distinct, the
    join by identifier is a join by position: a record whose chain stage
    did not succeed has no QR code in its result. *)
Lemma unissued_record_has_no_qr templateName sendEmails (h h' : Heap World) :
  processPipeline templateName sendEmails h = (Ok tt, h') ->
  exists entries,
    jobResults (job h') = Some entries
    /\ (NoDup (entryCertId <$> entries) ->
        forall k entry, entries !! k = Some entry ->
        outStatus (blockchain entry) <> "success" ->
        qr entry = mkQrOutcome "skipped" None).
Proof.
  intros Hrun.
  destruct (processPipeline_Ok templateName sendEmails h h' Hrun)
    as (certs & chain & pdfResults & qrResults & _ & _ & _ & Hqr & _ & Hres).
  eexists. split; [exact Hres |].
  rewrite compileResults_ids. intros Hdistinct k entry Hk Hstatus.
  apply compileResults_lookup in Hk as (cert & Hcert & ->).
  cbn [compileEntry blockchain outStatus qr] in *. rewrite Nat.add_0_l in Hstatus.
  destruct (find (fun q => strictEq (qrCertId q) (certId cert)) qrResults)
    as [q|] eqn:Hfind; [exfalso | reflexivity].
  apply find_found in Hfind as [Hq Hsame].
  unfold strictEq in Hsame. apply bool_decide_eq_true in Hsame.
  assert (certId cert ∈ qrCertId <$> qrResults) as Hin.
  { rewrite <- Hsame. apply list_elem_of_fmap. exists q. auto. }
  rewrite Hqr in Hin. apply list_elem_of_fmap in Hin as (c' & Hid & Hin).
  apply filterIndexed_elem in Hin as (k' & Hk' & Hkeep). cbn in Hkeep.
  assert (k = k') as <-.
  { apply (NoDup_lookup _ _ _ (certId cert) Hdistinct);
      rewrite list_lookup_fmap; [rewrite Hcert | rewrite Hk', Hid];
      reflexivity. }
  apply Hstatus. unfold chainSucceeded in Hkeep.
  destruct (chain !! k) as [r|]; [| discriminate].
  apply String.eqb_eq in Hkeep. cbn. rewrite Hkeep. reflexivity.
Qed.

End QrGate.

(** C8 at a failing input. Two records receive the same identifier (all
    identifiers of a batch are generated before anything is issued, so
    they share year and sequence and differ only in the three random
    characters, which repeat here). The first is issued; the node refuses
    the second. Only the first is handed to the QR service (the single
    scripted QR answer is enough), but the result of the second, joined
    by identifier, reports the QR code of the first as its own. *)
Theorem failed_record_reports_qr :
  let w :=
    Scripted.mkScript 0 2026 ["0.abc123"; "0.abc987"] [Ok 7%Z; Ok 8%Z]
      [Ok (mkTx "0xaa");
       Throw (Scripted.revert "Certificate already exists")]
      [Ok (mkReceipt 100 21000)]
      [Ok Scripted.samplePdf; Ok Scripted.samplePdf]
      [Ok Scripted.sampleQr] [] in
  let j :=
    BulkController.newJob "job-1" "/up/f.csv" "f.csv" "t0"
      (Validator.validateBatch Scripted.scriptedParseDate
         [Scripted.sampleRow "Alice Johnson" "STU-1" "a@example.com";
          Scripted.sampleRow "Bob Smith" "STU-2" "b@example.com"]) in
  let h := BulkController.runPipeline "default-certificate" false (mkHeap w j) in
  jobStatus (job h) = "completed"
  /\ (qrCodesGenerated <$> summary (job h)) = Some 1
  /\ ((fun r => (entryRow r, entryCertId r, outStatus (blockchain r), qr r))
        <$> default [] (jobResults (job h)))
     = [(Some 1, Some "CERT-2026-001-ABC", "success",
         mkQrOutcome "success" (Some "c.png"));
        (Some 2, Some "CERT-2026-001-ABC", "failed",
         mkQrOutcome "success" (Some "c.png"))].
Proof. vm_compute. repeat split. Qed.

(* ===================================================================== *)
(** * Further properties of the code                                      *)
(* ===================================================================== *)

(** ** The validator, row by row *)

Section RecordFacts.

Variable parseDate : string -> option Z.

Import Validator.

Lemma length_zero_string (s : string) : (String.length s =? 0) = true <-> s = "".
Proof.
  rewrite Nat.eqb_eq. destruct s; cbn; split; intros Hs;
    solve [reflexivity | discriminate].
Qed.

Lemma not_blank_iff (v : option string) :
  blank v = false <-> exists s, v = Some s /\ Js.trim s <> "".
Proof.
  unfold blank. destruct v as [s|]; cbn [Js.falsy Js.orEmpty].
  - rewrite orb_false_iff. split.
    + intros [_ Hlen]. exists s. split; [reflexivity |].
      intros Ht. apply length_zero_string in Ht. congruence.
    + intros (s' & [= <-] & Ht). split.
      * apply String.eqb_neq. intros ->. apply Ht. reflexivity.
      * destruct (String.length (Js.trim s) =? 0) eqn:Hlen; [| reflexivity].
        apply length_zero_string in Hlen. contradiction.
  - cbn. split; [discriminate | intros (s & Hs & _); discriminate].
Qed.

Lemma app_nil_iff {A} (l1 l2 : list A) : l1 ++ l2 = [] <-> l1 = [] /\ l2 = [].
Proof.
  split; [apply app_eq_nil | intros [-> ->]; reflexivity].
Qed.

Lemma requiredError_nil v f msg r :
  requiredError v f msg r = [] <-> blank v = false.
Proof.
  unfold requiredError. destruct (blank v); split; intros Hx;
    solve [reflexivity | discriminate].
Qed.

(** A record is valid exactly when its five required fields are filled
    in and its date parses. *)
Lemma valid_characterization c i :
  valid (validateCertificate parseDate c i) = true
  <-> (exists name, studentName c = Some name /\ Js.trim name <> ""
                    /\ String.length name <= 200)
      /\ (exists sid, studentId c = Some sid /\ Js.trim sid <> "")
      /\ (exists deg, degree c = Some deg /\ Js.trim deg <> "")
      /\ (exists inst, institution c = Some inst /\ Js.trim inst <> "")
      /\ (exists d, issueDate c = Some d /\ dateFalsy (Some d) = false
                    /\ dateIsValid parseDate d = true).
Proof.
  rewrite valid_iff_no_errors.
  unfold validateCertificate. cbv zeta. cbn [errors].
  rewrite !app_nil_iff, !requiredError_nil, <- !not_blank_iff.
  assert ((if blank (studentName c)
           then [mkIssue "studentName" "Student name is required" (i + 1)]
           else if 200 <? String.length (Js.orEmpty (studentName c))
                then [mkIssue "studentName"
                        "Student name too long (max 200 chars)" (i + 1)]
                else []) = []
          <-> exists name, studentName c = Some name /\ Js.trim name <> ""
                           /\ String.length name <= 200) as ->.
  { destruct (blank (studentName c)) eqn:Hb.
    - split; [discriminate |]. intros (name & Hn & Ht & _).
      assert (blank (studentName c) = false) as Hnb
        by (apply not_blank_iff; eauto).
      congruence.
    - apply not_blank_iff in Hb as (name & Hn & Ht). rewrite Hn.
      cbn [Js.orEmpty].
      destruct (200 <? String.length name) eqn:Hlen.
      + apply Nat.ltb_lt in Hlen. split; [discriminate |].
        intros (name' & [= <-] & _ & Hle). lia.
      + apply Nat.ltb_ge in Hlen. split; [| reflexivity].
        intros _. exists name. auto. }
  assert ((if dateFalsy (issueDate c)
           then [mkIssue "issueDate" "Issue date is required" (i + 1)]
           else match issueDate c with
                | Some d =>
                    if dateIsValid parseDate d then []
                    else [mkIssue "issueDate"
                            ("Invalid date format: " +:+ Js.dq +:+ dateText d
                             +:+ Js.dq +:+ ". Use YYYY-MM-DD.") (i + 1)]
                | None => []
                end) = []
          <-> exists d, issueDate c = Some d /\ dateFalsy (Some d) = false
                        /\ dateIsValid parseDate d = true) as ->.
  { destruct (issueDate c) as [d|].
    - destruct (dateFalsy (Some d)) eqn:Hf.
      + split; [discriminate |]. intros (d' & [= <-] & Hf' & _). congruence.
      + destruct (dateIsValid parseDate d) eqn:Hv.
        * split; [| reflexivity]. intros _. exists d. auto.
        * split; [discriminate |]. intros (d' & [= <-] & _ & Hv'). congruence.
    - cbn. split; [discriminate | intros (d & Hd & _); discriminate]. }
  reflexivity.
Qed.

(** The issues of one record: at most one error per required field, and
    every issue carries the record's row number. *)
Lemma validateCertificate_issues c i :
  let v := validateCertificate parseDate c i in
  NoDup (field <$> errors v)
  /\ Forall (fun e => row e = i + 1 /\ field e ∈ requiredFields) (errors v)
  /\ Forall (fun w => row w = i + 1
                      /\ (field w = "email" \/ field w = "studentName"))
       (warnings v)
  /\ length (warnings v) <= 2.
Proof.
  unfold validateCertificate, requiredError. cbv zeta. cbn [errors warnings].
  assert (forall f, f ∈ requiredFields <->
            f = "studentName" \/ f = "studentId" \/ f = "degree"
            \/ f = "institution" \/ f = "issueDate") as Hreq.
  { intros f. unfold requiredFields.
    rewrite !elem_of_cons, elem_of_nil. tauto. }
  split; [| split; [| split]].
  - destruct (blank (studentName c));
      [| destruct (200 <? String.length (Js.orEmpty (studentName c)))];
      destruct (blank (studentId c)); destruct (blank (degree c));
      destruct (blank (institution c));
      (destruct (dateFalsy (issueDate c));
       [| destruct (issueDate c) as [d|];
          [destruct (dateIsValid parseDate d) |]]);
      cbn; apply NoDup_ListNoDup; repeat constructor; cbn;
      intuition discriminate.
  - repeat (apply Forall_app; split);
      repeat match goal with
             | |- context [if ?b then _ else _] => destruct b
             | |- context [match ?o with Some _ => _ | None => _ end] =>
                 destruct o
             end;
      first [apply Forall_nil_2
            | apply Forall_cons_2;
              [split; [reflexivity | apply Hreq; cbn; auto 10]
              | apply Forall_nil_2]].
  - apply Forall_app; split;
      repeat match goal with
             | |- context [if ?b then _ else _] => destruct b
             | |- context [match ?o with Some _ => _ | None => _ end] =>
                 destruct o
             end;
      first [apply Forall_nil_2
            | apply Forall_cons_2;
              [split; [reflexivity | cbn; auto] | apply Forall_nil_2]].
  - rewrite length_app.
    repeat match goal with
           | |- context [if ?b then _ else _] => destruct b
           | |- context [match ?o with Some _ => _ | None => _ end] =>
               destruct o
           end; cbn; lia.
Qed.

End RecordFacts.

Section BatchListFacts.

Variable parseDate : string -> option Z.

Import Validator.

Lemma imap_shift (i0 : nat) (certs : list Cert) :
  imap ((fun k c => (i0 + k, c)) ∘ S) certs
  = imap (fun k c => (S i0 + k, c)) certs.
Proof.
  apply imap_ext. intros k c _. cbn. f_equal. lia.
Qed.

(** The loop of [validateBatch] appends, in row order, the rows that pass
    to [validRecords], the others to [invalidRecords], and the errors of
    every row to [allErrors]. *)
Lemma validateLoop_lists acc i0 certs :
  let rows := imap (fun k c => (i0 + k, c)) certs in
  validRecords (validateLoop parseDate acc i0 certs)
  = validRecords acc ++ (asValid <$> List.filter (rowPasses parseDate) rows)
  /\ invalidRecords (validateLoop parseDate acc i0 certs)
     = invalidRecords acc
       ++ (asInvalid parseDate
             <$> List.filter (fun ic => negb (rowPasses parseDate ic)) rows)
  /\ allErrors (validateLoop parseDate acc i0 certs)
     = allErrors acc ++ (rows ≫= rowErrors parseDate).
Proof.
  cbv zeta. revert acc i0.
  induction certs as [|c certs IH]; intros acc i0; cbn [validateLoop].
  - cbn. rewrite !app_nil_r. auto.
  - rewrite imap_cons, imap_shift. cbn [List.filter]. rewrite Nat.add_0_r.
    assert (rowPasses parseDate (i0, c)
            = valid (validateCertificate parseDate c i0))
      as Hp by reflexivity.
    rewrite Hp.
    destruct (IH (validateRow parseDate acc i0 c) (S i0)) as (Hv & Hi & He).
    rewrite Hv, Hi, He. cbn [validateRow validRecords invalidRecords allErrors].
    rewrite bind_cons. unfold rowErrors at 3. cbn [fst snd].
    destruct (valid (validateCertificate parseDate c i0)); cbn [negb];
      cbn [fmap list_fmap]; rewrite <- ?app_assoc; auto.
Qed.

Lemma rowPasses_iff ic : rowPasses parseDate ic = true <-> rowErrors parseDate ic = [].
Proof. apply valid_iff_no_errors. Qed.

Lemma filter_split {A} (p : A -> bool) (l : list A) :
  length (List.filter p l) + length (List.filter (fun x => negb (p x)) l)
  = length l.
Proof.
  induction l as [|x l IH]; [reflexivity |]. cbn [List.filter].
  destruct (p x); cbn [negb length]; lia.
Qed.

Lemma errors_iff_invalid (rows : list (nat * Cert)) :
  (0 <? length (rows ≫= rowErrors parseDate))
  = (0 <? length (List.filter (fun ic => negb (rowPasses parseDate ic)) rows)).
Proof.
  induction rows as [|ic rows IH]; [reflexivity |].
  rewrite bind_cons, length_app. cbn [List.filter].
  destruct (rowPasses parseDate ic) eqn:Hp; cbn [negb].
  - apply rowPasses_iff in Hp. rewrite Hp. exact IH.
  - assert (rowErrors parseDate ic <> []) as Hne.
    { intros He. apply rowPasses_iff in He. congruence. }
    destruct (rowErrors parseDate ic); [contradiction | reflexivity].
Qed.

Lemma duplicateWarning_row f label key seen r w :
  w ∈ duplicateWarning f label key seen r -> row w = r /\ field w = f.
Proof.
  unfold duplicateWarning. destruct (seen !! key).
  - intros Hw. apply list_elem_of_singleton in Hw as ->. auto.
  - intros Hw. apply elem_of_nil in Hw. contradiction.
Qed.

(** Every warning that the loop adds names a row of the batch. *)
Lemma validateLoop_warning_rows acc i0 certs w :
  w ∈ allWarnings (validateLoop parseDate acc i0 certs) ->
  w ∈ allWarnings acc \/ i0 + 1 <= row w <= i0 + length certs.
Proof.
  revert acc i0. induction certs as [|c certs IH]; intros acc i0 Hw;
    cbn [validateLoop] in Hw; [auto |].
  apply IH in Hw as [Hw | Hrange]; [| right; cbn [length]; lia].
  cbn [validateRow allWarnings] in Hw.
  rewrite !elem_of_app in Hw. destruct Hw as [Hw | [Hw | [Hw | Hw]]].
  - left. exact Hw.
  - right. destruct (Js.truthy (studentId c));
      [| apply elem_of_nil in Hw; contradiction].
    apply duplicateWarning_row in Hw as [-> _]. cbn [length]. lia.
  - right. destruct (Js.truthy (email c));
      [| apply elem_of_nil in Hw; contradiction].
    apply duplicateWarning_row in Hw as [-> _]. cbn [length]. lia.
  - right.
    destruct (validateCertificate_issues parseDate c i0) as (_ & _ & Hall & _).
    rewrite Forall_forall in Hall. destruct (Hall w Hw) as [-> _].
    cbn [length]. lia.
Qed.

End BatchListFacts.

(** X1 (utils/validator.js, validateCertificate). A record is valid exactly when
    its name, student ID, degree and institution are present and not
    blank, the name has at most 200 characters, and the issue date is
    present and parses; the row index and the email address play no
    part. *)
Theorem validateCertificate_valid_iff
    (parseDate : string -> option Z) (c : Cert) (i : nat) :
  Validator.valid (Validator.validateCertificate parseDate c i) = true
  <-> (exists name, studentName c = Some name /\ Js.trim name <> ""
                    /\ String.length name <= 200)
      /\ (exists sid, studentId c = Some sid /\ Js.trim sid <> "")
      /\ (exists deg, degree c = Some deg /\ Js.trim deg <> "")
      /\ (exists inst, institution c = Some inst /\ Js.trim inst <> "")
      /\ (exists d, issueDate c = Some d
                    /\ Validator.dateFalsy (Some d) = false
                    /\ Validator.dateIsValid parseDate d = true).
Proof. apply valid_characterization. Qed.

(** X2 (utils/validator.js, validateCertificate). The validator reports at most
    one error for each of the five required fields and at most two
    warnings (one about the email address, one about digits in the name),
    and every error and warning carries the row number of the record,
    index + 1. *)
Theorem validateCertificate_one_error_per_field
    (parseDate : string -> option Z) (c : Cert) (i : nat) :
  let v := Validator.validateCertificate parseDate c i in
  NoDup (field <$> Validator.errors v)
  /\ length (Validator.errors v) <= 5
  /\ Forall (fun e => row e = i + 1 /\ field e ∈ Validator.requiredFields)
       (Validator.errors v)
  /\ Forall (fun w => row w = i + 1
                      /\ (field w = "email" \/ field w = "studentName"))
       (Validator.warnings v)
  /\ length (Validator.warnings v) <= 2.
Proof.
  cbv zeta.
  destruct (validateCertificate_issues parseDate c i)
    as (Hnodup & Herr & Hwarn & Hlen).
  split; [exact Hnodup |]. split; [| auto].
  rewrite <- (length_fmap field).
  change 5 with (length Validator.requiredFields).
  apply submseteq_length, NoDup_submseteq; [exact Hnodup |].
  intros f Hf. apply list_elem_of_fmap in Hf as (e & -> & He).
  rewrite Forall_forall in Herr. apply (Herr e He).
Qed.

(** X3 (utils/validator.js, validateBatch). [validateBatch] splits the rows
    without reordering them: [validRecords] holds, in file order, every
    row that [validateCertificate] accepts, tagged with its row number;
    [invalidRecords] holds, in file order, every other row, tagged with
    its row number and its own errors; [errors] is the concatenation of
    the errors of the rows in file order. *)
Theorem validateBatch_is_stable_partition
    (parseDate : string -> option Z) (certificates : list Cert) :
  let v := Validator.validateBatch parseDate certificates in
  let rows := imap (fun i c => (i, c)) certificates in
  Validator.batchValid v = asValid <$> List.filter (rowPasses parseDate) rows
  /\ Validator.batchInvalid v
     = asInvalid parseDate
         <$> List.filter (fun ic => negb (rowPasses parseDate ic)) rows
  /\ Validator.batchErrors v = rows ≫= rowErrors parseDate.
Proof.
  cbv zeta. unfold Validator.validateBatch.
  cbn [Validator.batchValid Validator.batchInvalid Validator.batchErrors].
  exact (validateLoop_lists parseDate Validator.emptyAcc 0 certificates).
Qed.

Section BatchCountFacts.

Variable parseDate : string -> option Z.

Lemma validateBatch_sizes (certificates : list Cert) :
  let v := Validator.validateBatch parseDate certificates in
  Validator.totalRows v = length certificates
  /\ Validator.validCount v = length (Validator.batchValid v)
  /\ Validator.invalidCount v = length (Validator.batchInvalid v)
  /\ Validator.validCount v + Validator.invalidCount v = Validator.totalRows v
  /\ (Validator.hasErrors v = true <-> 0 < Validator.invalidCount v)
  /\ (Validator.hasErrors v = false
      <-> Validator.validCount v = Validator.totalRows v).
Proof.
  cbv zeta. unfold Validator.validateBatch.
  cbn [Validator.totalRows Validator.validCount Validator.invalidCount
       Validator.hasErrors Validator.batchValid Validator.batchInvalid].
  destruct (validateLoop_lists parseDate Validator.emptyAcc 0 certificates)
    as (Hv & Hi & He).
  cbv zeta in Hv, Hi, He. cbn [Validator.emptyAcc Validator.validRecords
    Validator.invalidRecords Validator.allErrors app] in Hv, Hi, He.
  rewrite Hv, Hi, He, !length_fmap, errors_iff_invalid.
  set (rows := imap (fun k c => (0 + k, c)) certificates).
  pose proof (filter_split (rowPasses parseDate) rows) as Hsplit.
  assert (length rows = length certificates) as Hrows
    by (subst rows; apply length_imap).
  rewrite Hrows in Hsplit.
  split; [reflexivity |]. split; [reflexivity |]. split; [reflexivity |].
  split; [exact Hsplit |]. split.
  - apply Nat.ltb_lt.
  - rewrite Nat.ltb_ge. lia.
Qed.

End BatchCountFacts.

(** X4 (utils/validator.js, validateBatch). The counts that [validateBatch]
    reports add up: every row is counted as valid or as invalid,
    [validCount] and [invalidCount] are the sizes of the two record
    lists, and [hasErrors] is set exactly when at least one row is
    invalid. *)
Theorem validateBatch_counts_add_up
    (parseDate : string -> option Z) (certificates : list Cert) :
  let v := Validator.validateBatch parseDate certificates in
  Validator.totalRows v = length certificates
  /\ Validator.validCount v = length (Validator.batchValid v)
  /\ Validator.invalidCount v = length (Validator.batchInvalid v)
  /\ Validator.validCount v + Validator.invalidCount v = Validator.totalRows v
  /\ (Validator.hasErrors v = true <-> 0 < Validator.invalidCount v)
  /\ (Validator.hasErrors v = false
      <-> Validator.validCount v = Validator.totalRows v).
Proof. apply validateBatch_sizes. Qed.

(** X5 (utils/validator.js, validateBatch). Every error and every warning of a
    batch names a row of the file, between 1 and [totalRows], and every
    error belongs to the row it names: it is one of the errors that
    [validateCertificate] finds in that row. *)
Theorem validateBatch_issues_name_their_row
    (parseDate : string -> option Z) (certificates : list Cert) :
  let v := Validator.validateBatch parseDate certificates in
  (forall e, e ∈ Validator.batchErrors v ->
     1 <= row e <= Validator.totalRows v
     /\ exists c, certificates !! (row e - 1) = Some c
          /\ e ∈ Validator.errors
                   (Validator.validateCertificate parseDate c (row e - 1)))
  /\ (forall w, w ∈ Validator.batchWarnings v ->
        1 <= row w <= Validator.totalRows v).
Proof.
  cbv zeta. unfold Validator.validateBatch.
  cbn [Validator.batchErrors Validator.batchWarnings Validator.totalRows].
  split.
  - intros e He. apply validateLoop_errors in He as [He | (k & c & Hk & He)].
    { apply elem_of_nil in He. contradiction. }
    cbn [Nat.add] in He.
    destruct (validateCertificate_issues parseDate c k) as (_ & Hall & _).
    rewrite Forall_forall in Hall. destruct (Hall e He) as [Hrow _].
    apply lookup_lt_Some in Hk as Hlt.
    rewrite Hrow. replace (k + 1 - 1) with k by lia.
    split; [lia |]. exists c. auto.
  - intros w Hw. apply validateLoop_warning_rows in Hw as [Hw | Hrange].
    + apply elem_of_nil in Hw. contradiction.
    + lia.
Qed.

Section DuplicateFacts.

Variable parseDate : string -> option Z.

Import Validator.

Lemma truthy_Some (v : option string) :
  Js.truthy v = true -> exists s, v = Some s /\ s <> "".
Proof.
  unfold Js.truthy, Js.falsy. destruct v as [s|]; [| discriminate].
  intros Hs. exists s. split; [reflexivity |].
  intros ->. discriminate.
Qed.

Lemma orEmpty_inj (a b : option string) :
  Js.truthy a = true -> Js.truthy b = true ->
  Js.orEmpty a = Js.orEmpty b -> a = b.
Proof.
  intros Ha Hb. apply truthy_Some in Ha as (x & -> & _).
  apply truthy_Some in Hb as (y & -> & _). cbn. congruence.
Qed.

(** A row whose student ID was last seen in row [r], and in no row
    since, is warned about with that row. *)
Lemma validateLoop_seen_id acc i0 certs k ck r :
  certs !! k = Some ck ->
  Js.truthy (studentId ck) = true ->
  seenStudentIds acc !! Js.orEmpty (studentId ck) = Some r ->
  (forall j cj, j < k -> certs !! j = Some cj ->
                studentId cj <> studentId ck) ->
  mkIssue "studentId"
    ("Duplicate student ID " +:+ Js.dq +:+ Js.orEmpty (studentId ck)
     +:+ Js.dq +:+ " (also in row " +:+ pretty r +:+ ")") (i0 + k + 1)
  ∈ allWarnings (validateLoop parseDate acc i0 certs).
Proof.
  revert acc i0 k. induction certs as [|c certs IH];
    intros acc i0 k Hk Ht Hseen Hfresh; [discriminate |].
  destruct k as [|k]; simpl in Hk.
  - injection Hk as ->. cbn [validateLoop]. apply validateLoop_warnings_grow.
    cbn [validateRow allWarnings]. rewrite Ht. unfold duplicateWarning.
    rewrite Hseen. replace (i0 + 0 + 1) with (i0 + 1) by lia.
    apply elem_of_app. right. apply list_elem_of_here.
  - cbn [validateLoop]. replace (i0 + S k + 1) with (S i0 + k + 1) by lia.
    apply IH; [exact Hk | exact Ht | |].
    + cbn [validateRow seenStudentIds].
      destruct (Js.truthy (studentId c)) eqn:Htc; [| exact Hseen].
      rewrite lookup_insert_ne; [exact Hseen |].
      intros Heq. apply (Hfresh 0 c); [lia | reflexivity |].
      apply orEmpty_inj; assumption.
    + intros j cj Hj Hcj. apply (Hfresh (S j) cj); [lia | exact Hcj].
Qed.

(** A row that repeats a student ID is warned about with the latest
    earlier row that carries it. *)
Lemma validateLoop_latest_id acc i0 certs k ck j cj :
  certs !! k = Some ck ->
  Js.truthy (studentId ck) = true ->
  j < k -> certs !! j = Some cj -> studentId cj = studentId ck ->
  (forall j' c', j < j' < k -> certs !! j' = Some c' ->
                 studentId c' <> studentId ck) ->
  mkIssue "studentId"
    ("Duplicate student ID " +:+ Js.dq +:+ Js.orEmpty (studentId ck)
     +:+ Js.dq +:+ " (also in row " +:+ pretty (i0 + j + 1) +:+ ")")
    (i0 + k + 1)
  ∈ allWarnings (validateLoop parseDate acc i0 certs).
Proof.
  revert acc i0 k j. induction certs as [|c certs IH];
    intros acc i0 k j Hk Ht Hjk Hj Heq Hfresh; [discriminate |].
  destruct k as [|k]; [lia |]. simpl in Hk. cbn [validateLoop].
  replace (i0 + S k + 1) with (S i0 + k + 1) by lia.
  destruct j as [|j]; simpl in Hj.
  - injection Hj as ->. replace (i0 + 0 + 1) with (i0 + 1) by lia.
    apply validateLoop_seen_id; [exact Hk | exact Ht | |].
    + cbn [validateRow seenStudentIds]. rewrite Heq, Ht.
      apply lookup_insert_eq.
    + intros j' c' Hj' Hc'. apply (Hfresh (S j') c'); [lia | exact Hc'].
  - replace (i0 + S j + 1) with (S i0 + j + 1) by lia.
    apply IH; [exact Hk | exact Ht | lia | exact Hj | exact Heq |].
    intros j' c' Hj' Hc'. apply (Hfresh (S j') c'); [lia | exact Hc'].
Qed.

Lemma validateLoop_seen_email acc i0 certs k ck r :
  certs !! k = Some ck ->
  Js.truthy (email ck) = true ->
  seenEmails acc !! Js.orEmpty (email ck) = Some r ->
  (forall j cj, j < k -> certs !! j = Some cj -> email cj <> email ck) ->
  mkIssue "email"
    ("Duplicate email " +:+ Js.dq +:+ Js.orEmpty (email ck)
     +:+ Js.dq +:+ " (also in row " +:+ pretty r +:+ ")") (i0 + k + 1)
  ∈ allWarnings (validateLoop parseDate acc i0 certs).
Proof.
  revert acc i0 k. induction certs as [|c certs IH];
    intros acc i0 k Hk Ht Hseen Hfresh; [discriminate |].
  destruct k as [|k]; simpl in Hk.
  - injection Hk as ->. cbn [validateLoop]. apply validateLoop_warnings_grow.
    cbn [validateRow allWarnings]. rewrite Ht. unfold duplicateWarning at 2.
    rewrite Hseen. replace (i0 + 0 + 1) with (i0 + 1) by lia.
    apply elem_of_app. right. apply elem_of_app. right.
    apply elem_of_app. left. apply list_elem_of_here.
  - cbn [validateLoop]. replace (i0 + S k + 1) with (S i0 + k + 1) by lia.
    apply IH; [exact Hk | exact Ht | |].
    + cbn [validateRow seenEmails].
      destruct (Js.truthy (email c)) eqn:Htc; [| exact Hseen].
      rewrite lookup_insert_ne; [exact Hseen |].
      intros Heq. apply (Hfresh 0 c); [lia | reflexivity |].
      apply orEmpty_inj; assumption.
    + intros j cj Hj Hcj. apply (Hfresh (S j) cj); [lia | exact Hcj].
Qed.

Lemma validateLoop_latest_email acc i0 certs k ck j cj :
  certs !! k = Some ck ->
  Js.truthy (email ck) = true ->
  j < k -> certs !! j = Some cj -> email cj = email ck ->
  (forall j' c', j < j' < k -> certs !! j' = Some c' ->
                 email c' <> email ck) ->
  mkIssue "email"
    ("Duplicate email " +:+ Js.dq +:+ Js.orEmpty (email ck)
     +:+ Js.dq +:+ " (also in row " +:+ pretty (i0 + j + 1) +:+ ")")
    (i0 + k + 1)
  ∈ allWarnings (validateLoop parseDate acc i0 certs).
Proof.
  revert acc i0 k j. induction certs as [|c certs IH];
    intros acc i0 k j Hk Ht Hjk Hj Heq Hfresh; [discriminate |].
  destruct k as [|k]; [lia |]. simpl in Hk. cbn [validateLoop].
  replace (i0 + S k + 1) with (S i0 + k + 1) by lia.
  destruct j as [|j]; simpl in Hj.
  - injection Hj as ->. replace (i0 + 0 + 1) with (i0 + 1) by lia.
    apply validateLoop_seen_email; [exact Hk | exact Ht | |].
    + cbn [validateRow seenEmails]. rewrite Heq, Ht.
      apply lookup_insert_eq.
    + intros j' c' Hj' Hc'. apply (Hfresh (S j') c'); [lia | exact Hc'].
  - replace (i0 + S j + 1) with (S i0 + j + 1) by lia.
    apply IH; [exact Hk | exact Ht | lia | exact Hj | exact Heq |].
    intros j' c' Hj' Hc'. apply (Hfresh (S j') c'); [lia | exact Hc'].
Qed.

(** Where a warning about the student ID comes from. *)
Lemma validateLoop_id_warning_origin acc i0 certs w :
  w ∈ allWarnings (validateLoop parseDate acc i0 certs) ->
  field w = "studentId" ->
  w ∈ allWarnings acc
  \/ exists k ck,
       certs !! k = Some ck /\ row w = i0 + k + 1
       /\ Js.truthy (studentId ck) = true
       /\ (is_Some (seenStudentIds acc !! Js.orEmpty (studentId ck))
           \/ exists j cj, j < k /\ certs !! j = Some cj
                           /\ studentId cj = studentId ck).
Proof.
  revert acc i0. induction certs as [|c certs IH]; intros acc i0 Hw Hf;
    cbn [validateLoop] in Hw; [auto |].
  apply IH in Hw as [Hw | (k & ck & Hk & Hrow & Ht & Hseen)]; [| | exact Hf].
  - cbn [validateRow allWarnings] in Hw.
    rewrite !elem_of_app in Hw. destruct Hw as [Hw | [Hw | [Hw | Hw]]].
    + left. exact Hw.
    + right. destruct (Js.truthy (studentId c)) eqn:Ht;
        [| apply elem_of_nil in Hw; contradiction].
      exists 0, c. split; [reflexivity |].
      pose proof (duplicateWarning_row _ _ _ _ _ _ Hw) as [Hrow _].
      split; [lia |]. split; [exact Ht |]. left.
      unfold duplicateWarning in Hw.
      destruct (seenStudentIds acc !! Js.orEmpty (studentId c));
        [eauto | apply elem_of_nil in Hw; contradiction].
    + destruct (Js.truthy (email c));
        [| apply elem_of_nil in Hw; contradiction].
      apply duplicateWarning_row in Hw as [_ Hfield]. congruence.
    + destruct (validateCertificate_issues parseDate c i0)
        as (_ & _ & Hall & _).
      rewrite Forall_forall in Hall.
      destruct (Hall w Hw) as [_ [Hfield | Hfield]]; congruence.
  - right. exists (S k), ck. split; [exact Hk |]. split; [lia |].
    split; [exact Ht |].
    destruct Hseen as [Hseen | (j & cj & Hj & Hcj & Heq)].
    + cbn [validateRow seenStudentIds] in Hseen.
      destruct (Js.truthy (studentId c)) eqn:Htc; [| left; exact Hseen].
      apply lookup_insert_is_Some in Hseen as [Heq | [_ Hseen]].
      * right. exists 0, c. split; [lia |]. split; [reflexivity |].
        apply orEmpty_inj; assumption.
      * left. exact Hseen.
    + right. exists (S j), cj. split; [lia |]. auto.
Qed.

End DuplicateFacts.

(** X6 (utils/validator.js, validateBatch). The duplicate warning of a row names
    the latest earlier row with the same student ID (or the same email
    address), not the first one; and a warning about the student ID is
    only ever raised for a row whose non-empty student ID occurs in an
    earlier row. *)
Theorem validateBatch_duplicate_names_latest_row
    (parseDate : string -> option Z) (certificates : list Cert) :
  let v := Validator.validateBatch parseDate certificates in
  (forall i j ci cj,
     j < i -> certificates !! i = Some ci -> certificates !! j = Some cj ->
     Js.truthy (studentId ci) = true -> studentId cj = studentId ci ->
     (forall j' c', j < j' < i -> certificates !! j' = Some c' ->
                    studentId c' <> studentId ci) ->
     mkIssue "studentId"
       ("Duplicate student ID " +:+ Js.dq +:+ Js.orEmpty (studentId ci)
        +:+ Js.dq +:+ " (also in row " +:+ pretty (j + 1) +:+ ")") (i + 1)
     ∈ Validator.batchWarnings v)
  /\ (forall i j ci cj,
        j < i -> certificates !! i = Some ci -> certificates !! j = Some cj ->
        Js.truthy (email ci) = true -> email cj = email ci ->
        (forall j' c', j < j' < i -> certificates !! j' = Some c' ->
                       email c' <> email ci) ->
        mkIssue "email"
          ("Duplicate email " +:+ Js.dq +:+ Js.orEmpty (email ci)
           +:+ Js.dq +:+ " (also in row " +:+ pretty (j + 1) +:+ ")") (i + 1)
        ∈ Validator.batchWarnings v)
  /\ (forall w,
        w ∈ Validator.batchWarnings v -> field w = "studentId" ->
        exists i j ci cj,
          j < i /\ certificates !! i = Some ci /\ certificates !! j = Some cj
          /\ row w = i + 1 /\ Js.truthy (studentId ci) = true
          /\ studentId cj = studentId ci).
Proof.
  cbv zeta. unfold Validator.validateBatch. cbn [Validator.batchWarnings].
  split; [| split].
  - intros i j ci cj Hji Hi Hj Ht Heq Hfresh.
    exact (validateLoop_latest_id parseDate Validator.emptyAcc 0 certificates
             i ci j cj Hi Ht Hji Hj Heq Hfresh).
  - intros i j ci cj Hji Hi Hj Ht Heq Hfresh.
    exact (validateLoop_latest_email parseDate Validator.emptyAcc 0
             certificates i ci j cj Hi Ht Hji Hj Heq Hfresh).
  - intros w Hw Hf.
    apply validateLoop_id_warning_origin in Hw
      as [Hw | (k & ck & Hk & Hrow & Ht & [Hseen | (j & cj & Hj & Hcj & Heq)])];
      [| | | exact Hf].
    + apply elem_of_nil in Hw. contradiction.
    + cbn in Hseen. rewrite lookup_empty in Hseen.
      destruct Hseen as [x Hx]. discriminate.
    + exists k, j, ck, cj. auto 10.
Qed.

Lemma validateBatch_duplicate_names_latest_row_witness :
  let rows :=
    [Scripted.sampleRow "Alice Johnson" "STU-1" "a@example.com";
     Scripted.sampleRow "Bob Johnson" "STU-1" "b@example.com";
     Scripted.sampleRow "Carol Johnson" "STU-1" "c@example.com"] in
  let v := Validator.validateBatch Scripted.scriptedParseDate rows in
  mkIssue "studentId"
    ("Duplicate student ID " +:+ Js.dq +:+ "STU-1" +:+ Js.dq
     +:+ " (also in row " +:+ pretty 2 +:+ ")") 3
  ∈ Validator.batchWarnings v.
Proof.
  intros rows v.
  destruct (validateBatch_duplicate_names_latest_row
              Scripted.scriptedParseDate rows) as (Hid & _ & _).
  apply (Hid 2 1 (Scripted.sampleRow "Carol Johnson" "STU-1" "c@example.com")
           (Scripted.sampleRow "Bob Johnson" "STU-1" "b@example.com"));
    try reflexivity; [lia |].
  intros j' c' Hj'. lia.
Defined.

(** ** The parser *)

Section TrimFacts.

Lemma append_cons (x : ascii) (a b : string) :
  String x a +:+ b = String x (a +:+ b).
Proof. reflexivity. Qed.

Lemma append_nil_l (b : string) : "" +:+ b = b.
Proof. reflexivity. Qed.

Lemma append_assoc (a b c : string) : (a +:+ b) +:+ c = a +:+ (b +:+ c).
Proof.
  induction a as [|x a IH]; [reflexivity |].
  rewrite !append_cons, IH. reflexivity.
Qed.

Lemma append_nil_r (a : string) : a +:+ "" = a.
Proof.
  induction a as [|x a IH]; [reflexivity |].
  rewrite append_cons, IH. reflexivity.
Qed.

Lemma rev_app_append (s acc : string) :
  String.rev_app s acc = String.rev s +:+ acc.
Proof.
  revert acc. induction s as [|c s IH]; intros acc; [reflexivity |].
  unfold String.rev. cbn [String.rev_app].
  rewrite (IH (String c acc)), (IH (String c "")). rewrite append_assoc. reflexivity.
Qed.

Lemma rev_cons (c : ascii) (s : string) :
  String.rev (String c s) = String.rev s +:+ String c "".
Proof. unfold String.rev at 1. cbn [String.rev_app]. apply rev_app_append. Qed.

Lemma rev_append (a b : string) :
  String.rev (a +:+ b) = String.rev b +:+ String.rev a.
Proof.
  induction a as [|c a IH].
  - rewrite append_nil_l, append_nil_r. reflexivity.
  - rewrite append_cons, !rev_cons, IH, append_assoc. reflexivity.
Qed.

Lemma rev_involutive (s : string) : String.rev (String.rev s) = s.
Proof.
  induction s as [|c s IH]; [reflexivity |].
  rewrite rev_cons, rev_append, IH. reflexivity.
Qed.

Lemma trimStart_append (a b : string) :
  (Js.trimStart a = "" -> Js.trimStart (a +:+ b) = Js.trimStart b)
  /\ (Js.trimStart a <> "" -> Js.trimStart (a +:+ b) = Js.trimStart a +:+ b).
Proof.
  induction a as [|c a [IH1 IH2]].
  - rewrite append_nil_l. cbn [Js.trimStart].
    split; [reflexivity | contradiction].
  - rewrite append_cons. cbn [Js.trimStart].
    destruct (Js.isWhiteSpace c); [split; assumption |].
    split; [discriminate | reflexivity].
Qed.

Lemma trimStart_rev (s : string) :
  Js.trimStart (String.rev s) = String.rev (trimEnd s).
Proof.
  induction s as [|c s IH]; [reflexivity |].
  rewrite rev_cons. cbn [trimEnd].
  destruct (trimStart_append (String.rev s) (String c "")) as [H1 H2].
  destruct (String.eqb_spec (trimEnd s) "") as [He|Hne].
  - rewrite He in IH. rewrite (H1 IH). cbn [Js.trimStart andb].
    destruct (Js.isWhiteSpace c); [reflexivity |].
    rewrite He. reflexivity.
  - cbn [andb]. rewrite H2, IH, rev_cons; [reflexivity |].
    rewrite IH. intros Hr. apply Hne.
    rewrite <- (rev_involutive (trimEnd s)), Hr. reflexivity.
Qed.

Lemma trim_trimEnd (s : string) : Js.trim s = trimEnd (Js.trimStart s).
Proof. unfold Js.trim. rewrite trimStart_rev. apply rev_involutive. Qed.

Lemma trimStart_noLead (s : string) : noLead (Js.trimStart s).
Proof.
  induction s as [|c s IH]; cbn [Js.trimStart]; [exact I |].
  destruct (Js.isWhiteSpace c) eqn:Hc; [exact IH | exact Hc].
Qed.

Lemma noLead_trimStart (s : string) : noLead s -> Js.trimStart s = s.
Proof.
  destruct s as [|c s]; [reflexivity |]. cbn. intros ->. reflexivity.
Qed.

Lemma noLead_trimEnd (s : string) : noLead s -> noLead (trimEnd s).
Proof.
  destruct s as [|c s]; [auto |]. cbn [noLead trimEnd]. intros Hc.
  rewrite Hc, andb_false_r. exact Hc.
Qed.

Lemma trimEnd_idem (s : string) : trimEnd (trimEnd s) = trimEnd s.
Proof.
  induction s as [|c s IH]; [reflexivity |]. cbn [trimEnd].
  destruct (String.eqb (trimEnd s) "" && Js.isWhiteSpace c) eqn:Hcond;
    [reflexivity |].
  cbn [trimEnd]. rewrite IH, Hcond. reflexivity.
Qed.

(** Trimming twice is trimming once. *)
Lemma trim_idem (s : string) : Js.trim (Js.trim s) = Js.trim s.
Proof.
  rewrite !trim_trimEnd.
  rewrite (noLead_trimStart (trimEnd (Js.trimStart s)))
    by (apply noLead_trimEnd, trimStart_noLead).
  apply trimEnd_idem.
Qed.

End TrimFacts.

Section ParserFacts.

Import CsvParser.

(** The fields that the validator and the pipeline attach to a record. *)
Lemma assignField_attached m v c :
  (_row (assignField m v c), _errors (assignField m v c),
   certId (assignField m v c), documentHash (assignField m v c),
   ipfsHash (assignField m v c), ipfsPinned (assignField m v c),
   ipfsGateway (assignField m v c), ipfsError (assignField m v c))
  = (_row c, _errors c, certId c, documentHash c, ipfsHash c, ipfsPinned c,
     ipfsGateway c, ipfsError c).
Proof.
  unfold assignField.
  repeat match goal with
         | |- context [if ?b then _ else _] => destruct b
         end; reflexivity.
Qed.

Lemma normalizeEntry_attached c e :
  (_row (normalizeEntry c e), _errors (normalizeEntry c e),
   certId (normalizeEntry c e), documentHash (normalizeEntry c e),
   ipfsHash (normalizeEntry c e), ipfsPinned (normalizeEntry c e),
   ipfsGateway (normalizeEntry c e), ipfsError (normalizeEntry c e))
  = (_row c, _errors c, certId c, documentHash c, ipfsHash c, ipfsPinned c,
     ipfsGateway c, ipfsError c).
Proof.
  unfold normalizeEntry. destruct (lookupColumn _ _); [| reflexivity].
  apply assignField_attached.
Qed.

Lemma fold_attached row c :
  let c' := fold_left normalizeEntry row c in
  (_row c', _errors c', certId c', documentHash c', ipfsHash c',
   ipfsPinned c', ipfsGateway c', ipfsError c')
  = (_row c, _errors c, certId c, documentHash c, ipfsHash c, ipfsPinned c,
     ipfsGateway c, ipfsError c).
Proof.
  cbv zeta. revert c. induction row as [|e row IH]; intros c; [reflexivity |].
  cbn [fold_left]. rewrite IH. apply normalizeEntry_attached.
Qed.

Lemma assignField_trimmed m x c :
  cellsTrimmed c -> cellsTrimmed (assignField m (Js.trim x) c).
Proof.
  intros (H1 & H2 & H3 & H4 & H5 & H6). unfold assignField.
  repeat match goal with
         | |- context [if ?b then _ else _] => destruct b
         end;
    unfold cellsTrimmed;
    cbn [studentName studentId degree institution issueDate email
         set_studentName set_studentId set_degree set_institution
         set_issueDate set_email];
    repeat split; try assumption;
    try (intros v [= <-]; apply trim_idem).
  intros d [= <-]. eexists. split; [reflexivity | apply trim_idem].
Qed.

Lemma fold_trimmed row c :
  cellsTrimmed c -> cellsTrimmed (fold_left normalizeEntry row c).
Proof.
  revert c. induction row as [|e row IH]; intros c Hc; [exact Hc |].
  cbn [fold_left]. apply IH. unfold normalizeEntry.
  destruct (lookupColumn _ _); [| exact Hc].
  apply assignField_trimmed. exact Hc.
Qed.

Lemma blank_trimmed (x : string) :
  Validator.blank (Some (Js.trim x)) = true <-> Js.trim x = "".
Proof.
  unfold Validator.blank. cbn [Js.falsy Js.orEmpty]. rewrite trim_idem.
  rewrite orb_true_iff, String.eqb_eq, length_zero_string. tauto.
Qed.

Lemma inputField_cases (f : string) :
  f = "studentName" \/ f = "studentId" \/ f = "degree" \/ f = "institution"
  \/ f = "issueDate" \/ f = "email" ->
  forall m v c,
  Validator.hasField (assignField m v c) f = true
  <-> Validator.hasField c f = true \/ m = f.
Proof.
  intros Hf m v c. unfold assignField.
  destruct (String.eqb_spec m "studentName") as [->|N1].
  { destruct Hf as [-> | [-> | [-> | [-> | [-> | ->] ] ] ] ]; cbn;
      rewrite ?bool_decide_eq_true; split;
      first [solve [eauto] | intros [Hx|Hx]; solve [exact Hx | discriminate]]. }
  destruct (String.eqb_spec m "studentId") as [->|N2].
  { destruct Hf as [-> | [-> | [-> | [-> | [-> | ->] ] ] ] ]; cbn;
      rewrite ?bool_decide_eq_true; split;
      first [solve [eauto] | intros [Hx|Hx]; solve [exact Hx | discriminate]]. }
  destruct (String.eqb_spec m "degree") as [->|N3].
  { destruct Hf as [-> | [-> | [-> | [-> | [-> | ->] ] ] ] ]; cbn;
      rewrite ?bool_decide_eq_true; split;
      first [solve [eauto] | intros [Hx|Hx]; solve [exact Hx | discriminate]]. }
  destruct (String.eqb_spec m "institution") as [->|N4].
  { destruct Hf as [-> | [-> | [-> | [-> | [-> | ->] ] ] ] ]; cbn;
      rewrite ?bool_decide_eq_true; split;
      first [solve [eauto] | intros [Hx|Hx]; solve [exact Hx | discriminate]]. }
  destruct (String.eqb_spec m "issueDate") as [->|N5].
  { destruct Hf as [-> | [-> | [-> | [-> | [-> | ->] ] ] ] ]; cbn;
      rewrite ?bool_decide_eq_true; split;
      first [solve [eauto] | intros [Hx|Hx]; solve [exact Hx | discriminate]]. }
  destruct (String.eqb_spec m "email") as [->|N6].
  { destruct Hf as [-> | [-> | [-> | [-> | [-> | ->] ] ] ] ]; cbn;
      rewrite ?bool_decide_eq_true; split;
      first [solve [eauto] | intros [Hx|Hx]; solve [exact Hx | discriminate]]. }
  destruct Hf as [-> | [-> | [-> | [-> | [-> | ->] ] ] ] ]; cbn;
    (split; [auto |]); intros [Hx | ->]; solve [exact Hx | contradiction].
Qed.

(** A field is present after normalisation exactly when it was present
    before or some column of the row is read as that field. *)
Lemma fold_present (f : string) :
  f = "studentName" \/ f = "studentId" \/ f = "degree" \/ f = "institution"
  \/ f = "issueDate" \/ f = "email" ->
  forall cells c,
  Validator.hasField (fold_left normalizeEntry cells c) f = true
  <-> Validator.hasField c f = true \/ hasColumn cells f.
Proof.
  intros Hf. unfold hasColumn.
  induction cells as [ | kv cells IH]; intros c; [| destruct kv as [k v]];
    cbn [fold_left].
  - split; [auto |]. intros [Hc | (k & v & Hin & _)]; [exact Hc |].
    apply elem_of_nil in Hin. contradiction.
  - rewrite IH. unfold normalizeEntry at 1. cbn [fst snd].
    destruct (lookupColumn (Js.toLowerCase (Js.trim k)) COLUMN_MAP)
      as [m|] eqn:Hm.
    + rewrite (inputField_cases f Hf). split.
      * intros [[Hc | ->] | (k' & v' & Hin & Hmap)].
        -- left. exact Hc.
        -- right. exists k, v. split; [apply list_elem_of_here | exact Hm].
        -- right. exists k', v'.
           split; [apply list_elem_of_further; exact Hin | exact Hmap].
      * intros [Hc | (k' & v' & Hin & Hmap)]; [auto |].
        apply elem_of_cons in Hin as [ [= -> ->] | Hin].
        -- left. right. congruence.
        -- right. exists k', v'. auto.
    + split.
      * intros [Hc | (k' & v' & Hin & Hmap)]; [auto |].
        right. exists k', v'.
        split; [apply list_elem_of_further; exact Hin | exact Hmap].
      * intros [Hc | (k' & v' & Hin & Hmap)]; [auto |].
        apply elem_of_cons in Hin as [ [= -> ->] | Hin]; [congruence |].
        right. exists k', v'. auto.
Qed.

Lemma columnsValid_iff (c : Cert) (rest : list Cert) :
  Validator.columnsValid (Validator.validateColumns (c :: rest)) = true
  <-> forall f, f ∈ Validator.requiredFields ->
                Validator.hasField c f = true.
Proof.
  unfold Validator.validateColumns, Validator.requiredFields.
  cbn [List.filter].
  split.
  - intros Hv f Hf. rewrite !elem_of_cons, elem_of_nil in Hf.
    destruct (Validator.hasField c "studentName") eqn:H1;
      destruct (Validator.hasField c "studentId") eqn:H2;
      destruct (Validator.hasField c "degree") eqn:H3;
      destruct (Validator.hasField c "institution") eqn:H4;
      destruct (Validator.hasField c "issueDate") eqn:H5;
      cbn in Hv; try discriminate.
    destruct Hf as [-> | [-> | [-> | [-> | [-> | [] ] ] ] ] ]; assumption.
  - intros Hall.
    rewrite (Hall "studentName"), (Hall "studentId"), (Hall "degree"),
      (Hall "institution"), (Hall "issueDate");
      [reflexivity | | | | |]; rewrite !elem_of_cons; auto 10.
Qed.

End ParserFacts.

(** X7 (utils/validator.js, validateCertificate; blockchainService.js, issueBatch).
    A record that the validator accepts is submitted with every argument
    defined: name, student ID, degree and institution are present, and
    the timestamp is the number itself for a numeric date or, for a text
    date, the parsed milliseconds divided by 1000 and rounded down; it is
    never [NaN]. *)
Theorem valid_record_has_complete_issue_call
    {World : Type} `{Services World} (c : Cert) (i : nat) :
  Validator.valid (Validator.validateCertificate parseDate c i) = true ->
  let submitted := BlockchainService.issueCallOf c in
  is_Some (callStudentName submitted)
  /\ is_Some (callStudentId submitted)
  /\ is_Some (callDegree submitted)
  /\ is_Some (callInstitution submitted)
  /\ is_Some (callTimestamp submitted)
  /\ match issueDate c with
     | Some (DateNumber n) => callTimestamp submitted = Some n
     | Some (DateString s) =>
         exists ms, parseDate s = Some ms
                    /\ callTimestamp submitted = Some (ms / 1000)%Z
     | None => False
     end.
Proof.
  intros Hv. apply valid_characterization in Hv
    as ((name & Hn & _) & (sid & Hs & _) & (deg & Hd & _) & (inst & Hi & _)
        & (d & Hdate & _ & Hvalid)).
  cbv zeta. unfold BlockchainService.issueCallOf.
  cbn [callStudentName callStudentId callDegree callInstitution
       callTimestamp].
  rewrite Hn, Hs, Hd, Hi, Hdate.
  split; [eauto |]. split; [eauto |]. split; [eauto |]. split; [eauto |].
  destruct d as [n|s]; cbn [BlockchainService.timestampOf].
  - split; [eauto | reflexivity].
  - cbn [Validator.dateIsValid] in Hvalid.
    apply bool_decide_eq_true in Hvalid as [ms Hms]. rewrite Hms. cbn.
    split; [eauto |]. exists ms. auto.
Qed.

Lemma valid_record_has_complete_issue_call_witness :
  let c := Scripted.sampleRow "Alice Johnson" "STU-1" "a@example.com" in
  is_Some (callStudentName (BlockchainService.issueCallOf c))
  /\ callTimestamp (BlockchainService.issueCallOf c) = Some 1781481600%Z.
Proof.
  intros c.
  edestruct (valid_record_has_complete_issue_call (World:=Scripted.Script)
               c 0) as (Hname & _ & _ & _ & _ & Hts);
    [vm_compute; reflexivity |].
  split; [exact Hname | vm_compute; reflexivity].
Defined.

Section InheritedColumns.

Import CsvParser.

Lemma ownColumn_None key (m : list (string * string)) :
  key ∉ m.*1 -> ownColumn key m = None.
Proof.
  induction m as [ | kv m IH]; [reflexivity |]. destruct kv as [k mapped].
  cbn [fmap list_fmap fst ownColumn]. intros Hnot.
  apply not_elem_of_cons in Hnot as [Hne Hrest].
  destruct (String.eqb_spec key k) as [-> | _]; [contradiction | auto].
Qed.

(** What [COLUMN_MAP[key]] can be: the name of an input field, or the
    text of one of the two inherited members. *)
Lemma lookupColumn_cases key mapped :
  lookupColumn key COLUMN_MAP = Some mapped ->
  mapped ∈ ["studentName"; "studentId"; "degree"; "institution"; "issueDate";
            "email"]
  \/ (key = "constructor" /\ mapped = "function Object() { [native code] }")
  \/ (key = "__proto__" /\ mapped = "[object Object]").
Proof.
  unfold lookupColumn.
  destruct (ownColumn key COLUMN_MAP) as [own|] eqn:Hown.
  - intros [= <-]. left. revert Hown. unfold COLUMN_MAP. cbn [ownColumn].
    repeat match goal with
           | |- (if ?b then _ else _) = _ -> _ =>
               destruct b; [intros [= <-]; rewrite !elem_of_cons; auto 10 |]
           end.
    discriminate.
  - unfold inheritedColumns. cbn [ownColumn].
    destruct (String.eqb_spec key "constructor") as [-> | _];
      [intros [= <-]; auto |].
    destruct (String.eqb_spec key "__proto__") as [-> | _];
      [intros [= <-]; auto | discriminate].
Qed.

Lemma assignField_input m v c :
  m ∈ ["studentName"; "studentId"; "degree"; "institution"; "issueDate";
       "email"] ->
  otherKeys (assignField m v c) = otherKeys c.
Proof.
  rewrite !elem_of_cons, elem_of_nil.
  intros [-> | [-> | [-> | [-> | [-> | [-> | [] ] ] ] ] ] ]; reflexivity.
Qed.

Lemma lookupColumn_constructor :
  lookupColumn "constructor" COLUMN_MAP
  = Some "function Object() { [native code] }".
Proof. reflexivity. Qed.

(** A key outside the fields of a record comes from a column headed
    [constructor] or [__proto__]. *)
Lemma fold_otherKeys cells :
  forall c k,
  is_Some (otherKeys (fold_left normalizeEntry cells c) !! k) ->
  is_Some (otherKeys c !! k)
  \/ (exists header v,
        (header, v) ∈ cells
        /\ ((Js.toLowerCase (Js.trim header) = "constructor"
             /\ k = "function Object() { [native code] }")
            \/ (Js.toLowerCase (Js.trim header) = "__proto__"
                /\ k = "[object Object]"))).
Proof.
  induction cells as [ | kv cells IH]; intros c k Hk; [auto |].
  destruct kv as [header v]. cbn [fold_left] in Hk.
  apply IH in Hk as [Hk | (header' & v' & Hin & Hcase)].
  - unfold normalizeEntry in Hk. cbn [fst snd] in Hk.
    destruct (lookupColumn (Js.toLowerCase (Js.trim header)) COLUMN_MAP)
      as [mapped|] eqn:Hmap; [| auto].
    apply lookupColumn_cases in Hmap
      as [Hinput | [ [Hkey ->] | [Hkey ->] ] ].
    + rewrite (assignField_input _ _ _ Hinput) in Hk. auto.
    + cbn in Hk. apply lookup_insert_is_Some in Hk as [<- | [_ Hk] ]; [| auto].
      right. exists header, v. split; [apply list_elem_of_here | auto].
    + cbn in Hk. apply lookup_insert_is_Some in Hk as [<- | [_ Hk] ]; [| auto].
      right. exists header, v. split; [apply list_elem_of_here | auto].
  - right. exists header', v'.
    split; [apply list_elem_of_further; exact Hin | exact Hcase].
Qed.

Lemma normalizeEntry_keeps_keys c e k :
  is_Some (otherKeys c !! k) ->
  is_Some (otherKeys (normalizeEntry c e) !! k).
Proof.
  intros Hk. unfold normalizeEntry.
  destruct (lookupColumn _ _) as [mapped|] eqn:Hmap; [| exact Hk].
  apply lookupColumn_cases in Hmap as [Hinput | [ [_ ->] | [_ ->] ] ].
  - rewrite (assignField_input _ _ _ Hinput). exact Hk.
  - cbn. apply lookup_insert_is_Some.
    destruct (decide ("function Object() { [native code] }" = k)); auto.
  - cbn. apply lookup_insert_is_Some.
    destruct (decide ("[object Object]" = k)); auto.
Qed.

Lemma fold_keeps_keys cells :
  forall c k,
  is_Some (otherKeys c !! k) ->
  is_Some (otherKeys (fold_left normalizeEntry cells c) !! k).
Proof.
  induction cells as [|e cells IH]; intros c k Hk; [exact Hk |].
  cbn [fold_left]. apply IH, normalizeEntry_keeps_keys, Hk.
Qed.

(** A column headed [constructor] leaves a key spelled after the function
    [Object]. *)
Lemma fold_constructor cells :
  forall c header v,
  (header, v) ∈ cells ->
  Js.toLowerCase (Js.trim header) = "constructor" ->
  is_Some (otherKeys (fold_left normalizeEntry cells c)
             !! "function Object() { [native code] }").
Proof.
  induction cells as [ | kv cells IH]; intros c header v Hin Hkey;
    [apply elem_of_nil in Hin; contradiction |].
  cbn [fold_left]. apply elem_of_cons in Hin as [<- | Hin].
  - apply fold_keeps_keys. unfold normalizeEntry. cbn [fst snd].
    rewrite Hkey, lookupColumn_constructor. cbn.
    rewrite lookup_insert_eq. eauto.
  - apply (IH _ header v Hin Hkey).
Qed.

End InheritedColumns.

(** X8 (csvParser.js, normalizeRow and COLUMN_MAP). Whatever the headers
    of the file are, the record that [normalizeRow] builds carries no row
    number, no errors, no certificate identifier and no storage fields: an
    uploaded file cannot preset what the validator and the pipeline
    assign. Beside the six input fields the record can hold a key only
    for a column whose trimmed, lower-cased header is [constructor] or
    [__proto__], which [COLUMN_MAP] inherits from [Object.prototype]; a
    column headed [constructor] does leave such a key. A column whose
    header is neither an own key of [COLUMN_MAP] nor one of these two
    names has no effect on the record. *)
Theorem normalizeRow_never_presets_pipeline_fields (cells : CsvParser.RawRow) :
  let c := CsvParser.normalizeRow cells in
  (_row c = None /\ _errors c = None /\ certId c = None
   /\ documentHash c = None /\ ipfsHash c = None /\ ipfsPinned c = None
   /\ ipfsGateway c = None /\ ipfsError c = None)
  /\ (forall k, is_Some (otherKeys c !! k) ->
        exists header v,
          (header, v) ∈ cells
          /\ ((Js.toLowerCase (Js.trim header) = "constructor"
               /\ k = "function Object() { [native code] }")
              \/ (Js.toLowerCase (Js.trim header) = "__proto__"
                  /\ k = "[object Object]")))
  /\ (forall header v,
        (header, v) ∈ cells ->
        Js.toLowerCase (Js.trim header) = "constructor" ->
        is_Some (otherKeys c !! "function Object() { [native code] }"))
  /\ (forall before after header v,
        cells = before ++ (header, v) :: after ->
        Js.toLowerCase (Js.trim header) ∉ CsvParser.COLUMN_MAP.*1 ->
        Js.toLowerCase (Js.trim header) <> "constructor" ->
        Js.toLowerCase (Js.trim header) <> "__proto__" ->
        c = CsvParser.normalizeRow (before ++ after)).
Proof.
  cbv zeta. split; [| split; [| split] ].
  - pose proof (fold_attached cells (rawRow None None None None None None))
      as Hkeep.
    cbv zeta in Hkeep. fold (CsvParser.normalizeRow cells) in Hkeep.
    cbn [rawRow _row _errors certId documentHash ipfsHash ipfsPinned
         ipfsGateway ipfsError] in Hkeep.
    injection Hkeep as -> -> -> -> -> -> -> ->. auto 10.
  - intros k Hk. unfold CsvParser.normalizeRow in Hk.
    apply fold_otherKeys in Hk as [Hk | Hcase]; [| exact Hcase].
    cbn in Hk. rewrite lookup_empty in Hk. destruct Hk as [x Hx].
    discriminate.
  - intros header v Hin Hkey. unfold CsvParser.normalizeRow.
    apply (fold_constructor cells _ header v Hin Hkey).
  - intros before after header v -> Hown Hc Hp.
    unfold CsvParser.normalizeRow.
    rewrite !fold_left_app. cbn [fold_left]. f_equal.
    unfold CsvParser.normalizeEntry at 1. cbn [fst].
    unfold CsvParser.lookupColumn. rewrite (ownColumn_None _ _ Hown).
    unfold CsvParser.inheritedColumns. cbn [CsvParser.ownColumn].
    apply String.eqb_neq in Hc, Hp. rewrite Hc, Hp. reflexivity.
Qed.

(** X9 (csvParser.js, normalizeRow; utils/validator.js, validateCertificate).
    Every cell that [normalizeRow] stores is trimmed text (trimming it
    again changes nothing), the date included; hence the validator finds
    a required cell blank exactly when the cell of the file holds nothing
    but white space. *)
Theorem normalizeRow_cells_are_trimmed (cells : CsvParser.RawRow) :
  cellsTrimmed (CsvParser.normalizeRow cells)
  /\ (forall x, Js.trim (Js.trim x) = Js.trim x)
  /\ (forall x, Validator.blank (Some (Js.trim x)) = true <-> Js.trim x = "").
Proof.
  split; [| split].
  - apply fold_trimmed. unfold cellsTrimmed. cbn.
    repeat split; intros v Hv; discriminate.
  - apply trim_idem.
  - apply blank_trimmed.
Qed.

(** X10 (utils/validator.js, validateColumns; csvParser.js, normalizeRow). A file
    without rows fails the column check with the single message "No data
    rows found in file". Otherwise only the first row is looked at: the
    check passes exactly when, for each of the five required fields, some
    header of that row is a known name of the field once trimmed and
    lower-cased; an empty cell under such a header still counts, and
    later rows are never inspected. *)
Theorem validateColumns_checks_first_row_headers
    (cells : CsvParser.RawRow) (rest : list CsvParser.RawRow) :
  Validator.validateColumns [] 
  = Validator.mkColumnCheck false ["No data rows found in file"] None
  /\ (Validator.columnsValid
        (Validator.validateColumns
           (CsvParser.normalizeRow <$> cells :: rest)) = true
      <-> forall f, f ∈ Validator.requiredFields -> hasColumn cells f)
  /\ Validator.validateColumns (CsvParser.normalizeRow <$> cells :: rest)
     = Validator.validateColumns [CsvParser.normalizeRow cells]
  /\ (Validator.columnsValid
        (Validator.validateColumns
           (CsvParser.normalizeRow <$> cells :: rest)) = true ->
      Validator.missing
        (Validator.validateColumns
           (CsvParser.normalizeRow <$> cells :: rest)) = []).
Proof.
  split; [reflexivity |]. cbn [fmap list_fmap].
  split; [| split; [reflexivity |]].
  - rewrite columnsValid_iff. unfold CsvParser.normalizeRow.
    split; intros Hall f Hf.
    + specialize (Hall f Hf). apply fold_present in Hall as [Hc | Hcol];
        [| exact Hcol |].
      * unfold Validator.requiredFields in Hf.
        rewrite !elem_of_cons, elem_of_nil in Hf.
        destruct Hf as [-> | [-> | [-> | [-> | [-> | [] ] ] ] ] ];
          discriminate.
      * unfold Validator.requiredFields in Hf.
        rewrite !elem_of_cons, elem_of_nil in Hf. tauto.
    + apply fold_present; [| right; apply Hall; exact Hf].
      unfold Validator.requiredFields in Hf.
      rewrite !elem_of_cons, elem_of_nil in Hf. tauto.
  - unfold Validator.validateColumns.
    destruct (0 <? length _); [discriminate | reflexivity].
Qed.

(** ** The upload endpoint *)

Section UploadFacts.

Context {World : Type} `{Services World} `{FileServices World}.

Import BulkController.

(** What the [try] block of [uploadCSV] does, case by case. *)
Lemma tryUpload_cases (f : UploadedFile) (s : Server World) :
  match tryUpload f s with
  | (Throw _, s') => jobs s' = jobs s
  | (Ok (UploadAccepted p), s') =>
      exists parsed stamp,
        Validator.columnsValid (Validator.validateColumns parsed) = true
        /\ jobs s'
           = <[upJobId p :=
                 newJob (upJobId p) (uploadPath f) (originalname f) stamp
                   (Validator.validateBatch parseDate parsed)]> (jobs s)
        /\ p = previewOf (upJobId p) (originalname f)
                 (Validator.validateBatch parseDate parsed)
  | (Ok (UploadRejected code _ _ _), s') => code = 400 /\ jobs s' = jobs s
  | (Ok (UploadFailed _ _), _) => False
  end.
Proof.
  unfold tryUpload. unfold bind at 1, callOutside at 1.
  destruct (parseFile (uploadPath f) (outside s)) as [[parsed|e] w1];
    [| reflexivity].
  cbv beta iota. cbn [jobs outside].
  destruct (Validator.columnsValid (Validator.validateColumns parsed)) eqn:Hc;
    cbn [negb].
  - unfold bind, askOutside, storeJob, modify, ret. cbn [jobs outside].
    destruct (uuidv4 w1) as [id w2]. cbv beta iota. cbn [jobs outside].
    destruct (nowISO w2) as [stamp w3]. cbv beta iota. cbn [jobs outside].
    exists parsed, stamp. auto.
  - unfold bind, callOutside, ret. cbn [jobs outside].
    destruct (unlinkSync (uploadPath f) w1) as [[u|e] w2]; cbv beta iota;
      cbn [jobs outside]; auto.
Qed.

End UploadFacts.

(** X11 (bulkController.js, uploadCSV). [uploadCSV] always answers. A
    request without a file is refused (400) and changes nothing; a file
    that cannot be parsed or removed gives a 500 and a file that fails the
    column check a 400, and neither stores a job. An accepted upload
    stores exactly one job, under the identifier it returns: status
    "validated", the valid rows as its records, no results; the counts of
    the answer add up and its preview shows at most ten valid rows and
    fifty errors. *)
Theorem uploadCSV_stores_only_validated_uploads
    {World : Type} `{Services World} `{FileServices World}
    (file : option BulkController.UploadedFile)
    (s : BulkController.Server World) :
  exists resp s',
    BulkController.uploadCSV file s = (Ok resp, s')
    /\ match resp with
       | BulkController.UploadAccepted p =>
           exists f parsed stamp status,
             let validation := Validator.validateBatch parseDate parsed in
             file = Some f
             /\ Validator.columnsValid (Validator.validateColumns parsed)
                = true
             /\ BulkController.jobs s'
                = <[BulkController.upJobId p :=
                      BulkController.newJob (BulkController.upJobId p)
                        (BulkController.uploadPath f)
                        (BulkController.originalname f) stamp validation]>
                    (BulkController.jobs s)
             /\ BulkController.getJobStatus (BulkController.jobs s')
                  (BulkController.upJobId p) = Some status
             /\ BulkController.respStatus status = "validated"
             /\ BulkController.respTotalRecords status
                = BulkController.upValidCount p
             /\ BulkController.respResults status = None
             /\ BulkController.upValidCount p
                + BulkController.upInvalidCount p
                = BulkController.upTotalRows p
             /\ BulkController.upPreview p
                = take 10 (Validator.batchValid validation)
             /\ length (BulkController.upPreview p) <= 10
             /\ length (BulkController.upErrors p) <= 50
       | BulkController.UploadRejected code _ _ _ =>
           code = 400
           /\ BulkController.jobs s' = BulkController.jobs s
           /\ (file = None -> s' = s)
       | BulkController.UploadFailed code _ =>
           code = 500 /\ BulkController.jobs s' = BulkController.jobs s
       end.
Proof.
  destruct file as [f|]; cbn [BulkController.uploadCSV].
  2: { eexists _, _. split; [reflexivity |]. cbv beta iota. auto. }
  unfold tryCatch. pose proof (tryUpload_cases f s) as Hcases.
  destruct (BulkController.tryUpload f s) as [[resp|e] s1].
  - exists resp, s1. split; [reflexivity |].
    destruct resp as [code reason absent advice | code reason | p].
    + destruct Hcases as [-> Hjobs]. split; [reflexivity |].
      split; [exact Hjobs | discriminate].
    + contradiction.
    + destruct Hcases as (parsed & stamp & Hcols & Hjobs & Hp).
      exists f, parsed, stamp.
      eexists. cbv zeta. split; [reflexivity |]. split; [exact Hcols |].
      split; [exact Hjobs |].
      unfold BulkController.getJobStatus. rewrite Hjobs, lookup_insert_eq.
      split; [reflexivity |]. split; [reflexivity |].
      destruct (validateBatch_sizes parseDate parsed)
        as (_ & Hvc & _ & Hsum & _).
      rewrite Hp.
      cbn [BulkController.previewOf BulkController.upValidCount
           BulkController.upInvalidCount BulkController.upTotalRows
           BulkController.upPreview BulkController.upErrors
           BulkController.upJobId].
      cbn [fmap option_fmap option_map BulkController.statusOf
           BulkController.respTotalRecords BulkController.respResults
           BulkController.newJob records jobStatus jobResults].
      split; [symmetry; exact Hvc |]. split; [reflexivity |].
      split; [exact Hsum |]. split; [reflexivity |].
      rewrite !length_take. split; lia.
  - eexists _, _. split; [reflexivity |]. cbv beta iota.
    split; [reflexivity | exact Hcases].
Qed.

(** X12 (bulkController.js, uploadCSV and processBatch). Once an upload
    is accepted, the job it stored can be processed exactly when it has
    at least one valid row: with none, [processBatch] refuses it with 400
    "No valid records to process" and changes nothing; otherwise
    processing starts for as many records as the upload counted valid. *)
Theorem uploaded_job_is_processed_iff_it_has_valid_rows
    {World : Type} `{Services World} `{FileServices World}
    (f : BulkController.UploadedFile) (s s' : BulkController.Server World)
    (p : BulkController.UploadPreview) (templateName : string)
    (sendEmails : bool) :
  BulkController.uploadCSV (Some f) s
  = (Ok (BulkController.UploadAccepted p), s') ->
  BulkController.upJobId p <> "" ->
  (BulkController.upValidCount p = 0 ->
   BulkController.processBatch (Some (BulkController.upJobId p)) templateName
     sendEmails (BulkController.jobs s') (BulkController.outside s')
   = (BulkController.ProcessRejected 400 "No valid records to process",
      BulkController.jobs s', BulkController.outside s'))
  /\ (0 < BulkController.upValidCount p ->
      exists jobs' w',
        BulkController.processBatch (Some (BulkController.upJobId p))
          templateName sendEmails (BulkController.jobs s')
          (BulkController.outside s')
        = (BulkController.ProcessStarted (BulkController.upJobId p)
             (BulkController.upValidCount p), jobs', w')).
Proof.
  intros Hrun Hid. cbn [BulkController.uploadCSV] in Hrun.
  unfold tryCatch in Hrun. pose proof (tryUpload_cases f s) as Hcases.
  destruct (BulkController.tryUpload f s) as [[resp|e] s1];
    [| discriminate].
  injection Hrun as -> ->.
  destruct Hcases as (parsed & stamp & _ & Hjobs & Hp).
  destruct (validateBatch_sizes parseDate parsed) as (_ & Hvc & _).
  assert (BulkController.upValidCount p
          = length (Validator.batchValid
                      (Validator.validateBatch parseDate parsed))) as Hcount.
  { rewrite Hp. cbn [BulkController.previewOf BulkController.upValidCount].
    exact Hvc. }
  unfold BulkController.processBatch.
  assert (Js.falsy (Some (BulkController.upJobId p)) = false) as ->.
  { cbn. apply String.eqb_neq. exact Hid. }
  cbn [Js.orEmpty]. rewrite Hjobs, lookup_insert_eq.
  cbn [BulkController.newJob jobStatus records]. cbn [String.eqb Ascii.eqb].
  rewrite <- Hcount. split.
  - intros ->. reflexivity.
  - intros Hpos. destruct (BulkController.upValidCount p); [lia |].
    cbn [Nat.eqb]. eexists _, _. reflexivity.
Qed.

Lemma uploaded_job_is_processed_iff_it_has_valid_rows_witness :
  let f := BulkController.mkUploadedFile "/up/sample.csv" "sample.csv" in
  let w :=
    Scripted.mkScript 0 2026 ["0.abc123"; "0.k3x9zz"] [Ok 7%Z]
      [Ok (mkTx "0xaa"); Ok (mkTx "0xbb")]
      [Ok (mkReceipt 100 21000); Ok (mkReceipt 101 21000)]
      [Ok Scripted.samplePdf; Ok Scripted.samplePdf]
      [Ok Scripted.sampleQr; Ok Scripted.sampleQr] [] in
  let s := BulkController.mkServer ∅ w in
  exists p s' jobs' w',
    BulkController.uploadCSV (Some f) s
    = (Ok (BulkController.UploadAccepted p), s')
    /\ (BulkController.upTotalRows p, BulkController.upValidCount p,
        BulkController.upInvalidCount p) = (3, 2, 1)
    /\ BulkController.processBatch (Some (BulkController.upJobId p))
         "default-certificate" false (BulkController.jobs s')
         (BulkController.outside s')
       = (BulkController.ProcessStarted (BulkController.upJobId p) 2,
          jobs', w').
Proof.
  intros f w s.
  assert (exists p s',
            BulkController.uploadCSV (Some f) s
            = (Ok (BulkController.UploadAccepted p), s')
            /\ (BulkController.upTotalRows p, BulkController.upValidCount p,
                BulkController.upInvalidCount p) = (3, 2, 1)
            /\ BulkController.upJobId p = "job-1")
    as (p & s' & Hrun & Hcounts & Hid)
    by (eexists _, _; vm_compute; repeat split; reflexivity).
  destruct (uploaded_job_is_processed_iff_it_has_valid_rows
              (World:=Scripted.Script) f s s' p "default-certificate" false
              Hrun) as [_ Hstart].
  { rewrite Hid. discriminate. }
  assert (BulkController.upValidCount p = 2) as Hvalid
    by (injection Hcounts as _ Hv _; exact Hv).
  destruct Hstart as (jobs' & w' & Hproc); [rewrite Hvalid; lia |].
  exists p, s', jobs', w'. split; [exact Hrun |]. split; [exact Hcounts |].
  rewrite <- Hvalid. exact Hproc.
Defined.

(** ** What a processing run keeps *)

Section PipelineInvariant.

Context {World : Type} `{Services World}.

Import BulkController.

Variable P : list Cert -> Prop.

Hypothesis P_attach :
  forall l i f,
    (forall c, identity (f c) = identity c /\ certId (f c) = certId c) ->
    P l -> P (alter f i l).

Hypothesis P_newId :
  forall l i c newId,
    l !! i = Some c -> Js.falsy (certId c) = true ->
    P l -> P (alter (set_certId newId) i l).

Local Abbreviation Inv := (onRecords (World:=World) P).

Lemma inv_call {A} (op : World -> Outcome A * World) :
  preserves Inv (call op).
Proof.
  intros h Hh. unfold call. destruct (op (world h)) as [r w]. exact Hh.
Qed.

Lemma inv_ask {A} (op : World -> A * World) :
  preserves Inv (ask op).
Proof.
  intros h Hh. unfold ask. destruct (op (world h)) as [r w]. exact Hh.
Qed.

Lemma inv_updateJob (f : Job -> Job) :
  (forall j, records (f j) = records j) ->
  preserves Inv (updateJob f).
Proof.
  intros Hf h Hh. unfold updateJob, modify, onRecords in *. cbn [snd job].
  rewrite Hf. exact Hh.
Qed.

Lemma inv_updateCert i (f : Cert -> Cert) :
  (forall c, identity (f c) = identity c /\ certId (f c) = certId c) ->
  preserves Inv (updateCert i f).
Proof.
  intros Hf h Hh. unfold updateCert, updateJob, modify, onRecords in *.
  cbn [snd job records set_records]. apply P_attach; assumption.
Qed.

Lemma inv_setProgress name cur tot pct :
  preserves Inv (setProgress name cur tot pct).
Proof. apply inv_updateJob. reflexivity. Qed.

Lemma inv_progressCallback name p :
  preserves Inv (updateJob (set_progress (withPhase name p))).
Proof. apply inv_updateJob. reflexivity. Qed.

Local Hint Resolve inv_call inv_ask inv_setProgress inv_progressCallback
  : keeps.

Lemma inv_generateIds n i : preserves Inv (generateIds n i).
Proof.
  revert i. induction n as [|n IH]; intros i h Hh; cbn [generateIds].
  - exact Hh.
  - unfold bind at 1, readCert at 1, bind at 1, gets at 1.
    destruct (records (job h) !! i) as [cert|] eqn:Hi; [| exact Hh].
    unfold ret at 1. cbv beta iota.
    unfold bind at 1. destruct (Js.falsy (certId cert)) eqn:Hf.
    + unfold bind at 1.
      pose proof (generateCertificateId_job h) as Hjob.
      destruct (BlockchainService.generateCertificateId h) as [[newId|e] h1];
        cbn [snd] in Hjob.
      * unfold updateCert, updateJob, modify. cbv beta iota.
        apply IH. unfold onRecords. cbn [job records set_records].
        rewrite Hjob. apply (P_newId _ _ cert); assumption.
      * unfold onRecords. cbn [snd]. rewrite Hjob. exact Hh.
    + unfold ret at 1. cbv beta iota. apply IH. exact Hh.
Qed.

Lemma inv_phaseIds : preserves Inv phaseIds.
Proof.
  unfold phaseIds. apply preserves_bind; [apply preserves_gets |].
  intros n. apply preserves_bind; [auto with keeps |].
  intros _. apply inv_generateIds.
Qed.

Lemma inv_pdfLoop templateName name total i cs acc :
  preserves Inv
    (PdfService.pdfLoop templateName
       (Some (fun p => updateJob (set_progress (withPhase name p))))
       total i cs acc).
Proof.
  revert i acc. induction cs as [|c cs IH]; intros i acc;
    cbn [PdfService.pdfLoop]; [auto with keeps |].
  apply preserves_bind; [eauto 10 with keeps |]. intros r.
  apply preserves_bind; [auto with keeps | intros _; apply IH].
Qed.

Lemma inv_bulkGeneratePDFs templateName name cs :
  preserves Inv
    (PdfService.bulkGeneratePDFs templateName cs
       (Some (fun p => updateJob (set_progress (withPhase name p))))).
Proof.
  unfold PdfService.bulkGeneratePDFs.
  apply preserves_bind; [auto with keeps |]. intros _.
  apply preserves_tryFinally; [apply inv_pdfLoop | auto with keeps].
Qed.

Lemma inv_readCert i : preserves Inv (readCert i).
Proof.
  unfold readCert. apply preserves_bind; [apply preserves_gets |].
  intros cs. destruct (cs !! i); auto with keeps.
Qed.

Local Hint Resolve inv_readCert : keeps.

Ltac attach := apply inv_updateCert; intros ?; split; reflexivity.

Lemma inv_storeStep pdfResults n i :
  preserves Inv (storeStep pdfResults n i).
Proof.
  unfold storeStep. apply preserves_bind.
  { destruct (pdfResults !! i); auto with keeps. }
  intros pdfResult. apply preserves_bind; [| auto with keeps].
  destruct (pdfBuffer pdfResult) as [buffer|]; [| auto with keeps].
  destruct (String.eqb _ _); [| auto with keeps].
  apply preserves_tryCatch.
  - unfold tryStore, IpfsService.computeContentHash.
    apply preserves_bind; [auto with keeps |]. intros docHash.
    apply preserves_bind; [attach |]. intros _.
    apply preserves_bind; [auto with keeps |]. intros cert.
    apply preserves_bind.
    { unfold IpfsService.uploadBuffer. destruct (negb _); eauto 10 with keeps. }
    intros ipfsResult.
    repeat (apply preserves_bind; [attach | intros _]).
    attach.
  - intros err. unfold catchStore.
    apply preserves_bind; [attach | intros _]. attach.
Qed.

Lemma inv_storeLoop pdfResults total n i :
  preserves Inv (storeLoop pdfResults total n i).
Proof.
  revert i. induction n as [|n IH]; intros i; cbn [storeLoop];
    [auto with keeps |].
  apply preserves_bind; [apply inv_storeStep | intros _; apply IH].
Qed.

(** The chain client works on the heap paired with its local variables. *)
Lemma inv_onHeap {L A} (m : M (Heap World) A) :
  preserves Inv m ->
  preserves (fun s : Heap World * L => Inv (fst s)) (onHeap m).
Proof.
  intros Hm [h l] Hh. unfold onHeap. cbn [fst snd] in *.
  specialize (Hm h Hh). destruct (m h) as [r h1]. exact Hm.
Qed.

Lemma inv_assign {L} (f : L -> L) :
  preserves (fun s : Heap World * L => Inv (fst s)) (assign f).
Proof. intros [h l] Hh. exact Hh. Qed.

Lemma inv_readLocal {L A} (f : L -> A) :
  preserves (fun s : Heap World * L => Inv (fst s)) (readLocal f).
Proof. intros [h l] Hh. exact Hh. Qed.

Lemma inv_withLocals {L A} (init : L) (m : M (Heap World * L) A) :
  preserves (fun s : Heap World * L => Inv (fst s)) m ->
  preserves Inv (withLocals init m).
Proof.
  intros Hm h Hh. unfold withLocals. specialize (Hm (h, init) Hh).
  destruct (m (h, init)) as [r s]. exact Hm.
Qed.

Local Hint Resolve inv_onHeap inv_assign inv_readLocal : keeps.

Lemma inv_issueStep name total i cert :
  preserves (fun s : Heap World * BlockchainService.Locals =>
               Inv (fst s))
    (BlockchainService.issueStep
       (Some (fun p => updateJob (set_progress (withPhase name p))))
       total i cert).
Proof.
  unfold BlockchainService.issueStep, BlockchainService.tryIssue,
    BlockchainService.catchIssue, BlockchainService.reportProgress.
  eauto 20 with keeps.
Qed.

Lemma inv_issueLoop name total i certs :
  preserves (fun s : Heap World * BlockchainService.Locals =>
               Inv (fst s))
    (BlockchainService.issueLoop
       (Some (fun p => updateJob (set_progress (withPhase name p))))
       total i certs).
Proof.
  revert i. induction certs as [|c certs IH]; intros i;
    cbn [BlockchainService.issueLoop]; [auto with keeps |].
  apply preserves_bind; [apply inv_issueStep | intros _; apply IH].
Qed.

Lemma inv_issueBatch name certs :
  preserves Inv
    (BlockchainService.issueBatch certs
       (Some (fun p => updateJob (set_progress (withPhase name p))))).
Proof.
  unfold BlockchainService.issueBatch, BlockchainService.issueBatchLocals.
  apply preserves_bind; [| auto with keeps].
  apply preserves_bind; [auto with keeps |]. intros nonce0.
  apply inv_withLocals.
  apply preserves_bind; [apply inv_issueLoop | auto with keeps].
Qed.

Lemma inv_qrLoop cs acc : preserves Inv (QrService.qrLoop cs acc).
Proof.
  revert acc. induction cs as [|c cs IH]; intros acc;
    cbn [QrService.qrLoop]; [auto with keeps |].
  apply preserves_bind; [eauto 10 with keeps | intros r; apply IH].
Qed.

Lemma inv_mailLoop name total i js acc :
  preserves Inv
    (EmailService.mailLoop
       (Some (fun p => updateJob (set_progress (withPhase name p))))
       total i js acc).
Proof.
  revert i acc. induction js as [|j js IH]; intros i acc;
    cbn [EmailService.mailLoop]; [auto with keeps |].
  apply preserves_bind; [auto with keeps |]. intros r.
  apply preserves_bind; [auto with keeps | intros _; apply IH].
Qed.

Lemma inv_phaseEmails sendEmails cs pdfResults :
  preserves Inv (phaseEmails sendEmails cs pdfResults).
Proof.
  unfold phaseEmails. destruct (sendEmails && isEmailConfigured);
    [| auto with keeps].
  apply preserves_bind; [auto with keeps |]. intros _.
  apply preserves_bind; [| auto with keeps].
  unfold EmailService.bulkSendEmails. apply inv_mailLoop.
Qed.

Lemma inv_finishJob n compiled jobSummary :
  preserves Inv (finishJob n compiled jobSummary).
Proof.
  unfold finishJob, cleanUp.
  do 6 (apply preserves_bind;
        [first [apply inv_updateJob; reflexivity | auto with keeps]
        | intros ?]).
  apply preserves_bind; [apply preserves_gets |]. intros path.
  destruct (Js.truthy path); eauto 10 with keeps.
Qed.

Lemma inv_processPipeline templateName sendEmails :
  preserves Inv (processPipeline templateName sendEmails).
Proof.
  unfold processPipeline.
  apply preserves_bind; [apply inv_phaseIds | intros _].
  apply preserves_bind; [apply preserves_gets | intros n].
  apply preserves_bind; [auto with keeps | intros _].
  apply preserves_bind; [apply preserves_gets | intros certs2].
  apply preserves_bind; [apply inv_bulkGeneratePDFs | intros pdfResults].
  apply preserves_bind; [auto with keeps | intros _].
  apply preserves_bind; [apply inv_storeLoop | intros _].
  apply preserves_bind; [auto with keeps | intros _].
  apply preserves_bind; [apply preserves_gets | intros certs].
  apply preserves_bind; [apply inv_issueBatch | intros bc].
  apply preserves_bind; [auto with keeps | intros _].
  apply preserves_bind; [apply inv_qrLoop | intros qrResults].
  apply preserves_bind; [apply inv_phaseEmails | intros emailResults].
  apply inv_finishJob.
Qed.

Lemma inv_runPipeline templateName sendEmails (h : Heap World) :
  Inv h -> Inv (runPipeline templateName sendEmails h).
Proof.
  intros Hh. unfold runPipeline.
  pose proof (inv_processPipeline templateName sendEmails h Hh) as Hrun.
  destruct (processPipeline templateName sendEmails h) as [[u|e] h1];
    exact Hrun.
Qed.

End PipelineInvariant.

Section PipelineKeeps.

Context {World : Type} `{Services World}.

Lemma runPipeline_input templateName sendEmails (h : Heap World) :
  identity <$> records (job (BulkController.runPipeline templateName
                               sendEmails h))
  = identity <$> records (job h).
Proof.
  apply (inv_runPipeline (fun l => identity <$> l = identity <$> records (job h)));
    [| | reflexivity].
  - intros l i f Hf Hl. rewrite <- Hl.
    rewrite (list_fmap_alter identity f id);
      [| apply Forall_forall; intros c _; apply Hf].
    apply list_alter_id. reflexivity.
  - intros l i c newId _ _ Hl. rewrite <- Hl.
    rewrite (list_fmap_alter identity (set_certId newId) id);
      [| apply Forall_forall; intros c0 _; reflexivity].
    apply list_alter_id. reflexivity.
Qed.

End PipelineKeeps.

(** X13 (bulkController.js, processPipeline and the [.catch] of
    processBatch). A processing run never changes the part of a record
    that came from the uploaded file (row number, name, student ID, degree,
    institution, date, email) and never adds, drops or reorders records,
    whether the run completes or fails. *)
Theorem pipeline_never_alters_input
    {World : Type} `{Services World} (templateName : string)
    (sendEmails : bool) (h : Heap World) :
  identity <$> records (job (BulkController.runPipeline templateName
                               sendEmails h))
  = identity <$> records (job h).
Proof. apply runPipeline_input. Qed.

(** X14 (bulkController.js, processPipeline). A record that enters a
    processing run with a certificate identifier leaves it with the same
    identifier at the same position, whether the run completes or fails:
    processing a job again never re-issues an identifier. *)
Theorem pipeline_keeps_identifiers
    {World : Type} `{Services World} (templateName : string)
    (sendEmails : bool) (h : Heap World) (k : nat) (c : Cert) :
  records (job h) !! k = Some c ->
  Js.truthy (certId c) = true ->
  exists c',
    records (job (BulkController.runPipeline templateName sendEmails h)) !! k
    = Some c'
    /\ certId c' = certId c.
Proof.
  intros Hk Hid.
  apply (inv_runPipeline
           (fun l => exists c', l !! k = Some c' /\ certId c' = certId c)).
  - intros l i f Hf (c' & Hc' & Heq). destruct (decide (i = k)) as [->|Hne].
    + exists (f c'). rewrite list_lookup_alter_eq, Hc'. cbn.
      split; [reflexivity |]. rewrite <- Heq. apply Hf.
    + exists c'. rewrite list_lookup_alter_ne by exact Hne. auto.
  - intros l i c0 newId Hi Hfalsy (c' & Hc' & Heq).
    destruct (decide (i = k)) as [->|Hne].
    + rewrite Hi in Hc'. injection Hc' as ->. rewrite Heq in Hfalsy.
      unfold Js.truthy in Hid. rewrite Hfalsy in Hid. discriminate.
    + exists c'. rewrite list_lookup_alter_ne by exact Hne. auto.
  - exists c. auto.
Qed.

Lemma pipeline_keeps_identifiers_witness :
  let issued :=
    set_certId "CERT-2026-001-ABC"
      (set_row 1 (Scripted.sampleRow "Alice Johnson" "STU-1" "a@example.com")) in
  let fresh :=
    set_row 2 (Scripted.sampleRow "Bob Smith" "STU-2" "b@example.com") in
  let h :=
    mkHeap (Scripted.mkScript 1 2026 ["0.k3x9"] [] [] []
              [Ok Scripted.samplePdf; Ok Scripted.samplePdf] [] [])
      (mkJob "job-1" "processing" None (Some "f.csv") [issued; fresh] []
         "t0" None None None None None) in
  let done := BulkController.runPipeline "default-certificate" false h in
  (exists c', records (job done) !! 0 = Some c' /\ certId c' = certId issued)
  /\ jobStatus (job done) = "failed"
  /\ (certId <$> records (job done))
     = [Some "CERT-2026-001-ABC"; Some "CERT-2026-002-K3X"].
Proof.
  split.
  - apply (pipeline_keeps_identifiers "default-certificate" false); reflexivity.
  - vm_compute. split; reflexivity.
Defined.

(** ** The chain client, counters and nonces *)

Section CounterFacts.

Context {World : Type} `{Services World}.

Import BlockchainService.

Lemma terminalOutcome_status r :
  terminalOutcome r -> status r = "success" \/ status r = "failed".
Proof. intros [(Hs & _)|(Hs & _)]; auto. Qed.

Lemma countStatus_cons {A} (st : A -> string) x l :
  BulkController.countStatus st (x :: l)
  = (if String.eqb (st x) "success" then 1 else 0)
    + BulkController.countStatus st l.
Proof.
  unfold BulkController.countStatus. rewrite filter_cons.
  destruct (String.eqb_spec (st x) "success") as [Heq|Hne].
  - rewrite decide_True by exact Heq. reflexivity.
  - rewrite decide_False by exact Hne. reflexivity.
Qed.

Lemma countStatus_le {A} (st : A -> string) l :
  BulkController.countStatus st l <= length l.
Proof. unfold BulkController.countStatus. apply length_filter. Qed.

(** The counters of the loop count the results it pushes. *)
Lemma issueLoop_counters onProgress total certs :
  callbackReturns onProgress ->
  forall i (h : Heap World) (l : Locals),
  exists h' l' rs,
    issueLoop onProgress total i certs (h, l) = (Ok tt, (h', l'))
    /\ locResults l' = locResults l ++ rs
    /\ locSucceeded l'
       = locSucceeded l + BulkController.countStatus status rs
    /\ locFailed l'
       = locFailed l + length (filter (fun r => status r = "failed") rs).
Proof.
  intros Hcb. induction certs as [|cert rest IH]; intros i h l.
  - exists h, l, []. cbn. rewrite app_nil_r. repeat split; lia.
  - destruct (issueStep_run onProgress total i cert h l Hcb)
      as (h2 & r & Hstep & _ & _ & Ht & Hiff).
    cbn [issueLoop]. rewrite (bind_step _ _ _ _ _ Hstep).
    set (l1 := mkLocals _ _ _ _) in *.
    destruct (IH (S i) h2 l1) as (h' & l' & rs & Hloop & Hres & Hs & Hf).
    subst l1. exists h', l', (r :: rs). split; [exact Hloop |].
    cbn [locResults locSucceeded locFailed] in Hres, Hs, Hf.
    split; [rewrite Hres, <- app_assoc; reflexivity |].
    rewrite countStatus_cons, filter_cons.
    apply terminalOutcome_status in Ht.
    destruct (String.eqb_spec (status r) "success") as [Heq|Hne].
    + rewrite decide_False by (rewrite Heq; discriminate).
      rewrite (proj1 Hiff Heq) in Hs, Hf. split; lia.
    + destruct Ht as [Ht|Ht]; [contradiction |].
      rewrite decide_True by exact Ht.
      destruct (fate _) eqn:Hfate;
        try (split; cbn [length]; lia).
      exfalso. apply Hne. apply Hiff. reflexivity.
Qed.

Lemma issueBatch_counters certs onProgress (h h' : Heap World) bc :
  callbackReturns onProgress ->
  issueBatch certs onProgress h = (Ok bc, h') ->
  succeeded bc = BulkController.countStatus status (results bc)
  /\ failed bc = length (filter (fun r => status r = "failed") (results bc)).
Proof.
  intros Hcb Hrun. unfold issueBatch in Hrun.
  apply bind_Ok in Hrun as (l & h1 & Hlocals & Hret).
  injection Hret as <- <-. cbn [results succeeded failed].
  unfold issueBatchLocals in Hlocals.
  apply bind_Ok in Hlocals as (nonce0 & h0 & Hn & Hloc).
  destruct (issueLoop_counters onProgress (length certs) certs Hcb 0 h0
              (mkLocals [] 0 0 nonce0))
    as (h2 & l2 & rs & Hloop & Hres & Hs & Hf).
  unfold withLocals in Hloc. rewrite (bind_step _ _ _ _ _ Hloop) in Hloc.
  cbn in Hloc. injection Hloc as <- _. cbn in Hres, Hs, Hf. subst rs.
  split; assumption.
Qed.

End CounterFacts.

(** X15 (blockchainService.js, issueBatch). When [issueBatch] returns, its
    [succeeded] counter is the number of results with status "success" and
    its [failed] counter is the number of results with status "failed". *)
Theorem issueBatch_counters_match_results
    {World : Type} `{Services World} (certificates : list Cert)
    (onProgress : option (Progress -> M (Heap World) unit))
    (h h' : Heap World) (res : BatchResult) :
  callbackReturns onProgress ->
  BlockchainService.issueBatch certificates onProgress h = (Ok res, h') ->
  succeeded res
  = length (filter (fun r => status r = "success") (results res))
  /\ failed res
     = length (filter (fun r => status r = "failed") (results res)).
Proof. apply issueBatch_counters. Qed.

Lemma issueBatch_counters_match_results_witness :
  let certs :=
    [Scripted.sampleRow "Alice Johnson" "STU-1" "a@example.com";
     Scripted.sampleRow "Bob Smith" "STU-2" "b@example.com";
     Scripted.sampleRow "Carol Williams" "STU-3" "c@example.com"] in
  let w :=
    Scripted.mkScript 0 2026 [] [Ok 7%Z; Ok 8%Z]
      [Ok (mkTx "0xaa"); Throw (Scripted.revert "gas estimation failed");
       Ok (mkTx "0xbb")]
      [Ok (mkReceipt 100 21000); Throw (Scripted.revert "reverted")]
      [] [] [] in
  let j := mkJob "job-1" "processing" None None certs [] "t0" None None None
             None None in
  exists res h',
    BlockchainService.issueBatch certs None (mkHeap w j) = (Ok res, h')
    /\ succeeded res
       = length (filter (fun r => status r = "success") (results res))
    /\ failed res
       = length (filter (fun r => status r = "failed") (results res)).
Proof.
  intros certs w j.
  assert (exists res h',
            BlockchainService.issueBatch certs None (mkHeap w j)
            = (Ok res, h')) as (res & h' & Hrun)
    by (eexists _, _; vm_compute; reflexivity).
  exists res, h'. split; [exact Hrun |].
  exact (issueBatch_counters_match_results certs None (mkHeap w j) h' res
           I Hrun).
Defined.

(** X16 (blockchainService.js, issueBatch). As long as every earlier
    record of the batch was accepted and confirmed, record [k] is submitted
    with the initial pending nonce plus [k]; when every record is
    confirmed the cursor ends at the initial nonce plus the number of
    records. *)
Theorem issueBatch_confirmed_prefix_is_consecutive
    {World : Type} `{Services World} (certificates : list Cert)
    (onProgress : option (Progress -> M (Heap World) unit))
    (h h0 : Heap World) (nonce0 : Z) :
  callbackReturns onProgress ->
  call getNonce h = (Ok nonce0, h0) ->
  exists l h',
    BlockchainService.issueBatchLocals certificates onProgress h = (Ok l, h')
    /\ let events :=
         BlockchainService.batchTrace certificates onProgress h in
       (forall k e,
          events !! k = Some e ->
          (forall j e', j < k -> events !! j = Some e' ->
                        BlockchainService.fate e'
                        = BlockchainService.Confirmed) ->
          BlockchainService.cursorBefore e = (nonce0 + Z.of_nat k)%Z)
       /\ ((forall j e', events !! j = Some e' ->
                         BlockchainService.fate e'
                         = BlockchainService.Confirmed) ->
           BlockchainService.nonce l
           = (nonce0 + Z.of_nat (length certificates))%Z).
Proof.
  intros Hcb Hn.
  destruct (issueLoop_cursor onProgress (length certificates) certificates
              Hcb 0 h0 (BlockchainService.mkLocals [] 0 0 nonce0))
    as (h' & l' & Hloop & Hlen & Hfirst & Hafter & Hcons).
  exists l', h'.
  split; [exact (issueBatchLocals_run _ _ _ _ _ _ _ Hn Hloop) |].
  cbv zeta. rewrite (batchTrace_run _ _ _ _ _ Hn).
  set (events := BlockchainService.trace _ _ _ _ _) in *.
  cbn [BlockchainService.nonce] in Hfirst.
  assert (forall k e,
            events !! k = Some e ->
            (forall j e', j < k -> events !! j = Some e' ->
                          BlockchainService.fate e'
                          = BlockchainService.Confirmed) ->
            BlockchainService.cursorBefore e = (nonce0 + Z.of_nat k)%Z)
    as Hprefix.
  { induction k as [|k IHk]; intros e He Hconf.
    - rewrite (Hfirst e He). lia.
    - destruct (events !! k) as [ek|] eqn:Hek.
      + pose proof (Hafter k ek Hek) as Hstep.
        unfold cursorAfter in Hstep. rewrite He in Hstep.
        rewrite Hstep. unfold nextCursor.
        rewrite (Hconf k ek (Nat.lt_succ_diag_r k) Hek).
        rewrite (IHk ek eq_refl); [lia |].
        intros j e' Hj. apply Hconf. lia.
      + apply lookup_ge_None in Hek. apply lookup_lt_Some in He. lia. }
  split; [exact Hprefix |].
  intros Hall.
  destruct (length certificates) as [|n] eqn:Hsize.
  - destruct certificates; [| discriminate].
    cbn in Hloop. injection Hloop as _ <-. cbn. lia.
  - destruct (events !! n) as [en|] eqn:Hen.
    + pose proof (Hafter n en Hen) as Hstep.
      unfold cursorAfter in Hstep.
      rewrite (proj2 (lookup_ge_None events (S n))) in Hstep by lia.
      rewrite Hstep. unfold nextCursor. rewrite (Hall n en Hen).
      rewrite (Hprefix n en Hen); [lia |].
      intros j e' _. apply Hall.
    + apply lookup_ge_None in Hen. lia.
Qed.

Lemma issueBatch_confirmed_prefix_is_consecutive_witness :
  let certs :=
    [Scripted.sampleRow "Alice Johnson" "STU-1" "a@example.com";
     Scripted.sampleRow "Bob Smith" "STU-2" "b@example.com";
     Scripted.sampleRow "Carol Williams" "STU-3" "c@example.com"] in
  let w :=
    Scripted.mkScript 0 2026 [] [Ok 7%Z]
      [Ok (mkTx "0xaa"); Ok (mkTx "0xbb"); Ok (mkTx "0xcc")]
      [Ok (mkReceipt 100 21000); Ok (mkReceipt 101 21000);
       Ok (mkReceipt 102 21000)]
      [] [] [] in
  let j := mkJob "job-1" "processing" None None certs [] "t0" None None None
             None None in
  (exists l h',
     BlockchainService.issueBatchLocals certs None (mkHeap w j) = (Ok l, h'))
  /\ (BlockchainService.cursorBefore
        <$> BlockchainService.batchTrace certs None (mkHeap w j),
      BlockchainService.nonce
        <$> match fst (BlockchainService.issueBatchLocals certs None
                         (mkHeap w j)) with
            | Ok l => Some l
            | Throw _ => None
            end)
     = ([7%Z; 8%Z; 9%Z], Some 10%Z).
Proof.
  intros certs w j. split; [| vm_compute; reflexivity].
  edestruct (issueBatch_confirmed_prefix_is_consecutive certs None
               (mkHeap w j))
    as (l & h' & Hrun & _);
    [exact I | vm_compute; reflexivity |].
  exists l, h'. exact Hrun.
Defined.

(** ** The document, QR and mail services *)

Section ServiceLoops.

Context {World : Type} `{Services World}.

Lemma qrLoop_returns cs acc (h : Heap World) :
  exists rs h',
    QrService.qrLoop cs acc h = (Ok (acc ++ rs), h')
    /\ job h' = job h
    /\ Forall2 qrOutcomeOf cs rs.
Proof.
  revert acc h. induction cs as [|c cs IH]; intros acc h;
    cbn [QrService.qrLoop].
  - exists [], h. rewrite app_nil_r. auto.
  - unfold bind at 1, tryCatch, bind at 1, call, ret.
    destruct (saveQRToFile _ _ (world h)) as [[f|e] w1]; cbv beta iota.
    + destruct (IH (acc ++ [QrService.qrSuccess c f]) (mkHeap w1 (job h)))
        as (rs & h' & Hrun & Hjob & Hall).
      exists (QrService.qrSuccess c f :: rs), h'.
      rewrite Hrun, <- app_assoc. split; [reflexivity |].
      split; [exact Hjob |]. constructor; [| exact Hall].
      split; [reflexivity |]. left. cbn. eauto.
    + destruct (IH (acc ++ [QrService.qrFailure c e]) (mkHeap w1 (job h)))
        as (rs & h' & Hrun & Hjob & Hall).
      exists (QrService.qrFailure c e :: rs), h'.
      rewrite Hrun, <- app_assoc. split; [reflexivity |].
      split; [exact Hjob |]. constructor; [| exact Hall].
      split; [reflexivity |]. right. cbn. eauto.
Qed.

Lemma pdfLoop_returns templateName onProgress total cs :
  callbackReturns onProgress ->
  forall i acc (h : Heap World),
  exists rs h',
    PdfService.pdfLoop templateName onProgress total i cs acc h
    = (Ok (acc ++ rs), h')
    /\ Forall2 pdfOutcomeOf cs rs.
Proof.
  intros Hcb. induction cs as [|c cs IH]; intros i acc h;
    cbn [PdfService.pdfLoop].
  - exists [], h. rewrite app_nil_r. auto.
  - unfold bind at 1, tryCatch, bind at 1, call, ret.
    destruct (renderPdf templateName c (world h)) as [[f|e] w1];
      cbv beta iota.
    + assert (exists h1,
                (match onProgress with
                 | Some cb => cb (PdfService.pdfProgress i total)
                 | None => ret tt
                 end) (mkHeap w1 (job h)) = (Ok tt, h1)) as (h1 & Hp).
      { destruct onProgress as [cb|]; [| eexists; reflexivity].
        destruct (Hcb (PdfService.pdfProgress i total) (mkHeap w1 (job h)))
          as ([] & h1 & Hp). eauto. }
      rewrite (bind_step _ _ _ _ _ Hp).
      destruct (IH (S i) (acc ++ [PdfService.pdfSuccess c f]) h1)
        as (rs & h' & Hrun & Hall).
      exists (PdfService.pdfSuccess c f :: rs), h'.
      rewrite Hrun, <- app_assoc. split; [reflexivity |].
      constructor; [| exact Hall].
      split; [reflexivity |]. left. cbn. eauto.
    + assert (exists h1,
                (match onProgress with
                 | Some cb => cb (PdfService.pdfProgress i total)
                 | None => ret tt
                 end) (mkHeap w1 (job h)) = (Ok tt, h1)) as (h1 & Hp).
      { destruct onProgress as [cb|]; [| eexists; reflexivity].
        destruct (Hcb (PdfService.pdfProgress i total) (mkHeap w1 (job h)))
          as ([] & h1 & Hp). eauto. }
      rewrite (bind_step _ _ _ _ _ Hp).
      destruct (IH (S i) (acc ++ [PdfService.pdfFailure c e]) h1)
        as (rs & h' & Hrun & Hall).
      exists (PdfService.pdfFailure c e :: rs), h'.
      rewrite Hrun, <- app_assoc. split; [reflexivity |].
      constructor; [| exact Hall].
      split; [reflexivity |]. right. cbn. eauto.
Qed.

(** The counters of [bulkSendEmails] count its results. *)
Lemma mailLoop_counts onProgress total js :
  forall i acc (h h' : Heap World) res,
  EmailService.mailLoop onProgress total i js acc h = (Ok res, h') ->
  exists rs,
    mailResults res = mailResults acc ++ rs
    /\ length rs = length js
    /\ (forall k j, js !! k = Some j ->
         exists result, rs !! k = Some (i + k, mailCertId j, result))
    /\ mailsSent res
       = mailsSent acc + length (filter (fun r => sent r.2 = true) rs)
    /\ mailsFailed res
       = mailsFailed acc + length (filter (fun r => sent r.2 = false) rs)
    /\ (js <> [] -> mailsTotal res = total)
    /\ (js = [] -> res = acc).
Proof.
  induction js as [|j js IH]; intros i acc h h' res Hrun;
    cbn [EmailService.mailLoop] in Hrun.
  - injection Hrun as <- _. exists []. rewrite app_nil_r. cbn.
    repeat split; auto; try lia; [intros k j Hk; discriminate |].
    intros Hne. contradiction.
  - apply bind_Ok in Hrun as (result & h1 & Hsend & Hrun).
    apply bind_Ok in Hrun as (u & h2 & Hcb & Hrun).
    apply IH in Hrun as (rs & Hres & Hlen & Hall & Hs & Hf & Htot & Hnil).
    cbn [mailResults mailsSent mailsFailed mailsTotal] in *.
    exists ((i, mailCertId j, result) :: rs).
    split; [rewrite Hres, <- app_assoc; reflexivity |].
    split; [cbn; lia |].
    split.
    { intros [|k] j' Hk; cbn in Hk.
      - injection Hk as <-. exists result. rewrite Nat.add_0_r. reflexivity.
      - destruct (Hall k j' Hk) as (r' & Hr'). exists r'.
        replace (i + S k) with (S i + k) by lia. exact Hr'. }
    rewrite !filter_cons. cbn [snd].
    destruct (sent result) eqn:Hsent.
    + rewrite decide_True by reflexivity.
      rewrite decide_False by discriminate. cbn [length].
      repeat split; try lia; [| discriminate].
      intros _. destruct js as [|j2 js]; [| apply Htot; discriminate].
      rewrite Hnil by reflexivity. reflexivity.
    + rewrite decide_False by discriminate.
      rewrite decide_True by reflexivity. cbn [length].
      repeat split; try lia; [| discriminate].
      intros _. destruct js as [|j2 js]; [| apply Htot; discriminate].
      rewrite Hnil by reflexivity. reflexivity.
Qed.

Lemma bulkSendEmails_counts emailJobs onProgress (h h' : Heap World) res :
  EmailService.bulkSendEmails emailJobs onProgress h = (Ok res, h') ->
  length (mailResults res) = length emailJobs
  /\ (forall k j, emailJobs !! k = Some j ->
       exists result, mailResults res !! k = Some (k, mailCertId j, result))
  /\ mailsSent res
     = length (filter (fun r => sent r.2 = true) (mailResults res))
  /\ mailsFailed res
     = length (filter (fun r => sent r.2 = false) (mailResults res))
  /\ mailsSent res + mailsFailed res = length emailJobs
  /\ mailsTotal res = length emailJobs.
Proof.
  unfold EmailService.bulkSendEmails. intros Hrun.
  apply mailLoop_counts in Hrun
    as (rs & Hres & Hlen & Hall & Hs & Hf & Htot & Hnil).
  cbn [mailResults mailsSent mailsFailed] in *. rewrite Hres. cbn [app].
  split; [exact Hlen |]. split; [exact Hall |].
  split; [exact Hs |]. split; [exact Hf |]. split.
  - rewrite Hs, Hf, <- Hlen. cbn.
    clear. induction rs as [|r rs IH]; [reflexivity |].
    rewrite !filter_cons. destruct (sent r.2).
    + rewrite decide_True by reflexivity.
      rewrite decide_False by discriminate. cbn [length]. lia.
    + rewrite decide_False by discriminate.
      rewrite decide_True by reflexivity. cbn [length]. lia.
  - destruct emailJobs as [|j js]; [| apply Htot; discriminate].
    rewrite Hnil by reflexivity. reflexivity.
Qed.

Lemma bulkGeneratePDFs_Ok templateName certs onProgress (h h' : Heap World)
    rs :
  callbackReturns onProgress ->
  PdfService.bulkGeneratePDFs templateName certs onProgress h = (Ok rs, h') ->
  Forall2 pdfOutcomeOf certs rs.
Proof.
  intros Hcb Hrun. unfold PdfService.bulkGeneratePDFs in Hrun.
  apply bind_Ok in Hrun as (u & h1 & _ & Hrun).
  destruct (pdfLoop_returns templateName onProgress (length certs) certs Hcb
              0 [] h1) as (rs1 & h2 & Hloop & Hall).
  unfold tryFinally in Hrun. rewrite Hloop in Hrun. cbn [app] in Hrun.
  destruct (call closeBrowser h2) as [[v|e] h3]; [| discriminate].
  injection Hrun as <- _. exact Hall.
Qed.

End ServiceLoops.

Section ServiceReports.

Context {World : Type} `{Services World}.

(** Every QR result reports what [saveQRToFile] did for its record, in
    the world left by the calls for the records before it. *)
Lemma qrLoop_reports cs :
  forall acc (h : Heap World),
  exists rs,
    QrService.qrLoop cs acc h
    = (Ok (acc ++ rs), mkHeap (qrWorld cs (world h) (length cs)) (job h))
    /\ length rs = length cs
    /\ (forall k c, cs !! k = Some c ->
         exists r, rs !! k = Some r
                   /\ reportsQr c (qrWorld cs (world h) k) r).
Proof.
  induction cs as [|c cs IH]; intros acc h; cbn [QrService.qrLoop].
  - exists []. rewrite app_nil_r. destruct h. cbn. repeat split.
    intros k c Hk. discriminate.
  - unfold bind at 1, tryCatch, bind at 1, call, ret.
    cbn [length qrWorld].
    destruct (saveQRToFile (certId c) (interpolate (certId c) +:+ ".png")
                (world h)) as [[f|e] w1] eqn:Hsave; cbv beta iota; cbn [snd].
    + destruct (IH (acc ++ [QrService.qrSuccess c f]) (mkHeap w1 (job h)))
        as (rs & Hrun & Hlen & Hall).
      exists (QrService.qrSuccess c f :: rs).
      rewrite Hrun, <- app_assoc. cbn [world job]. split; [reflexivity |].
      split; [cbn; lia |].
      intros [|k] c' Hk; cbn in Hk.
      * injection Hk as <-. eexists. split; [reflexivity |].
        unfold reportsQr. cbn [qrWorld]. rewrite Hsave. reflexivity.
      * destruct (Hall k c' Hk) as (r & Hr & Hrep). exists r.
        split; [exact Hr |]. exact Hrep.
    + destruct (IH (acc ++ [QrService.qrFailure c e]) (mkHeap w1 (job h)))
        as (rs & Hrun & Hlen & Hall).
      exists (QrService.qrFailure c e :: rs).
      rewrite Hrun, <- app_assoc. cbn [world job]. split; [reflexivity |].
      split; [cbn; lia |].
      intros [|k] c' Hk; cbn in Hk.
      * injection Hk as <-. eexists. split; [reflexivity |].
        unfold reportsQr. cbn [qrWorld]. rewrite Hsave. reflexivity.
      * destruct (Hall k c' Hk) as (r & Hr & Hrep). exists r.
        split; [exact Hr |]. exact Hrep.
Qed.

(** Every PDF result reports what rendering did for its record, in the
    heap left by the renderings and the progress reports before it. *)
Lemma pdfLoop_reports templateName onProgress total cs :
  callbackReturns onProgress ->
  forall i acc (h : Heap World),
  exists rs h',
    PdfService.pdfLoop templateName onProgress total i cs acc h
    = (Ok (acc ++ rs), h')
    /\ length rs = length cs
    /\ (forall k c, cs !! k = Some c ->
         exists r,
           rs !! k = Some r
           /\ reportsPdf templateName c
                (world (renderHeap templateName onProgress total i cs h k))
                r).
Proof.
  intros Hcb. induction cs as [|c cs IH]; intros i acc h;
    cbn [PdfService.pdfLoop].
  - exists [], h. rewrite app_nil_r. repeat split.
    intros k c Hk. discriminate.
  - unfold bind at 1, tryCatch, bind at 1, call, ret.
    destruct (renderPdf templateName c (world h)) as [[f|e] w1] eqn:Hrender;
      cbv beta iota.
    + assert (exists h1,
                (match onProgress with
                 | Some cb => cb (PdfService.pdfProgress i total)
                 | None => ret tt
                 end) (mkHeap w1 (job h)) = (Ok tt, h1)
                /\ h1 = match onProgress with
                        | Some cb =>
                            snd (cb (PdfService.pdfProgress i total)
                                   (mkHeap w1 (job h)))
                        | None => mkHeap w1 (job h)
                        end) as (h1 & Hp & Hh1).
      { destruct onProgress as [cb|]; [| eexists; split; reflexivity].
        destruct (Hcb (PdfService.pdfProgress i total) (mkHeap w1 (job h)))
          as ([] & h1 & Hp). exists h1. rewrite Hp. auto. }
      rewrite (bind_step _ _ _ _ _ Hp).
      destruct (IH (S i) (acc ++ [PdfService.pdfSuccess c f]) h1)
        as (rs & h' & Hrun & Hlen & Hall).
      exists (PdfService.pdfSuccess c f :: rs), h'.
      rewrite Hrun, <- app_assoc. split; [reflexivity |].
      split; [cbn; lia |].
      intros [|k] c' Hk; cbn in Hk.
      * injection Hk as <-. eexists. split; [reflexivity |].
        unfold reportsPdf. cbn [renderHeap]. rewrite Hrender. reflexivity.
      * destruct (Hall k c' Hk) as (r & Hr & Hrep). exists r.
        split; [exact Hr |]. cbn [renderHeap]. rewrite Hrender. cbn [snd].
        rewrite <- Hh1. exact Hrep.
    + assert (exists h1,
                (match onProgress with
                 | Some cb => cb (PdfService.pdfProgress i total)
                 | None => ret tt
                 end) (mkHeap w1 (job h)) = (Ok tt, h1)
                /\ h1 = match onProgress with
                        | Some cb =>
                            snd (cb (PdfService.pdfProgress i total)
                                   (mkHeap w1 (job h)))
                        | None => mkHeap w1 (job h)
                        end) as (h1 & Hp & Hh1).
      { destruct onProgress as [cb|]; [| eexists; split; reflexivity].
        destruct (Hcb (PdfService.pdfProgress i total) (mkHeap w1 (job h)))
          as ([] & h1 & Hp). exists h1. rewrite Hp. auto. }
      rewrite (bind_step _ _ _ _ _ Hp).
      destruct (IH (S i) (acc ++ [PdfService.pdfFailure c e]) h1)
        as (rs & h' & Hrun & Hlen & Hall).
      exists (PdfService.pdfFailure c e :: rs), h'.
      rewrite Hrun, <- app_assoc. split; [reflexivity |].
      split; [cbn; lia |].
      intros [|k] c' Hk; cbn in Hk.
      * injection Hk as <-. eexists. split; [reflexivity |].
        unfold reportsPdf. cbn [renderHeap]. rewrite Hrender. reflexivity.
      * destruct (Hall k c' Hk) as (r & Hr & Hrep). exists r.
        split; [exact Hr |]. cbn [renderHeap]. rewrite Hrender. cbn [snd].
        rewrite <- Hh1. exact Hrep.
Qed.

End ServiceReports.

(** X17 (qrService.js, bulkGenerateQR). [bulkGenerateQR] always returns: a
    QR code that cannot be written never aborts the batch. It calls
    [saveQRToFile] once per certificate, in order, for the file
    [<certId>.png], and yields one result per certificate, each carrying
    the certificate's identifier and reporting that call: status
    "success" with the path, name and size of the file that was saved, or
    status "failed" with the message of the error that was thrown. The
    job is left untouched. *)
Theorem bulkGenerateQR_one_result_per_record
    {World : Type} `{Services World} (certificates : list Cert)
    (h : Heap World) :
  exists rs h',
    QrService.bulkGenerateQR certificates h = (Ok rs, h')
    /\ job h' = job h
    /\ world h' = qrWorld certificates (world h) (length certificates)
    /\ length rs = length certificates
    /\ (forall k c, certificates !! k = Some c ->
        exists r,
          rs !! k = Some r
          /\ qrCertId r = certId c
          /\ match saveQRToFile (certId c) (interpolate (certId c) +:+ ".png")
                     (qrWorld certificates (world h) k) with
             | (Ok f, _) =>
                 qrStatus r = "success"
                 /\ qrFilePath r = Some (qrPath f)
                 /\ qrFileName r = Some (qrName f)
                 /\ qrSize r = Some (qrBytes f)
                 /\ qrError r = None
             | (Throw err, _) =>
                 qrStatus r = "failed"
                 /\ qrError r = Some (errMessage err)
                 /\ qrFilePath r = None /\ qrFileName r = None
                 /\ qrSize r = None
             end).
Proof.
  destruct (qrLoop_reports certificates [] h) as (rs & Hrun & Hlen & Hall).
  exists rs, (mkHeap (qrWorld certificates (world h) (length certificates))
                (job h)).
  split; [exact Hrun |]. split; [reflexivity |]. split; [reflexivity |].
  split; [exact Hlen |].
  intros k c Hk. destruct (Hall k c Hk) as (r & Hr & Hrep).
  exists r. split; [exact Hr |]. unfold reportsQr in Hrep.
  destruct (saveQRToFile _ _ _) as [[f|err] w1]; subst r; cbn; auto 10.
Qed.

(** X18 (pdfService.js, bulkGeneratePDFs). Once the browser has been
    launched, and provided closing it does not fail, [bulkGeneratePDFs]
    returns whatever happens to the individual documents: one result per
    certificate, in order, each carrying the certificate's identifier and
    reporting the rendering of that certificate's document: status
    "success" with the path and name of the file written, its size and
    the rendered bytes, or status "failed" with the message of the error
    thrown and no file, size or bytes. *)
Theorem bulkGeneratePDFs_survives_render_failures
    {World : Type} `{Services World} (templateName : string)
    (certificates : list Cert)
    (onProgress : option (Progress -> M (Heap World) unit))
    (h : Heap World) (w0 : World) :
  callbackReturns onProgress ->
  launchBrowser (world h) = (Ok tt, w0) ->
  (forall w, exists w', closeBrowser w = (Ok tt, w')) ->
  exists rs h',
    PdfService.bulkGeneratePDFs templateName certificates onProgress h
    = (Ok rs, h')
    /\ length rs = length certificates
    /\ (forall k c, certificates !! k = Some c ->
        exists r,
          rs !! k = Some r
          /\ pdfCertId r = certId c
          /\ match renderPdf templateName c
                     (world (renderHeap templateName onProgress
                               (length certificates) 0 certificates
                               (mkHeap w0 (job h)) k)) with
             | (Ok f, _) =>
                 pdfStatus r = "success"
                 /\ pdfFilePath r = Some (pdfPath f)
                 /\ pdfFileName r = Some (pdfName f)
                 /\ pdfSize r = Some (length (pdfBytes f))
                 /\ pdfBuffer r = Some (pdfBytes f)
                 /\ pdfError r = None
             | (Throw err, _) =>
                 pdfStatus r = "failed"
                 /\ pdfError r = Some (errMessage err)
                 /\ pdfFilePath r = None /\ pdfFileName r = None
                 /\ pdfSize r = None /\ pdfBuffer r = None
             end).
Proof.
  intros Hcb Hlaunch Hclose. unfold PdfService.bulkGeneratePDFs.
  unfold bind at 1, call at 1. rewrite Hlaunch. cbv beta iota.
  destruct (pdfLoop_reports templateName onProgress (length certificates)
              certificates Hcb 0 [] (mkHeap w0 (job h)))
    as (rs & h1 & Hloop & Hlen & Hall).
  unfold tryFinally. rewrite Hloop. cbn [app]. unfold call.
  destruct (Hclose (world h1)) as (w2 & Hw2). rewrite Hw2.
  exists rs, (mkHeap w2 (job h1)). split; [reflexivity |].
  split; [exact Hlen |].
  intros k c Hk. destruct (Hall k c Hk) as (r & Hr & Hrep).
  exists r. split; [exact Hr |]. unfold reportsPdf in Hrep.
  destruct (renderPdf _ _ _) as [[f|err] w1]; subst r; cbn; auto 10.
Qed.

Lemma bulkGeneratePDFs_survives_render_failures_witness :
  let certs :=
    [set_certId "CERT-2026-001-ABC"
       (Scripted.sampleRow "Alice Johnson" "STU-1" "a@example.com");
     set_certId "CERT-2026-002-K3X"
       (Scripted.sampleRow "Bob Smith" "STU-2" "b@example.com")] in
  let w :=
    Scripted.mkScript 0 2026 [] [] [] []
      [Throw (plainError "render timeout"); Ok Scripted.samplePdf] [] [] in
  let j := mkJob "job-1" "processing" None None certs [] "t0" None None None
             None None in
  (exists rs h',
     PdfService.bulkGeneratePDFs "default-certificate" certs None (mkHeap w j)
     = (Ok rs, h')
     /\ length rs = 2)
  /\ fst (PdfService.bulkGeneratePDFs "default-certificate" certs None
            (mkHeap w j))
     = Ok [mkPdfResult (Some "CERT-2026-001-ABC") None None None None "failed"
             (Some "render timeout");
           mkPdfResult (Some "CERT-2026-002-K3X") (Some "/out/c.pdf")
             (Some "c.pdf") (Some 0) (Some []) "success" None].
Proof.
  intros certs w j. split; [| vm_compute; reflexivity].
  edestruct (bulkGeneratePDFs_survives_render_failures
               (World:=Scripted.Script) "default-certificate" certs None
               (mkHeap w j) w)
    as (rs & h' & Hrun & Hlen & _).
  - exact I.
  - reflexivity.
  - intros w1. exists w1. reflexivity.
  - exists rs, h'. split; [exact Hrun | exact Hlen].
Defined.

(** X19 (emailService.js, bulkSendEmails). When [bulkSendEmails] returns,
    it holds one result per email job, in order, each tagged with its
    position and the job's certificate identifier; [sent] is the number of
    results that were sent, [failed] the number that were not, and the two
    add up to [total], the number of jobs. *)
Theorem bulkSendEmails_counts_its_results
    {World : Type} `{Services World} (emailJobs : list EmailJob)
    (onProgress : option (Progress -> M (Heap World) unit))
    (h h' : Heap World) (res : EmailSummary) :
  EmailService.bulkSendEmails emailJobs onProgress h = (Ok res, h') ->
  length (mailResults res) = length emailJobs
  /\ (forall k j, emailJobs !! k = Some j ->
      exists result, mailResults res !! k = Some (k, mailCertId j, result))
  /\ mailsSent res
     = length (filter (fun r => sent r.2 = true) (mailResults res))
  /\ mailsFailed res
     = length (filter (fun r => sent r.2 = false) (mailResults res))
  /\ mailsSent res + mailsFailed res = mailsTotal res
  /\ mailsTotal res = length emailJobs.
Proof.
  intros Hrun.
  destruct (bulkSendEmails_counts _ _ _ _ _ Hrun)
    as (Hlen & Hall & Hs & Hf & Hsum & Htot).
  rewrite Htot. auto 10.
Qed.

Lemma bulkSendEmails_counts_its_results_witness :
  let jobs :=
    [mkEmailJob (Some "a@example.com") (Some "Alice Johnson")
       (Some "CERT-2026-001-ABC") (Some "BSc") (Some "MIT")
       (Some (DateString "2026-06-15")) None None;
     mkEmailJob (Some "b@example.com") (Some "Bob Smith")
       (Some "CERT-2026-002-K3X") (Some "MBA") (Some "Harvard")
       (Some (DateString "2026-06-15")) None None] in
  let w :=
    Scripted.mkScript 0 2026 [] [] [] [] [] []
      [Ok (mkEmailResult true None);
       Ok (mkEmailResult false (Some "mailbox unavailable"))] in
  let j := mkJob "job-1" "processing" None None [] [] "t0" None None None
             None None in
  exists res h',
    EmailService.bulkSendEmails jobs None (mkHeap w j) = (Ok res, h')
    /\ mailsSent res + mailsFailed res = mailsTotal res
    /\ mailsTotal res = 2.
Proof.
  intros jobs w j.
  assert (exists res h',
            EmailService.bulkSendEmails jobs None (mkHeap w j)
            = (Ok res, h')) as (res & h' & Hrun)
    by (eexists _, _; vm_compute; reflexivity).
  exists res, h'. split; [exact Hrun |].
  destruct (bulkSendEmails_counts_its_results jobs None (mkHeap w j) h' res
              Hrun) as (_ & _ & _ & _ & Hsum & Htot).
  split; [exact Hsum | exact Htot].
Defined.

(** ** The summary of a completed job *)

Section SummaryFacts.

Context {World : Type} `{Services World}.

Import BulkController.

Lemma finishJob_summary n compiled jobSummary (h h' : Heap World) :
  finishJob n compiled jobSummary h = (Ok tt, h') ->
  summary (job h') = Some jobSummary.
Proof.
  unfold finishJob, cleanUp, setProgress, bind, updateJob, modify, ask, gets,
    tryCatch, call, ret.
  cbn [world job]. destruct (nowISO (world h)) as [stamp w1]. cbn [world job].
  cbn [filePath set_progress set_summary set_completedAt set_jobResults
       set_jobStatus].
  destruct (Js.truthy (filePath (job h))).
  - cbn [world job]. destruct (removeUpload _ w1) as [[u|e] w2];
      intros Heq; inversion Heq; reflexivity.
  - intros Heq; inversion Heq; reflexivity.
Qed.

(** The records handed to the QR phase are as many as the chain results
    with status "success". *)
Lemma filterIndexed_chain_length (chain : list ChainResult) (certs : list Cert) :
  forall i,
  i + length certs <= length chain ->
  length (filterIndexed (fun _ k => chainSucceeded chain k) i certs)
  = countStatus status (take (length certs) (drop i chain)).
Proof.
  induction certs as [|c certs IH]; intros i Hlen; cbn [filterIndexed length].
  - reflexivity.
  - cbn [length] in Hlen.
    destruct (lookup_lt_is_Some_2 chain i ltac:(lia)) as [r Hr].
    rewrite (drop_S _ _ _ Hr). cbn [take]. rewrite countStatus_cons.
    unfold chainSucceeded at 1. rewrite Hr.
    destruct (String.eqb (status r) "success"); cbn [length];
      rewrite IH by lia; reflexivity.
Qed.

Lemma strOr_status (s : string) :
  s = "success" \/ s = "failed" -> strOr (Some s) "skipped" = s.
Proof. intros [-> | ->]; reflexivity. Qed.

(** In the compiled results the chain status of entry [k] is the status
    of chain result [k]. *)
Lemma compileResults_chain_status certs chain pdfResults qrResults :
  forall i,
  i + length certs <= length chain ->
  (forall r, r ∈ chain -> terminalOutcome r) ->
  (fun e => outStatus (blockchain e))
    <$> compileResults certs i chain pdfResults qrResults
  = status <$> take (length certs) (drop i chain).
Proof.
  intros i Hlen Hterm. revert i Hlen.
  induction certs as [|c certs IH]; intros i Hlen;
    cbn [compileResults length fmap list_fmap]; [reflexivity |].
  cbn [length] in Hlen.
  destruct (lookup_lt_is_Some_2 chain i ltac:(lia)) as [r Hr].
  rewrite (drop_S _ _ _ Hr). cbn [take fmap list_fmap].
  rewrite IH by lia. f_equal.
  unfold compileEntry. cbn [blockchain outStatus]. rewrite Hr. cbn.
  apply strOr_status. apply terminalOutcome_status. apply Hterm.
  apply (list_elem_of_lookup_2 _ i). exact Hr.
Qed.

Lemma pdfOutcomeOf_status c r :
  pdfOutcomeOf c r -> pdfStatus r = "success" \/ pdfStatus r = "failed".
Proof. intros (_ & [(Hs & _)|(Hs & _)]); auto. Qed.

Lemma compileResults_pdf_status certs chain pdfResults qrResults :
  forall i,
  i + length certs <= length pdfResults ->
  (forall r, r ∈ pdfResults ->
             pdfStatus r = "success" \/ pdfStatus r = "failed") ->
  (fun e => outPdfStatus (pdf e))
    <$> compileResults certs i chain pdfResults qrResults
  = pdfStatus <$> take (length certs) (drop i pdfResults).
Proof.
  intros i Hlen Hterm. revert i Hlen.
  induction certs as [|c certs IH]; intros i Hlen;
    cbn [compileResults length fmap list_fmap]; [reflexivity |].
  cbn [length] in Hlen.
  destruct (lookup_lt_is_Some_2 pdfResults i ltac:(lia)) as [r Hr].
  rewrite (drop_S _ _ _ Hr). cbn [take fmap list_fmap].
  rewrite IH by lia. f_equal.
  unfold compileEntry. cbn [pdf outPdfStatus]. rewrite Hr. cbn.
  apply strOr_status. apply Hterm.
  apply (list_elem_of_lookup_2 _ i). exact Hr.
Qed.

Lemma count_fmap {A} (st : A -> string) (v : string) (l : list A) :
  length (filter (fun x => st x = v) l)
  = length (filter (fun s => s = v) (st <$> l)).
Proof.
  induction l as [|x l IH]; [reflexivity |].
  cbn [fmap list_fmap]. rewrite !filter_cons.
  destruct (decide (st x = v)); cbn [length]; rewrite IH; reflexivity.
Qed.

Lemma count_success_failed (l : list string) :
  (forall s, s ∈ l -> s = "success" \/ s = "failed") ->
  length (filter (fun s => s = "success") l)
  + length (filter (fun s => s = "failed") l) = length l.
Proof.
  induction l as [|x l IH]; intros Hall; [reflexivity |].
  rewrite !filter_cons.
  assert (forall s, s ∈ l -> s = "success" \/ s = "failed") as Hrest.
  { intros s Hs. apply Hall. apply list_elem_of_further. exact Hs. }
  specialize (IH Hrest).
  destruct (Hall x (list_elem_of_here _ _)) as [-> | ->].
  - rewrite decide_True by reflexivity.
    rewrite decide_False by discriminate. cbn [length]. lia.
  - rewrite decide_False by discriminate.
    rewrite decide_True by reflexivity. cbn [length]. lia.
Qed.

Lemma phaseEmails_counts sendEmails cs pdfResults (h h' : Heap World) r :
  phaseEmails sendEmails cs pdfResults h = (Ok r, h') ->
  from_option mailsSent 0 r + from_option mailsFailed 0 r <= length cs
  /\ (sendEmails && isEmailConfigured = false -> r = None).
Proof.
  unfold phaseEmails. destruct (sendEmails && isEmailConfigured).
  - intros Hrun. apply bind_Ok in Hrun as (u & h1 & _ & Hrun).
    apply bind_Ok in Hrun as (res & h2 & Hmail & Hret).
    injection Hret as <- _.
    apply bulkSendEmails_counts in Hmail as (_ & _ & _ & _ & Hsum & _).
    cbn [from_option]. rewrite Hsum, length_fmap. split; [| discriminate].
    clear. induction cs as [|c cs IH]; [reflexivity |].
    cbn [List.filter]. destruct (Js.truthy (email c)); cbn [length]; lia.
  - intros [= <- _]. cbn. split; [lia | reflexivity].
Qed.

End SummaryFacts.

Section SummaryRun.

Context {World : Type} `{Services World}.

Import BulkController.

Lemma issueBatch_sum certs onProgress (h h' : Heap World) bc :
  callbackReturns onProgress ->
  BlockchainService.issueBatch certs onProgress h = (Ok bc, h') ->
  succeeded bc + failed bc = length certs.
Proof.
  intros Hcb Hrun.
  destruct (issueBatch_counters _ _ _ _ _ Hcb Hrun) as [Hs Hf].
  destruct (issueBatch_Ok _ _ _ _ _ Hcb Hrun) as [Hlen Hall].
  rewrite Hs, Hf, <- Hlen. unfold countStatus.
  rewrite (count_fmap status "success"), (count_fmap status "failed").
  rewrite count_success_failed; [apply length_fmap |].
  intros s Hs'. apply list_elem_of_fmap in Hs' as (r & -> & Hr).
  apply list_elem_of_lookup in Hr as (k & Hk).
  destruct (Hall k r Hk) as (c & _ & _ & _ & Ht).
  apply terminalOutcome_status. exact Ht.
Qed.

Lemma processPipeline_summary templateName sendEmails (h h' : Heap World) :
  processPipeline templateName sendEmails h = (Ok tt, h') ->
  exists sm entries,
    summary (job h') = Some sm
    /\ jobResults (job h') = Some entries
    /\ summaryTotal sm = length (records (job h))
    /\ length entries = summaryTotal sm
    /\ blockchainSuccess sm + blockchainFailed sm = summaryTotal sm
    /\ blockchainSuccess sm
       = length (filter (fun e => outStatus (blockchain e) = "success")
                   entries)
    /\ blockchainFailed sm
       = length (filter (fun e => outStatus (blockchain e) = "failed")
                   entries)
    /\ pdfsGenerated sm
       = length (filter (fun e => outPdfStatus (pdf e) = "success") entries)
    /\ qrCodesGenerated sm <= blockchainSuccess sm
    /\ emailsSent sm + emailsFailed sm <= blockchainSuccess sm
    /\ (sendEmails && isEmailConfigured = false ->
        emailsSent sm = 0 /\ emailsFailed sm = 0).
Proof.
  intros Hrun. unfold processPipeline in Hrun.
  assert (sameRecords (records (job h)) h) as Hsame by reflexivity.
  apply bind_Ok in Hrun as (u1 & h1 & Hids & Hrun).
  apply (preserves_Ok _ _ _ _ _ (keeps_phaseIds _) Hsame) in Hids.
  apply bind_Ok in Hrun as (n & h2 & Hn & Hrun).
  apply gets_Ok in Hn as [-> ->].
  apply bind_Ok in Hrun as (u2 & h3 & Hp2 & Hrun).
  apply (preserves_Ok _ _ _ _ _ (keeps_setProgress _ _ _ _ _) Hids) in Hp2.
  apply bind_Ok in Hrun as (certs2 & h4 & Hc2 & Hrun).
  apply gets_Ok in Hc2 as [-> ->].
  apply bind_Ok in Hrun as (pdfResults & h5 & Hpdf & Hrun).
  pose proof (bulkGeneratePDFs_Ok _ _ _ _ _ _ (progressCallback_returns _)
                Hpdf) as Hpdfs.
  apply (preserves_Ok _ _ _ _ _ (keeps_bulkGeneratePDFs _ _ _ _) Hp2) in Hpdf.
  apply bind_Ok in Hrun as (u3 & h6 & Hp3 & Hrun).
  apply (preserves_Ok _ _ _ _ _ (keeps_setProgress _ _ _ _ _) Hpdf) in Hp3.
  apply bind_Ok in Hrun as (u4 & h7 & Hstore & Hrun).
  apply (preserves_Ok _ _ _ _ _ (keeps_storeLoop _ _ _ _ _) Hp3) in Hstore.
  apply bind_Ok in Hrun as (u5 & h8 & Hp4 & Hrun).
  apply (preserves_Ok _ _ _ _ _ (keeps_setProgress _ _ _ _ _) Hstore) in Hp4.
  apply bind_Ok in Hrun as (certs & h9 & Hc & Hrun).
  apply gets_Ok in Hc as [-> ->].
  apply bind_Ok in Hrun as (bc & h10 & Hchain & Hrun).
  pose proof (issueBatch_sum _ _ _ _ _ (progressCallback_returns _) Hchain)
    as Hsum.
  pose proof (issueBatch_counters _ _ _ _ _ (progressCallback_returns _)
                Hchain) as [Hsucc Hfail].
  apply (issueBatch_Ok _ _ _ _ _ (progressCallback_returns _)) in Hchain
    as [Hlen Hall].
  apply bind_Ok in Hrun as (u6 & h11 & _ & Hrun).
  apply bind_Ok in Hrun as (qrResults & h12 & Hqr & Hrun).
  apply bind_Ok in Hrun as (emailResults & h13 & Hmail & Hrun).
  pose proof (finishJob_summary _ _ _ _ _ Hrun) as Hsm.
  apply finishJob_Ok in Hrun as [_ Hresults].
  (* the sizes of the arrays *)
  assert (length (records (job h1)) = length (records (job h))) as Hn1.
  { unfold sameRecords in Hids. apply (f_equal length) in Hids.
    rewrite !length_fmap in Hids. exact Hids. }
  assert (length (records (job h3)) = length (records (job h))) as Hn3.
  { unfold sameRecords in Hp2. apply (f_equal length) in Hp2.
    rewrite !length_fmap in Hp2. exact Hp2. }
  assert (length (records (job h8)) = length (records (job h))) as Hn8.
  { unfold sameRecords in Hp4. apply (f_equal length) in Hp4.
    rewrite !length_fmap in Hp4. exact Hp4. }
  pose proof (Forall2_length _ _ _ Hpdfs) as Hpdflen.
  assert (forall r, r ∈ results bc -> terminalOutcome r) as Hterm.
  { intros r Hr. apply list_elem_of_lookup in Hr as (k & Hk).
    destruct (Hall k r Hk) as (c & _ & _ & _ & Ht). exact Ht. }
  assert (forall r, r ∈ pdfResults ->
                    pdfStatus r = "success" \/ pdfStatus r = "failed")
    as Hpterm.
  { intros r Hr. apply list_elem_of_lookup in Hr as (k & Hk).
    destruct (Forall2_lookup_r _ _ _ _ _ Hpdfs Hk) as (c & _ & Hout).
    exact (pdfOutcomeOf_status _ _ Hout). }
  set (successfulCerts :=
         filterIndexed (fun _ i => chainSucceeded (results bc) i) 0
           (records (job h8))) in *.
  assert (length successfulCerts = succeeded bc) as Hsc.
  { subst successfulCerts. rewrite filterIndexed_chain_length by lia.
    rewrite drop_0, <- Hlen, firstn_all. symmetry. exact Hsucc. }
  assert (length qrResults = length successfulCerts) as Hqrlen.
  { destruct (qrLoop_returns successfulCerts [] h11)
      as (rs & hq & Hrun' & _ & Hall').
    unfold QrService.bulkGenerateQR in Hqr. rewrite Hrun' in Hqr.
    injection Hqr as <- _. symmetry. exact (Forall2_length _ _ _ Hall'). }
  destruct (phaseEmails_counts _ _ _ _ _ _ Hmail) as [Hmails Hoff].
  eexists _, _. split; [exact Hsm |]. split; [exact Hresults |].
  cbn [summaryTotal blockchainSuccess blockchainFailed pdfsGenerated
       qrCodesGenerated emailsSent emailsFailed].
  split; [exact Hn1 |].
  split; [rewrite compileResults_length; lia |].
  split; [lia |].
  rewrite (count_fmap (fun e => outStatus (blockchain e)) "success"),
    (count_fmap (fun e => outStatus (blockchain e)) "failed"),
    (count_fmap (fun e => outPdfStatus (pdf e)) "success").
  rewrite compileResults_chain_status by (exact Hterm || lia).
  rewrite compileResults_pdf_status by (exact Hpterm || lia).
  rewrite !drop_0, <- Hlen, firstn_all.
  replace (length (results bc)) with (length pdfResults) by lia.
  rewrite firstn_all.
  rewrite <- !count_fmap.
  split; [exact Hsucc |]. split; [exact Hfail |].
  split; [reflexivity |].
  split; [rewrite <- Hsc, <- Hqrlen; apply countStatus_le |].
  split; [lia |].
  intros Hoff'. rewrite (Hoff Hoff'). split; reflexivity.
Qed.

End SummaryRun.

(** X20 (bulkController.js, processPipeline). In a completed job the
    summary agrees with the per-record results: [total] is the number of
    records, [blockchainSuccess] and [blockchainFailed] count the entries
    with chain status "success" and "failed" and add up to [total],
    [pdfsGenerated] counts the entries with PDF status "success", there are
    at most as many QR codes and emails as successful issuances, and no
    email is counted when sending was not requested or is not
    configured. *)
Theorem completed_job_summary_adds_up
    {World : Type} `{Services World} (templateName : string)
    (sendEmails : bool) (h h' : Heap World) :
  BulkController.processPipeline templateName sendEmails h = (Ok tt, h') ->
  exists sm entries,
    summary (job h') = Some sm
    /\ jobResults (job h') = Some entries
    /\ summaryTotal sm = length (records (job h))
    /\ length entries = summaryTotal sm
    /\ blockchainSuccess sm + blockchainFailed sm = summaryTotal sm
    /\ blockchainSuccess sm
       = length (filter (fun e => outStatus (blockchain e) = "success")
                   entries)
    /\ blockchainFailed sm
       = length (filter (fun e => outStatus (blockchain e) = "failed")
                   entries)
    /\ pdfsGenerated sm
       = length (filter (fun e => outPdfStatus (pdf e) = "success") entries)
    /\ qrCodesGenerated sm <= blockchainSuccess sm
    /\ emailsSent sm + emailsFailed sm <= blockchainSuccess sm
    /\ (sendEmails && isEmailConfigured = false ->
        emailsSent sm = 0 /\ emailsFailed sm = 0).
Proof. apply processPipeline_summary. Qed.

Lemma completed_job_summary_adds_up_witness :
  let w :=
    Scripted.mkScript 0 2026 ["0.abc123"; "0.k3x9zz"] [Ok 7%Z; Ok 8%Z]
      [Ok (mkTx "0xaa"); Throw (Scripted.revert "gas estimation failed")]
      [Ok (mkReceipt 100 21000)]
      [Ok Scripted.samplePdf; Throw (plainError "render timeout")]
      [Ok Scripted.sampleQr] [] in
  let j :=
    BulkController.newJob "job-1" "/up/f.csv" "f.csv" "t0"
      (Validator.validateBatch Scripted.scriptedParseDate
         [Scripted.sampleRow "Alice Johnson" "STU-1" "a@example.com";
          Scripted.sampleRow "Bob Smith" "STU-2" "b@example.com"]) in
  exists h' sm,
    BulkController.processPipeline "default-certificate" false (mkHeap w j)
    = (Ok tt, h')
    /\ summary (job h') = Some sm
    /\ blockchainSuccess sm + blockchainFailed sm = summaryTotal sm
    /\ (summaryTotal sm, blockchainSuccess sm, pdfsGenerated sm,
        qrCodesGenerated sm) = (2, 1, 1, 1).
Proof.
  intros w j.
  assert (exists h' sm,
            BulkController.processPipeline "default-certificate" false
              (mkHeap w j) = (Ok tt, h')
            /\ summary (job h') = Some sm
            /\ (summaryTotal sm, blockchainSuccess sm, pdfsGenerated sm,
                qrCodesGenerated sm) = (2, 1, 1, 1))
    as (h' & sm & Hrun & Hsm & Hvals)
    by (eexists _, _; vm_compute; repeat split; reflexivity).
  exists h', sm. split; [exact Hrun |]. split; [exact Hsm |].
  split; [| exact Hvals].
  destruct (completed_job_summary_adds_up (World:=Scripted.Script)
              "default-certificate" false (mkHeap w j) h' Hrun)
    as (sm' & entries & Hsm' & _ & _ & _ & Hsum & _).
  rewrite Hsm in Hsm'. injection Hsm' as <-. exact Hsum.
Defined.

(** ** The processing endpoint *)

(** X21 (bulkController.js, processBatch). A request that [processBatch]
    rejects changes neither the job store nor the outside world, and it is
    rejected for one of four reasons: no job identifier (400), an unknown
    job (404), a job that is being processed (409), or a job without valid
    records (400). *)
Theorem processBatch_rejection_has_no_effect
    {World : Type} `{Services World} (id : option string)
    (templateName : string) (sendEmails : bool) (jobs jobs' : gmap string Job)
    (w w' : World) (code : nat) (reason : string) :
  BulkController.processBatch id templateName sendEmails jobs w
  = (BulkController.ProcessRejected code reason, jobs', w') ->
  jobs' = jobs /\ w' = w
  /\ ((code = 400 /\ reason = "jobId is required" /\ Js.falsy id = true)
      \/ (code = 404 /\ reason = "Job not found"
          /\ jobs !! Js.orEmpty id = None)
      \/ (code = 409 /\ reason = "Job is already being processed"
          /\ exists j, jobs !! Js.orEmpty id = Some j
                       /\ jobStatus j = "processing")
      \/ (code = 400 /\ reason = "No valid records to process"
          /\ exists j, jobs !! Js.orEmpty id = Some j /\ records j = [])).
Proof.
  unfold BulkController.processBatch.
  destruct (Js.falsy id) eqn:Hid.
  { intros [= <- <- <- <-]. auto 10. }
  destruct (jobs !! Js.orEmpty id) as [j|] eqn:Hj.
  2: { intros [= <- <- <- <-]. auto 10. }
  destruct (String.eqb_spec (jobStatus j) "processing") as [Hp|Hp].
  { intros [= <- <- <- <-]. split; [reflexivity |]. split; [reflexivity |].
    right. right. left. eauto. }
  destruct (length (records j) =? 0) eqn:Hlen.
  { intros [= <- <- <- <-]. split; [reflexivity |]. split; [reflexivity |].
    right. right. right. split; [reflexivity |]. split; [reflexivity |].
    exists j. split; [reflexivity |].
    apply Nat.eqb_eq in Hlen. destruct (records j); [reflexivity | discriminate]. }
  discriminate.
Qed.

Lemma processBatch_rejection_has_no_effect_witness :
  let busy :=
    mkJob "job-1" "processing" None (Some "f.csv")
      [set_row 1 (Scripted.sampleRow "Alice Johnson" "STU-1" "a@example.com")]
      [] "t0" None None None None None in
  let jobs : gmap string Job := {["job-1" := busy]} in
  BulkController.processBatch (Some "job-1") "default-certificate" false jobs
    Scripted.quiet
  = (BulkController.ProcessRejected 409 "Job is already being processed",
     jobs, Scripted.quiet)
  /\ jobs = jobs /\ Scripted.quiet = Scripted.quiet.
Proof.
  intros busy jobs.
  assert (BulkController.processBatch (Some "job-1") "default-certificate"
            false jobs Scripted.quiet
          = (BulkController.ProcessRejected 409
               "Job is already being processed", jobs, Scripted.quiet))
    as Hrun by (vm_compute; reflexivity).
  split; [exact Hrun |].
  destruct (processBatch_rejection_has_no_effect (World:=Scripted.Script)
              _ _ _ _ _ _ _ _ _ Hrun) as (Hjobs & Hw & _).
  split; [exact Hjobs | exact Hw].
Defined.

Section ProcessFacts.

Context {World : Type} `{Services World}.

Import BulkController.

Lemma runPipeline_terminal templateName sendEmails (h : Heap World) :
  let j' := job (runPipeline templateName sendEmails h) in
  (jobStatus j' = "completed" /\ is_Some (jobResults j')
   /\ is_Some (summary j'))
  \/ (jobStatus j' = "failed" /\ is_Some (jobError j')).
Proof.
  cbv zeta. unfold runPipeline.
  destruct (processPipeline templateName sendEmails h) as [[[]|e] h1] eqn:Hrun.
  - left.
    destruct (processPipeline_summary _ _ _ _ Hrun)
      as (sm & entries & Hsm & Hres & _).
    destruct (processPipeline_Ok _ _ _ _ Hrun)
      as (_ & _ & _ & _ & _ & _ & _ & _ & Hst & _).
    rewrite Hsm, Hres. eauto.
  - right. cbn. eauto.
Qed.

End ProcessFacts.

(** X22 (bulkController.js, processBatch, the [.catch] of the background
    run, and getJobStatus). A request for a stored job that is not being
    processed and has at least one valid record is accepted; when the
    background run has ended the job is "completed" or "failed", never
    left "processing"; every other job of the store is untouched; the job
    still holds the same records; and the status endpoint shows results
    and summary exactly for a completed job and the error message exactly
    for a failed one. *)
Theorem processBatch_runs_job_to_terminal_state
    {World : Type} `{Services World} (id templateName : string)
    (sendEmails : bool) (jobs : gmap string Job) (w : World) (j : Job) :
  id <> "" ->
  jobs !! id = Some j ->
  jobStatus j <> "processing" ->
  records j <> [] ->
  exists jobs' w' j' resp,
    BulkController.processBatch (Some id) templateName sendEmails jobs w
    = (BulkController.ProcessStarted id (length (records j)), jobs', w')
    /\ jobs' !! id = Some j'
    /\ (forall other, other <> id -> jobs' !! other = jobs !! other)
    /\ identity <$> records j' = identity <$> records j
    /\ BulkController.getJobStatus jobs' id = Some resp
    /\ BulkController.respTotalRecords resp = length (records j)
    /\ ((BulkController.respStatus resp = "completed"
         /\ is_Some (BulkController.respResults resp)
         /\ is_Some (BulkController.respSummary resp)
         /\ BulkController.respError resp = None)
        \/ (BulkController.respStatus resp = "failed"
            /\ BulkController.respResults resp = None
            /\ BulkController.respSummary resp = None
            /\ is_Some (BulkController.respError resp))).
Proof.
  intros Hid Hj Hbusy Hrecs. unfold BulkController.processBatch.
  assert (Js.falsy (Some id) = false) as ->.
  { cbn. apply String.eqb_neq. exact Hid. }
  cbn [Js.orEmpty]. rewrite Hj.
  rewrite (proj2 (String.eqb_neq _ _) Hbusy).
  assert ((length (records j) =? 0) = false) as ->.
  { apply Nat.eqb_neq. destruct (records j); [contradiction | discriminate]. }
  set (h := BulkController.runPipeline templateName sendEmails
              (mkHeap w (BulkController.startJob j))).
  exists (<[id := job h]> jobs), (world h), (job h),
    (BulkController.statusOf (job h)).
  split; [reflexivity |].
  split; [apply lookup_insert_eq |].
  split; [intros other Hne; apply lookup_insert_ne; congruence |].
  pose proof (runPipeline_input templateName sendEmails
                (mkHeap w (BulkController.startJob j))) as Hsame.
  fold h in Hsame. cbn [job BulkController.startJob records set_progress
                        set_jobStatus] in Hsame.
  split; [exact Hsame |].
  split; [unfold BulkController.getJobStatus; rewrite lookup_insert_eq;
          reflexivity |].
  split.
  { cbn [BulkController.statusOf BulkController.respTotalRecords].
    apply (f_equal length) in Hsame. rewrite !length_fmap in Hsame.
    exact Hsame. }
  destruct (runPipeline_terminal templateName sendEmails
              (mkHeap w (BulkController.startJob j)))
    as [(Hst & Hres & Hsm)|(Hst & Herr)]; fold h in Hst.
  - left. fold h in Hres, Hsm. unfold BulkController.statusOf.
    cbn [BulkController.respStatus BulkController.respResults
         BulkController.respSummary BulkController.respError].
    rewrite Hst. cbn. auto.
  - right. fold h in Herr. unfold BulkController.statusOf.
    cbn [BulkController.respStatus BulkController.respResults
         BulkController.respSummary BulkController.respError].
    rewrite Hst. cbn. auto.
Qed.

Lemma processBatch_runs_job_to_terminal_state_witness :
  let rows :=
    [Scripted.sampleRow "Alice Johnson" "STU-1" "a@example.com"] in
  let w :=
    Scripted.mkScript 0 2026 ["0.abc123"] [Ok 7%Z] [Ok (mkTx "0xaa")]
      [Ok (mkReceipt 100 21000)] [Ok Scripted.samplePdf]
      [Ok Scripted.sampleQr] [] in
  let stored :=
    BulkController.newJob "job-1" "/up/f.csv" "f.csv" "t0"
      (Validator.validateBatch Scripted.scriptedParseDate rows) in
  let other :=
    BulkController.newJob "job-2" "/up/g.csv" "g.csv" "t1"
      (Validator.validateBatch Scripted.scriptedParseDate rows) in
  let jobs : gmap string Job := {["job-1" := stored; "job-2" := other]} in
  let run :=
    BulkController.processBatch (Some "job-1") "default-certificate" false
      jobs w in
  (exists jobs' w' j' resp,
     run = (BulkController.ProcessStarted "job-1" 1, jobs', w')
     /\ jobs' !! "job-1" = Some j'
     /\ jobs' !! "job-2" = Some other
     /\ BulkController.getJobStatus jobs' "job-1" = Some resp
     /\ BulkController.respTotalRecords resp = 1)
  /\ BulkController.respStatus
       <$> BulkController.getJobStatus run.1.2 "job-1"
     = Some "completed".
Proof.
  intros rows w stored other jobs run. split; [| vm_compute; reflexivity].
  edestruct (processBatch_runs_job_to_terminal_state (World:=Scripted.Script)
               "job-1" "default-certificate" false jobs w stored)
    as (jobs' & w' & j' & resp & Hrun & Hj' & Hothers & _ & Hget & Htotal & _).
  - discriminate.
  - vm_compute. reflexivity.
  - vm_compute. discriminate.
  - vm_compute. discriminate.
  - exists jobs', w', j', resp. split; [exact Hrun |]. split; [exact Hj' |].
    split; [| split; [exact Hget | exact Htotal]].
    rewrite (Hothers "job-2") by discriminate. vm_compute. reflexivity.
Defined.

(** ** The phases of the pipeline *)

Section FallbackFacts.

Context {World : Type} `{Services World}.

Lemma uploadBuffer_offline buffer fileName metadata (h : Heap World) :
  isPinataConfigured = false ->
  IpfsService.uploadBuffer buffer fileName metadata h
  = (Ok (mkIpfsResult ("Qm" +:+ IpfsService.slice44 (sha256Hex buffer))
           false None), h).
Proof. intros Hoff. unfold IpfsService.uploadBuffer. rewrite Hoff. reflexivity. Qed.

End FallbackFacts.

(** X23 (ipfsService.js, uploadBuffer). When Pinata is not configured,
    [uploadBuffer] cannot fail and calls nothing outside the process: it
    returns the unpinned identifier "Qm" followed by the first 44
    characters of the SHA-256 hex digest of the buffer (46 characters for
    a full digest) and no gateway. *)
Theorem uploadBuffer_falls_back_without_pinata
    {World : Type} `{Services World} (buffer : Buffer)
    (fileName : option string) (metadata : PinMetadata) (h : Heap World) :
  isPinataConfigured = false ->
  exists r,
    IpfsService.uploadBuffer buffer fileName metadata h = (Ok r, h)
    /\ resPinned r = false
    /\ resGateway r = None
    /\ resIpfsHash r = "Qm" +:+ String.substring 0 44 (sha256Hex buffer)
    /\ 2 <= String.length (resIpfsHash r) <= 46
    /\ (44 <= String.length (sha256Hex buffer) ->
        String.length (resIpfsHash r) = 46).
Proof.
  intros Hoff. eexists.
  split; [apply uploadBuffer_offline; exact Hoff |].
  cbn [resPinned resGateway resIpfsHash]. unfold IpfsService.slice44.
  split; [reflexivity |]. split; [reflexivity |]. split; [reflexivity |].
  rewrite length_append. cbn [String.length].
  pose proof (length_substring_le 0 44 (sha256Hex buffer)).
  split; [lia |]. intros Hlen.
  rewrite length_substring_exact by lia. reflexivity.
Qed.

Lemma uploadBuffer_falls_back_without_pinata_witness :
  let h :=
    mkHeap Scripted.quiet
      (mkJob "job-1" "processing" None None [] [] "t0" None None None None
         None) in
  exists r,
    @IpfsService.uploadBuffer Scripted.Script Scripted.offline []
      (Some "c.pdf") (mkPinMetadata None "certificate" "") h
    = (Ok r, h)
    /\ resPinned r = false
    /\ resIpfsHash r = "Qme3b0c44298fc1c149afbf4c8996fb92427ae41e4649b"
    /\ String.length (resIpfsHash r) = 46.
Proof.
  intros h.
  destruct (@uploadBuffer_falls_back_without_pinata Scripted.Script
              Scripted.offline [] (Some "c.pdf")
              (mkPinMetadata None "certificate" "") h eq_refl)
    as (r & Hrun & Hpin & _ & Hhash & _ & Hlen).
  exists r. split; [exact Hrun |]. split; [exact Hpin |].
  split; [rewrite Hhash; reflexivity |].
  apply Hlen. vm_compute. lia.
Defined.

Section IdentifierPhase.

Context {World : Type} `{Services World}.

Import BulkController.

Lemma generateCertificateId_shape (h : Heap World) newId h1 :
  BlockchainService.generateCertificateId h = (Ok newId, h1) ->
  job h1 = job h
  /\ exists count yr rand,
       newId = BlockchainService.formatCertificateId count yr rand.
Proof.
  intros Hrun. pose proof (generateCertificateId_job h) as Hjob.
  rewrite Hrun in Hjob. split; [exact Hjob |].
  revert Hrun.
  unfold BlockchainService.generateCertificateId, bind, call, ask, ret.
  destruct (getTotalCertificates (world h)) as [[count|e] w1]; cbn [world job];
    [| discriminate].
  destruct (getFullYear w1) as [yr w2]; cbn [world job].
  destruct (randomBase36 w2) as [rand w3]. intros [= <- _]. eauto.
Qed.

(** What the loop of the identifier phase has done when it returns. *)
Lemma generateIds_Ok n :
  forall i (h h' : Heap World),
  generateIds n i h = (Ok tt, h') ->
  length (records (job h')) = length (records (job h))
  /\ (forall k c,
        records (job h) !! k = Some c ->
        exists c',
          records (job h') !! k = Some c'
          /\ (c' = c
              \/ (Js.falsy (certId c) = true /\ i <= k < i + n
                  /\ exists count yr rand,
                       c' = set_certId
                              (BlockchainService.formatCertificateId
                                 count yr rand) c))
          /\ (i <= k < i + n -> Js.truthy (certId c') = true)).
Proof.
  induction n as [|n IH]; intros i h h' Hrun; cbn [generateIds] in Hrun.
  - injection Hrun as <-. split; [reflexivity |].
    intros k c Hk. exists c. split; [exact Hk |]. split; [auto | lia].
  - apply bind_Ok in Hrun as (cert & h1 & Hread & Hrun).
    unfold readCert, bind, gets in Hread.
    destruct (records (job h) !! i) as [ci|] eqn:Hi; [| discriminate].
    injection Hread as <- <-.
    apply bind_Ok in Hrun as (u & h2 & Hset & Hrun).
    apply IH in Hrun as (Hlen & Hall).
    destruct (Js.falsy (certId ci)) eqn:Hf.
    + apply bind_Ok in Hset as (newId & h1 & Hgen & Hupd).
      pose proof (generateCertificateId_truthy _ _ _ Hgen) as Htruthy.
      apply generateCertificateId_shape in Hgen
        as (Hjob & count & yr & rand & ->).
      unfold updateCert, updateJob, modify in Hupd.
      injection Hupd as _ <-. cbn [job records set_records] in *.
      rewrite Hjob in *. rewrite length_alter in Hlen.
      split; [exact Hlen |].
      intros k c Hk. destruct (decide (k = i)) as [->|Hne].
      * rewrite Hi in Hk. injection Hk as <-.
        destruct (Hall i (set_certId
                            (BlockchainService.formatCertificateId count yr
                               rand) ci))
          as (c' & Hc' & Hcase & _).
        { rewrite list_lookup_alter_eq, Hi. reflexivity. }
        assert (c' = set_certId
                       (BlockchainService.formatCertificateId count yr rand)
                       ci) as ->.
        { destruct Hcase as [-> | (Hfalse & _)]; [reflexivity |].
          cbn [certId set_certId] in Hfalse. rewrite Htruthy in Hfalse.
          discriminate. }
        eexists. split; [exact Hc' |]. split.
        -- right. split; [exact Hf |]. split; [lia |]. eauto.
        -- intros _. cbn [certId set_certId]. unfold Js.truthy.
           rewrite Htruthy. reflexivity.
      * destruct (Hall k c) as (c' & Hc' & Hcase & Hin).
        { rewrite list_lookup_alter_ne by congruence. exact Hk. }
        exists c'. split; [exact Hc' |]. split.
        -- destruct Hcase as [-> | (Hfc & Hrange & Hnew)]; [auto |].
           right. split; [exact Hfc |]. split; [lia | exact Hnew].
        -- intros Hrange. apply Hin. lia.
    + injection Hset as _ <-.
      split; [exact Hlen |].
      intros k c Hk. destruct (Hall k c Hk) as (c' & Hc' & Hcase & Hin).
      exists c'. split; [exact Hc' |]. split.
      * destruct Hcase as [-> | (Hfc & Hrange & Hnew)]; [auto |].
        right. split; [exact Hfc |]. split; [lia | exact Hnew].
      * intros Hrange. destruct (decide (k = i)) as [->|Hne];
          [| apply Hin; lia].
        rewrite Hi in Hk. injection Hk as <-.
        destruct Hcase as [-> | (Hfc & _)].
        -- unfold Js.truthy. rewrite Hf. reflexivity.
        -- rewrite Hf in Hfc. discriminate.
Qed.

Lemma finishJob_returns n compiled jobSummary (h : Heap World) :
  exists h',
    finishJob n compiled jobSummary h = (Ok tt, h')
    /\ records (job h') = records (job h).
Proof.
  unfold finishJob, cleanUp, setProgress, bind, updateJob, modify, ask, gets,
    tryCatch, call, ret.
  cbn [world job]. destruct (nowISO (world h)) as [stamp w1]. cbn [world job].
  cbn [filePath set_progress set_summary set_completedAt set_jobResults
       set_jobStatus].
  destruct (Js.truthy (filePath (job h))).
  - cbn [world job]. destruct (removeUpload _ w1) as [[[]|e] w2];
      eexists; split; reflexivity.
  - eexists; split; reflexivity.
Qed.

End IdentifierPhase.

(** X24 (bulkController.js, PHASE 1). When the identifier phase returns,
    the job holds as many records as before and every one of them carries
    a non-empty certificate identifier: a record that had one is
    unchanged, and a record that had none differs from what it was only by
    a freshly generated identifier. *)
Theorem phaseIds_assigns_every_identifier
    {World : Type} `{Services World} (h h' : Heap World) :
  BulkController.phaseIds h = (Ok tt, h') ->
  length (records (job h')) = length (records (job h))
  /\ (forall k c,
        records (job h) !! k = Some c ->
        exists c',
          records (job h') !! k = Some c'
          /\ Js.truthy (certId c') = true
          /\ (c' = c
              \/ (Js.falsy (certId c) = true
                  /\ exists count yr rand,
                       c' = set_certId
                              (BlockchainService.formatCertificateId
                                 count yr rand) c))).
Proof.
  intros Hrun. unfold BulkController.phaseIds in Hrun.
  apply bind_Ok in Hrun as (n & h1 & Hn & Hrun).
  apply gets_Ok in Hn as [-> ->].
  apply bind_Ok in Hrun as (u & h2 & Hp & Hrun).
  unfold BulkController.setProgress, updateJob, modify in Hp.
  injection Hp as _ <-.
  apply generateIds_Ok in Hrun as (Hlen & Hall).
  cbn [job records set_progress] in Hlen, Hall.
  split; [exact Hlen |]. intros k c Hk.
  destruct (Hall k c Hk) as (c' & Hc' & Hcase & Hin).
  exists c'. split; [exact Hc' |]. split.
  - apply Hin. apply lookup_lt_Some in Hk. lia.
  - destruct Hcase as [-> | (Hf & _ & Hnew)]; auto.
Qed.

Lemma phaseIds_assigns_every_identifier_witness :
  let issued :=
    set_certId "CERT-2026-001-ABC"
      (set_row 1 (Scripted.sampleRow "Alice Johnson" "STU-1" "a@example.com")) in
  let fresh :=
    set_row 2 (Scripted.sampleRow "Bob Smith" "STU-2" "b@example.com") in
  let h :=
    mkHeap (Scripted.mkScript 1 2026 ["0.k3x9"] [] [] [] [] [] [])
      (mkJob "job-1" "processing" None (Some "f.csv") [issued; fresh] []
         "t0" None None None None None) in
  exists h',
    BulkController.phaseIds h = (Ok tt, h')
    /\ length (records (job h')) = 2
    /\ (certId <$> records (job h'))
       = [Some "CERT-2026-001-ABC"; Some "CERT-2026-002-K3X"].
Proof.
  intros issued fresh h.
  assert (exists h',
            BulkController.phaseIds h = (Ok tt, h')
            /\ (certId <$> records (job h'))
               = [Some "CERT-2026-001-ABC"; Some "CERT-2026-002-K3X"])
    as (h' & Hrun & Hids)
    by (eexists; vm_compute; split; reflexivity).
  exists h'. split; [exact Hrun |]. split; [| exact Hids].
  destruct (phaseIds_assigns_every_identifier h h' Hrun) as [Hlen _].
  rewrite Hlen. reflexivity.
Defined.

(** X25 (bulkController.js, the end of processPipeline). Once the
    results are compiled the job always completes: marking it
    "completed", storing results, completion time and summary cannot fail,
    and an error while deleting the uploaded file is swallowed. The
    records are left as they are. *)
Theorem cleanup_failure_does_not_fail_job
    {World : Type} `{Services World} (n : nat) (compiled : list ResultEntry)
    (jobSummary : Summary) (h : Heap World) :
  exists h',
    BulkController.finishJob n compiled jobSummary h = (Ok tt, h')
    /\ jobStatus (job h') = "completed"
    /\ jobResults (job h') = Some compiled
    /\ summary (job h') = Some jobSummary
    /\ is_Some (completedAt (job h'))
    /\ records (job h') = records (job h).
Proof.
  destruct (finishJob_returns n compiled jobSummary h) as (h' & Hrun & Hrec).
  exists h'. split; [exact Hrun |].
  destruct (finishJob_Ok _ _ _ _ _ Hrun) as [Hst Hres].
  split; [exact Hst |]. split; [exact Hres |].
  split; [exact (finishJob_summary _ _ _ _ _ Hrun) |].
  split; [| exact Hrec].
  revert Hrun.
  unfold BulkController.finishJob, BulkController.cleanUp,
    BulkController.setProgress, bind, updateJob, modify, ask, gets,
    tryCatch, call, ret.
  cbn [world job]. destruct (nowISO (world h)) as [stamp w1]. cbn [world job].
  cbn [filePath set_progress set_summary set_completedAt set_jobResults
       set_jobStatus].
  destruct (Js.truthy (filePath (job h))).
  - cbn [world job]. destruct (removeUpload _ w1) as [[u|e] w2];
      intros Heq; inversion Heq; cbn; eauto.
  - intros Heq; inversion Heq; cbn; eauto.
Qed.

Section MailTargets.

Context {World : Type} `{Services World}.

Import BulkController.

Lemma strOrNull_truthy (v : option string) :
  Js.truthy (strOrNull v) = Js.truthy v.
Proof. unfold strOrNull. destruct (Js.truthy v) eqn:Hv; [exact Hv | reflexivity]. Qed.

Lemma strOrNull_of_truthy (v : option string) :
  Js.truthy v = true -> strOrNull v = v.
Proof. unfold strOrNull. intros ->. reflexivity. Qed.

Lemma strOr_success (chain : list ChainResult) (k : nat) :
  strOr (status <$> chain !! k) "skipped" = "success"
  <-> chainSucceeded chain k = true.
Proof.
  unfold chainSucceeded, strOr. destruct (chain !! k) as [r|]; cbn.
  - rewrite String.eqb_eq. unfold Js.truthy. cbn.
    destruct (String.eqb_spec (status r) ""); cbn.
    + split; [discriminate | congruence].
    + reflexivity.
  - split; discriminate.
Qed.

(** The entries of the compiled results whose chain status is "success"
    and whose email is set are those of the records that the chain phase
    issued, by position, and that have an address. *)
Lemma compileResults_targets certs chain pdfResults qrResults :
  forall i,
  (fun e => (entryEmail e, entryCertId e, entryStudentName e))
    <$> filter (fun e => outStatus (blockchain e) = "success"
                         /\ Js.truthy (entryEmail e) = true)
          (compileResults certs i chain pdfResults qrResults)
  = (fun c => (email c, certId c, studentName c))
      <$> List.filter (fun c => Js.truthy (email c))
            (filterIndexed (fun _ k => chainSucceeded chain k) i certs).
Proof.
  induction certs as [|c certs IH]; intros i; [reflexivity |].
  cbn [compileResults filterIndexed]. rewrite filter_cons.
  cbn [compileEntry blockchain outStatus entryEmail].
  rewrite strOrNull_truthy.
  destruct (chainSucceeded chain i) eqn:Hs.
  - cbn [List.filter]. destruct (Js.truthy (email c)) eqn:Hm.
    + rewrite decide_True by (split; [apply strOr_success; exact Hs | reflexivity]).
      cbn [fmap list_fmap]. rewrite IH.
      cbn [compileEntry entryEmail entryCertId entryStudentName].
      rewrite (strOrNull_of_truthy _ Hm). reflexivity.
    + rewrite decide_False by (intros [_ Hx]; discriminate). apply IH.
  - rewrite decide_False; [apply IH |].
    intros [Hx _]. apply strOr_success in Hx. congruence.
Qed.

(** The mail phase, when it sends: the jobs handed to [bulkSendEmails]. *)
Lemma phaseEmails_run sendEmails cs pdfResults (h h' : Heap World) r :
  phaseEmails sendEmails cs pdfResults h = (Ok r, h') ->
  if sendEmails && isEmailConfigured
  then exists res hm,
         r = Some res
         /\ EmailService.bulkSendEmails
              (emailJobOf pdfResults
                 <$> List.filter (fun c => Js.truthy (email c)) cs)
              (Some (fun p =>
                       updateJob
                         (set_progress (withPhase "sending_emails" p))))
              hm = (Ok res, h')
  else r = None /\ h' = h.
Proof.
  unfold phaseEmails. destruct (sendEmails && isEmailConfigured).
  - intros Hrun. apply bind_Ok in Hrun as (u & h1 & _ & Hrun).
    apply bind_Ok in Hrun as (res & h2 & Hmail & Hret).
    injection Hret as <- <-. eauto.
  - intros [= <- <-]. auto.
Qed.

Lemma processPipeline_mail templateName sendEmails (h h' : Heap World) :
  processPipeline templateName sendEmails h = (Ok tt, h') ->
  exists certs chain pdfResults qrResults mail hm hm' sm,
    phaseEmails sendEmails
      (filterIndexed (fun _ i => chainSucceeded chain i) 0 certs)
      pdfResults hm = (Ok mail, hm')
    /\ jobResults (job h')
       = Some (compileResults certs 0 chain pdfResults qrResults)
    /\ summary (job h') = Some sm
    /\ emailsSent sm = from_option mailsSent 0 mail
    /\ emailsFailed sm = from_option mailsFailed 0 mail.
Proof.
  intros Hrun. unfold processPipeline in Hrun.
  apply bind_Ok in Hrun as (u1 & h1 & _ & Hrun).
  apply bind_Ok in Hrun as (n & h2 & Hn & Hrun).
  apply bind_Ok in Hrun as (u2 & h3 & _ & Hrun).
  apply bind_Ok in Hrun as (certs2 & h4 & _ & Hrun).
  apply bind_Ok in Hrun as (pdfResults & h5 & _ & Hrun).
  apply bind_Ok in Hrun as (u3 & h6 & _ & Hrun).
  apply bind_Ok in Hrun as (u4 & h7 & _ & Hrun).
  apply bind_Ok in Hrun as (u5 & h8 & _ & Hrun).
  apply bind_Ok in Hrun as (certs & h9 & _ & Hrun).
  apply bind_Ok in Hrun as (bc & h10 & _ & Hrun).
  apply bind_Ok in Hrun as (u6 & h11 & _ & Hrun).
  apply bind_Ok in Hrun as (qrResults & h12 & _ & Hrun).
  apply bind_Ok in Hrun as (mail & h13 & Hmail & Hrun).
  pose proof (finishJob_summary _ _ _ _ _ Hrun) as Hsm.
  apply finishJob_Ok in Hrun as [_ Hresults].
  eexists certs, (results bc), pdfResults, qrResults, mail, h12, h13, _.
  split; [exact Hmail |]. split; [exact Hresults |].
  split; [exact Hsm |]. split; reflexivity.
Qed.

End MailTargets.

(** X26 (bulkController.js, PHASE 5 and PHASE 6). In a completed job,
    emails are sent only when the request asks for them and a mail server
    is configured; otherwise none is counted. When they are sent, the
    jobs handed to [bulkSendEmails] are, in order, exactly the records
    whose chain result at their own position is "success" and that have
    an email address, each under its own address, certificate identifier
    and student name; there is one email result per such record, and the
    summary counts those results. A record that was not issued, or has no
    address, gets no email. *)
Theorem emails_go_to_issued_records_with_address
    {World : Type} `{Services World} (templateName : string)
    (sendEmails : bool) (h h' : Heap World) :
  BulkController.processPipeline templateName sendEmails h = (Ok tt, h') ->
  exists entries sm,
    jobResults (job h') = Some entries
    /\ summary (job h') = Some sm
    /\ let targets :=
         filter (fun e => outStatus (blockchain e) = "success"
                          /\ Js.truthy (entryEmail e) = true) entries in
       if sendEmails && isEmailConfigured
       then
         exists emailJobs hm res hm',
           EmailService.bulkSendEmails emailJobs
             (Some (fun p =>
                      updateJob
                        (set_progress
                           (BulkController.withPhase "sending_emails" p))))
             hm = (Ok res, hm')
           /\ (fun j => (mailTo j, mailCertId j, mailStudentName j))
                <$> emailJobs
              = (fun e => (entryEmail e, entryCertId e, entryStudentName e))
                  <$> targets
           /\ (fun x => x.1.2) <$> mailResults res = entryCertId <$> targets
           /\ emailsSent sm = mailsSent res
           /\ emailsFailed sm = mailsFailed res
           /\ emailsSent sm + emailsFailed sm = length targets
       else emailsSent sm = 0 /\ emailsFailed sm = 0.
Proof.
  intros Hrun.
  destruct (processPipeline_mail templateName sendEmails h h' Hrun)
    as (certs & chain & pdfResults & qrResults & mail & hm & hm' & sm & Hmail
        & Hres & Hsm & Hsent & Hfailed).
  exists (BulkController.compileResults certs 0 chain pdfResults qrResults), sm.
  split; [exact Hres |]. split; [exact Hsm |]. cbv zeta.
  pose proof (compileResults_targets certs chain pdfResults qrResults 0)
    as Htargets.
  set (targets := filter _ (BulkController.compileResults _ _ _ _ _)) in *.
  set (issued := BulkController.filterIndexed _ 0 certs) in *.
  apply phaseEmails_run in Hmail.
  destruct (sendEmails && isEmailConfigured).
  - destruct Hmail as (res & hs & -> & Hsend).
    cbn [from_option] in Hsent, Hfailed.
    set (withAddress := List.filter (fun c => Js.truthy (email c)) issued) in *.
    destruct (bulkSendEmails_counts _ _ _ _ _ Hsend)
      as (Hlen & Hall & _ & _ & Hsum & _).
    assert ((fun j => (mailTo j, mailCertId j, mailStudentName j))
              <$> (BulkController.emailJobOf pdfResults <$> withAddress)
            = (fun e => (entryEmail e, entryCertId e, entryStudentName e))
                <$> targets) as Hjobs.
    { rewrite Htargets, <- list_fmap_compose. reflexivity. }
    exists (BulkController.emailJobOf pdfResults <$> withAddress), hs, res, hm'.
    split; [exact Hsend |]. split; [exact Hjobs |].
    assert ((fun x => x.1.2) <$> mailResults res
            = mailCertId <$> (BulkController.emailJobOf pdfResults
                                <$> withAddress)) as Hids.
    { apply list_eq. intros k. rewrite !list_lookup_fmap.
      destruct (withAddress !! k) as [c|] eqn:Hc.
      - destruct (Hall k (BulkController.emailJobOf pdfResults c))
          as (result & Hr).
        { rewrite list_lookup_fmap, Hc. reflexivity. }
        rewrite Hr. reflexivity.
      - apply lookup_ge_None in Hc. rewrite length_fmap in Hlen.
        rewrite (proj2 (lookup_ge_None (mailResults res) k)) by lia.
        reflexivity. }
    split.
    { rewrite Hids.
      transitivity ((fun t : option string * option string * option string =>
                       t.1.2)
                      <$> ((fun j => (mailTo j, mailCertId j, mailStudentName j))
                             <$> (BulkController.emailJobOf pdfResults
                                    <$> withAddress))).
      - apply list_eq. intros k. rewrite !list_lookup_fmap.
        destruct (withAddress !! k); reflexivity.
      - rewrite Hjobs. apply list_eq. intros k. rewrite !list_lookup_fmap.
        destruct (targets !! k); reflexivity. }
    split; [exact Hsent |]. split; [exact Hfailed |].
    rewrite Hsent, Hfailed, Hsum.
    apply (f_equal length) in Hjobs. rewrite !length_fmap in Hjobs.
    rewrite length_fmap. exact Hjobs.
  - destruct Hmail as [-> _]. cbn in Hsent, Hfailed. auto.
Qed.

(** Two records with an address; the node confirms the first and refuses
    the second: one email is sent, to the first. *)
Lemma emails_go_to_issued_records_with_address_witness :
  let w :=
    Scripted.mkScript 0 2026 ["0.abc123"; "0.k3x9zz"] [Ok 7%Z; Ok 8%Z]
      [Ok (mkTx "0xaa"); Throw (Scripted.revert "gas estimation failed")]
      [Ok (mkReceipt 100 21000)]
      [Ok Scripted.samplePdf; Ok Scripted.samplePdf]
      [Ok Scripted.sampleQr] [Ok (mkEmailResult true None)] in
  let j :=
    BulkController.newJob "job-1" "/up/f.csv" "f.csv" "t0"
      (Validator.validateBatch Scripted.scriptedParseDate
         [Scripted.sampleRow "Alice Johnson" "STU-1" "a@example.com";
          Scripted.sampleRow "Bob Smith" "STU-2" "b@example.com"]) in
  exists h' entries sm,
    @BulkController.processPipeline Scripted.Script Scripted.mailing
      "default-certificate" true (mkHeap w j) = (Ok tt, h')
    /\ jobResults (job h') = Some entries
    /\ summary (job h') = Some sm
    /\ emailsSent sm + emailsFailed sm
       = length (filter (fun e => outStatus (blockchain e) = "success"
                                  /\ Js.truthy (entryEmail e) = true) entries)
    /\ (emailsSent sm, emailsFailed sm) = (1, 0)
    /\ (fun e => (entryEmail e, outStatus (blockchain e))) <$> entries
       = [(Some "a@example.com", "success"); (Some "b@example.com", "failed")]
    /\ Scripted.mails (world h') = [].
Proof.
  intros w j.
  assert (exists h' entries sm,
            @BulkController.processPipeline Scripted.Script Scripted.mailing
              "default-certificate" true (mkHeap w j) = (Ok tt, h')
            /\ jobResults (job h') = Some entries
            /\ summary (job h') = Some sm
            /\ (emailsSent sm, emailsFailed sm) = (1, 0)
            /\ (fun e => (entryEmail e, outStatus (blockchain e))) <$> entries
               = [(Some "a@example.com", "success");
                  (Some "b@example.com", "failed")]
            /\ Scripted.mails (world h') = [])
    as (h' & entries & sm & Hrun & Hres & Hsm & Hcount & Hentries & Hmails)
    by (eexists _, _, _; vm_compute; repeat split; reflexivity).
  exists h', entries, sm. split; [exact Hrun |]. split; [exact Hres |].
  split; [exact Hsm |]. split; [| auto].
  destruct (@emails_go_to_issued_records_with_address Scripted.Script
              Scripted.mailing "default-certificate" true (mkHeap w j) h'
              Hrun)
    as (entries' & sm' & Hres' & Hsm' & Hall).
  rewrite Hres in Hres'. injection Hres' as <-.
  rewrite Hsm in Hsm'. injection Hsm' as <-.
  cbv zeta in Hall. cbn [andb isEmailConfigured Scripted.mailing] in Hall.
  destruct Hall as (emailJobs & hm & res & hm' & _ & _ & _ & _ & _ & Hsum).
  exact Hsum.
Defined.

(** X27 (bulkController.js, PHASE 3). For a record whose document was
    not rendered (status other than "success", or no bytes) the storing
    phase calls nothing outside the process and changes nothing but the
    progress of the job: no digest is computed and no content identifier
    is recorded, and the records stay as they are. *)
Theorem storing_skips_unrendered_records
    {World : Type} `{Services World} (pdfResults : list PdfResult)
    (n i : nat) (h : Heap World) (pdfResult : PdfResult) :
  pdfResults !! i = Some pdfResult ->
  pdfStatus pdfResult <> "success" \/ pdfBuffer pdfResult = None ->
  exists h' p,
    BulkController.storeStep pdfResults n i h = (Ok tt, h')
    /\ world h' = world h
    /\ job h' = set_progress p (job h)
    /\ phase p = "uploading_ipfs"
    /\ records (job h') = records (job h).
Proof.
  intros Hp Hskip. unfold BulkController.storeStep.
  rewrite Hp. unfold bind at 1, ret at 1. cbv beta iota.
  assert ((match pdfBuffer pdfResult with
           | Some buffer =>
               if String.eqb (pdfStatus pdfResult) "success"
               then tryCatch (BulkController.tryStore i buffer pdfResult)
                      (BulkController.catchStore i)
               else ret tt
           | None => ret tt
           end) h = (Ok tt, h)) as Hskipped.
  { destruct (pdfBuffer pdfResult) as [buffer|]; [| reflexivity].
    destruct Hskip as [Hs | Hb]; [| discriminate].
    apply String.eqb_neq in Hs. rewrite Hs. reflexivity. }
  rewrite (bind_step _ _ _ _ _ Hskipped).
  eexists _, _. split; [reflexivity |]. cbn [world job].
  split; [reflexivity |]. split; [reflexivity |]. split; reflexivity.
Qed.

Lemma storing_skips_unrendered_records_witness :
  let cert :=
    set_certId "CERT-2026-001-ABC"
      (set_row 1 (Scripted.sampleRow "Alice Johnson" "STU-1" "a@example.com")) in
  let failed := PdfService.pdfFailure cert (plainError "render timeout") in
  let h :=
    mkHeap Scripted.quiet
      (mkJob "job-1" "processing" None (Some "f.csv") [cert] [] "t0" None
         None None None None) in
  exists h',
    BulkController.storeStep [failed] 1 0 h = (Ok tt, h')
    /\ world h' = world h
    /\ records (job h') = [cert].
Proof.
  intros cert failed h.
  destruct (storing_skips_unrendered_records (World:=Scripted.Script)
              [failed] 1 0 h failed eq_refl)
    as (h' & p & Hrun & Hw & _ & _ & Hrec).
  { left. discriminate. }
  exists h'. split; [exact Hrun |]. split; [exact Hw | exact Hrec].
Defined.

Section SequenceFacts.

Context {World : Type} `{Services World}.

Import BulkController.

(** The number of certificates on chain as the world [w] has it; reading
    it, reading the clock and drawing a random number do not change it. *)
Variable total : World -> Z.

Hypothesis total_read :
  forall w count w', getTotalCertificates w = (Ok count, w') ->
                     count = total w /\ total w' = total w.

Hypothesis total_clock : forall w, total (snd (getFullYear w)) = total w.

Hypothesis total_random : forall w, total (snd (randomBase36 w)) = total w.

Lemma generateCertificateId_sequence (h : Heap World) newId h1 :
  BlockchainService.generateCertificateId h = (Ok newId, h1) ->
  job h1 = job h
  /\ total (world h1) = total (world h)
  /\ exists yr rand,
       newId = BlockchainService.formatCertificateId (total (world h)) yr rand.
Proof.
  intros Hrun. pose proof (generateCertificateId_job h) as Hjob.
  rewrite Hrun in Hjob. split; [exact Hjob |].
  revert Hrun.
  unfold BlockchainService.generateCertificateId, bind, call, ask, ret.
  destruct (getTotalCertificates (world h)) as [[count|e] w1] eqn:Hcount;
    cbn [world job]; [| discriminate].
  apply total_read in Hcount as [-> Hw1].
  pose proof (total_clock w1) as Hw2.
  destruct (getFullYear w1) as [yr w2]; cbn [world job snd] in *.
  pose proof (total_random w2) as Hw3.
  destruct (randomBase36 w2) as [rand w3]; cbn [snd] in *.
  intros [= <- <-]. cbn [world]. split; [congruence | eauto].
Qed.

Lemma generateIds_sequence n :
  forall i (h h' : Heap World),
  generateIds n i h = (Ok tt, h') ->
  total (world h') = total (world h)
  /\ (forall k c c',
        records (job h) !! k = Some c ->
        records (job h') !! k = Some c' ->
        c' = c
        \/ exists yr rand,
             c' = set_certId
                    (BlockchainService.formatCertificateId
                       (total (world h)) yr rand) c).
Proof.
  induction n as [|n IH]; intros i h h' Hrun; cbn [generateIds] in Hrun.
  - injection Hrun as <-. split; [reflexivity |].
    intros k c c' Hk Hk'. left. congruence.
  - apply bind_Ok in Hrun as (cert & h1 & Hread & Hrun).
    unfold readCert, bind, gets in Hread.
    destruct (records (job h) !! i) as [ci|] eqn:Hi; [| discriminate].
    injection Hread as <- <-.
    apply bind_Ok in Hrun as (u & h2 & Hset & Hrun).
    apply IH in Hrun as (Htotal & Hall).
    destruct (Js.falsy (certId ci)) eqn:Hf.
    + apply bind_Ok in Hset as (newId & h1 & Hgen & Hupd).
      apply generateCertificateId_sequence in Hgen
        as (Hjob & Hw & yr & rand & ->).
      unfold updateCert, updateJob, modify in Hupd.
      injection Hupd as _ <-. cbn [job world records set_records] in *.
      rewrite Hjob in *. rewrite Hw in *.
      split; [exact Htotal |].
      intros k c c' Hk Hk'. destruct (decide (k = i)) as [->|Hne].
      * rewrite Hi in Hk. injection Hk as <-.
        destruct (Hall i _ c' (eq_trans (list_lookup_alter_eq _ _ _)
                                 (f_equal _ Hi)) Hk')
          as [-> | (yr' & rand' & ->)]; right; eauto.
      * apply (Hall k c c'); [| exact Hk'].
        rewrite list_lookup_alter_ne by congruence. exact Hk.
    + injection Hset as _ <-. split; [exact Htotal |]. exact Hall.
Qed.

Lemma phaseIds_sequence (h h' : Heap World) :
  phaseIds h = (Ok tt, h') ->
  forall k c c',
    records (job h) !! k = Some c ->
    records (job h') !! k = Some c' ->
    c' = c
    \/ exists yr rand,
         c' = set_certId
                (BlockchainService.formatCertificateId (total (world h)) yr
                   rand) c.
Proof.
  intros Hrun. unfold phaseIds in Hrun.
  apply bind_Ok in Hrun as (n & h1 & Hn & Hrun).
  apply gets_Ok in Hn as [-> ->].
  apply bind_Ok in Hrun as (u & h2 & Hp & Hrun).
  unfold setProgress, updateJob, modify in Hp. injection Hp as _ <-.
  apply generateIds_sequence in Hrun as (_ & Hall).
  exact Hall.
Qed.

End SequenceFacts.

(** X28 (bulkController.js, PHASE 1; blockchainService.js,
    generateCertificateId). Reading the chain, the clock and the random
    generator issues no certificate, so the on-chain count stays what it
    was at the start of the identifier phase; every identifier that the
    phase generates is therefore built from that one count: all fresh
    identifiers of a batch carry the same sequence number, and only the
    year and the random suffix can tell them apart. *)
Theorem phaseIds_fresh_identifiers_share_sequence
    {World : Type} `{Services World} (total : World -> Z)
    (h h' : Heap World) :
  (forall w count w', getTotalCertificates w = (Ok count, w') ->
                      count = total w /\ total w' = total w) ->
  (forall w, total (snd (getFullYear w)) = total w) ->
  (forall w, total (snd (randomBase36 w)) = total w) ->
  BulkController.phaseIds h = (Ok tt, h') ->
  forall k c c',
    records (job h) !! k = Some c ->
    records (job h') !! k = Some c' ->
    c' = c
    \/ exists yr rand,
         certId c'
         = Some ("CERT-" +:+ pretty yr +:+ "-"
                 +:+ BlockchainService.sequenceText (total (world h))
                 +:+ "-" +:+ BlockchainService.randomSuffix rand)
         /\ c' = set_certId
                   (BlockchainService.formatCertificateId (total (world h))
                      yr rand) c.
Proof.
  intros Hread Hclock Hrandom Hrun k c c' Hk Hk'.
  destruct (phaseIds_sequence total Hread Hclock Hrandom h h' Hrun k c c' Hk
              Hk') as [-> | (yr & rand & ->)]; [auto |].
  right. exists yr, rand. split; reflexivity.
Qed.

Lemma phaseIds_fresh_identifiers_share_sequence_witness :
  let first :=
    set_row 1 (Scripted.sampleRow "Alice Johnson" "STU-1" "a@example.com") in
  let second :=
    set_row 2 (Scripted.sampleRow "Bob Smith" "STU-2" "b@example.com") in
  let h :=
    mkHeap (Scripted.mkScript 41 2026 ["0.abc123"; "0.abc987"] [] [] [] []
              [] [])
      (mkJob "job-1" "processing" None (Some "f.csv") [first; second] []
         "t0" None None None None None) in
  exists h',
    BulkController.phaseIds h = (Ok tt, h')
    /\ (certId <$> records (job h'))
       = [Some "CERT-2026-042-ABC"; Some "CERT-2026-042-ABC"]
    /\ (forall k c c',
          records (job h) !! k = Some c ->
          records (job h') !! k = Some c' ->
          c' = c
          \/ exists yr rand,
               c' = set_certId
                      (BlockchainService.formatCertificateId 41 yr rand) c).
Proof.
  intros first second h.
  assert (exists h',
            BulkController.phaseIds h = (Ok tt, h')
            /\ (certId <$> records (job h'))
               = [Some "CERT-2026-042-ABC"; Some "CERT-2026-042-ABC"])
    as (h' & Hrun & Hids)
    by (eexists; vm_compute; split; reflexivity).
  exists h'. split; [exact Hrun |]. split; [exact Hids |].
  intros k c c' Hk Hk'.
  destruct (phaseIds_fresh_identifiers_share_sequence
              (World:=Scripted.Script) Scripted.totalCertificates h h')
    with (k := k) (c := c) (c' := c')
    as [Hsame | (yr & rand & _ & Hfresh)];
    [ intros w count w' [= <- <-]; split; reflexivity
    | intros w; reflexivity
    | intros w; unfold randomBase36; cbn; unfold Scripted.popRandom;
      destruct (Scripted.randoms w); reflexivity
    | exact Hrun | exact Hk | exact Hk' | left; exact Hsame
    | right; exists yr, rand; exact Hfresh ].
Defined.
